(** * Tajmir letterhead editor: the overlay-element engine

    A shallow embedding of the interactive core of the editor:
    - [App]: the zoom state and the two capture pipelines
      ([handleExportPDF], [handleCopyImage]);
    - [Toolbar]: the export button that is wired to the pipeline;
    - [DraggableImage], [DraggableText]: the per-element state and the
      pointer handlers (drag, resize, click outside, crop, threshold);
    - [TajmirTemplate]: the element collections, the add/remove
      commands and their persistence in [localStorage].

    Conventions.  Pointer coordinates, positions, sizes and the zoom
    factor are JavaScript numbers.  Where a statement is a bound or a
    single evaluation of a clamp (the zoom range, the size floor, the
    pinch), they are modelled by exact rationals ([Q]).  Where the
    rounding of the arithmetic decides the statement they are modelled
    in IEEE-754 binary64 ([Binary64], on the Standard Library's
    [SpecFloat]): the brightness test of the background remover, which
    compares two computed doubles and is related to exact arithmetic by
    theorem, and the drag of a text element, whose position is a sum of
    rounded quotients.  [async] functions are
    terms of a small process type ([Async.Proc]) whose [Await] nodes
    are the points where control returns to the event loop. *)

From Stdlib Require Import ZArith QArith Qminmax List Bool String Lia.
From Stdlib Require Import Floats.SpecFloat.
From Stdlib Require Import Sorting.Sorted.
From Stdlib Require Import Lqa.
Import ListNotations.

Set Implicit Arguments.

(* ================================================================= *)
(** * Asynchronous functions with exceptions *)

Module Async.

(** A thrown JavaScript value. *)
Inductive Err : Type := Error (message : string).

(** How an external call, or the promise it returns, ends. *)
Inductive Outcome : Type :=
| Fulfilled
| Rejected (e : Err).

(** How a whole function body ends. *)
Inductive Completion : Type :=
| Completed
| Uncaught (e : Err).

Section Proc.
(** [S] is the state the function updates (React state setters),
    [C] names the external calls it makes. *)
Variables (S C : Type).

Inductive Proc : Type :=
| Ret : Proc
| Throw : Err -> Proc
| Upd : (S -> S) -> Proc -> Proc
| Call : C -> (Outcome -> Proc) -> Proc
| Await : C -> (Outcome -> Proc) -> Proc.

(** [p; q] *)
Fixpoint seq (p q : Proc) : Proc :=
  match p with
  | Ret => q
  | Throw e => Throw e
  | Upd f k => Upd f (seq k q)
  | Call c k => Call c (fun o => seq (k o) q)
  | Await c k => Await c (fun o => seq (k o) q)
  end.

(** [try { p } catch (e) { h e }] *)
Fixpoint catch (p : Proc) (h : Err -> Proc) : Proc :=
  match p with
  | Ret => Ret
  | Throw e => h e
  | Upd f k => Upd f (catch k h)
  | Call c k => Call c (fun o => catch (k o) h)
  | Await c k => Await c (fun o => catch (k o) h)
  end.

(** [try { p } finally { fin }]: [fin] runs on both exits; an
    exception of [p] is rethrown after it unless [fin] throws. *)
Fixpoint finally (p fin : Proc) : Proc :=
  match p with
  | Ret => fin
  | Throw e => seq fin (Throw e)
  | Upd f k => Upd f (finally k fin)
  | Call c k => Call c (fun o => finally (k o) fin)
  | Await c k => Await c (fun o => finally (k o) fin)
  end.

Definition try_catch_finally (p : Proc) (h : Err -> Proc) (fin : Proc) : Proc :=
  finally (catch p h) fin.

(** A state update, a synchronous call that may throw, an awaited
    promise that may reject, and an awaited promise that cannot. *)
Definition upd (f : S -> S) : Proc := Upd f Ret.

Definition raise_rejection (o : Outcome) : Proc :=
  match o with
  | Fulfilled => Ret
  | Rejected e => Throw e
  end.

Definition call (c : C) : Proc := Call c raise_rejection.
Definition await (c : C) : Proc := Await c raise_rejection.
Definition await_settled (c : C) : Proc := Await c (fun _ => Ret).

(** The world a function runs in: the state, and the external
    calls made so far, oldest first. *)
Record World : Type := mkWorld { state : S; calls : list C }.

(** The environment: the outcome of the [n]-th external call, and
    what other event handlers do to the state while the function
    is suspended at the [n]-th call. *)
Record Env : Type := mkEnv {
  answer : nat -> Outcome;
  interfere : nat -> S -> S
}.

Definition set_state (f : S -> S) (w : World) : World :=
  {| state := f (state w); calls := calls w |}.

Definition record_call (c : C) (w : World) : World :=
  {| state := state w; calls := calls w ++ [c] |}.

(** Run to the end, the environment settling every call. *)
Fixpoint exec (env : Env) (p : Proc) (w : World) : World * Completion :=
  match p with
  | Ret => (w, Completed)
  | Throw e => (w, Uncaught e)
  | Upd f k => exec env k (set_state f w)
  | Call c k =>
      exec env (k (answer env (List.length (calls w)))) (record_call c w)
  | Await c k =>
      let n := List.length (calls w) in
      exec env (k (answer env n))
           (set_state (interfere env n) (record_call c w))
  end.

(** One turn of the event loop: run synchronously up to the next
    suspension point. *)
Inductive Status : Type :=
| Settled (c : Completion)
| Suspended (c : C) (k : Outcome -> Proc).

Fixpoint run_turn (env : Env) (p : Proc) (w : World) : World * Status :=
  match p with
  | Ret => (w, Settled Completed)
  | Throw e => (w, Settled (Uncaught e))
  | Upd f k => run_turn env k (set_state f w)
  | Call c k =>
      run_turn env (k (answer env (List.length (calls w)))) (record_call c w)
  | Await c k => (record_call c w, Suspended c k)
  end.

(** The awaited promise settles with [o]: the next turn. *)
Definition resume (env : Env) (st : Status) (o : Outcome) (w : World)
  : World * Status :=
  match st with
  | Settled c => (w, Settled c)
  | Suspended _ k => run_turn env (k o) w
  end.

End Proc.

Arguments Ret {S C}.
Arguments Throw {S C} _.
Arguments Upd {S C} _ _.
Arguments Call {S C} _ _.
Arguments Await {S C} _ _.
Arguments upd {S C} _.
Arguments call {S} [C] _.
Arguments await {S} [C] _.
Arguments await_settled {S} [C] _.
Arguments Settled {S C} _.
Arguments Suspended {S C} _ _.

Declare Scope proc_scope.
Delimit Scope proc_scope with proc.
Notation "p ;; q" := (seq p q)
  (at level 61, right associativity) : proc_scope.

End Async.

(* ================================================================= *)
(** * App: zoom state and the capture pipelines *)

Module App.
Import Async.
Local Open Scope proc_scope.
Local Open Scope string_scope.

(** The element [pageRef] points to when the page is mounted. *)
Inductive HTMLDivElement : Type := A4Page.

Record AppState : Type := mkAppState {
  zoom : Q;
  toastMsg : option string;
  isProcessing : bool;
  console : list Err
}.

Definition setZoom (z : Q) (s : AppState) : AppState :=
  {| zoom := z; toastMsg := toastMsg s;
     isProcessing := isProcessing s; console := console s |}.

Definition setIsProcessing (b : bool) (s : AppState) : AppState :=
  {| zoom := zoom s; toastMsg := toastMsg s;
     isProcessing := b; console := console s |}.

Definition setToastMsg (m : option string) (s : AppState) : AppState :=
  {| zoom := zoom s; toastMsg := m;
     isProcessing := isProcessing s; console := console s |}.

Definition console_error (e : Err) (s : AppState) : AppState :=
  {| zoom := zoom s; toastMsg := toastMsg s;
     isProcessing := isProcessing s; console := console s ++ [e] |}.

(** The calls into the browser and the two libraries. *)
Inductive ExtCall : Type :=
| Delay (ms : Z)                 (* new Promise(r => setTimeout(r, ms)) *)
| Html2canvas (scale : Z)        (* html2canvas(pageRef.current, {scale}) *)
| ToDataURL                      (* canvas.toDataURL('image/jpeg', 0.90) *)
| NewJsPDF                       (* new jsPDF({... format: 'a4'}) *)
| PageSize                       (* pdf.internal.pageSize.getWidth/Height *)
| AddImage                       (* pdf.addImage(...) *)
| Save                           (* pdf.save(...) *)
| ToBlob                         (* canvas.toBlob(callback) *)
| NewClipboardItem               (* new ClipboardItem({...}) *)
| ClipboardWrite.                (* navigator.clipboard.write([item]) *)

Definition Handler : Type := Proc AppState ExtCall.

(** [showToast]: the message is set now; the timer that clears it
    after three seconds is the later event [toastTimeout]. *)
Definition showToast (msg : string) : Handler := upd (setToastMsg (Some msg)).
Definition toastTimeout : Handler := upd (setToastMsg None).

(** [handleExportPDF], as rendered with the state's zoom [zoom]. *)
Definition handleExportPDF (zoom : Q) (pageRef : option HTMLDivElement) : Handler :=
  match pageRef with
  | None => Ret
  | Some _ =>
      upd (setIsProcessing true) ;;
      let originalZoom := zoom in
      try_catch_finally
        (upd (setZoom 1) ;;
         await_settled (Delay 300) ;;
         await (Html2canvas 4) ;;
         call ToDataURL ;;
         call NewJsPDF ;;
         call PageSize ;;
         call AddImage ;;
         call Save ;;
         showToast "PDF Downloaded successfully")
        (fun err =>
           upd (console_error err) ;;
           showToast "Failed to generate PDF")
        (upd (setZoom originalZoom) ;;
         upd (setIsProcessing false))
  end.

(** [handleCopyImage]; the callback handed to [canvas.toBlob] runs in
    a later turn and is [toBlobCallback]. *)
Definition handleCopyImage (zoom : Q) (pageRef : option HTMLDivElement) : Handler :=
  match pageRef with
  | None => Ret
  | Some _ =>
      upd (setIsProcessing true) ;;
      let originalZoom := zoom in
      try_catch_finally
        (upd (setZoom 1) ;;
         await_settled (Delay 300) ;;
         await (Html2canvas 3) ;;
         call ToBlob)
        (fun err =>
           upd (console_error err) ;;
           showToast "Failed to copy image")
        (upd (setZoom originalZoom) ;;
         upd (setIsProcessing false))
  end.

Inductive Blob : Type := PngBlob.

Definition toBlobCallback (blob : option Blob) : Handler :=
  match blob with
  | None => Throw (Error "Canvas is empty")
  | Some _ =>
      call NewClipboardItem ;;
      Await ClipboardWrite (fun o =>
        match o with
        | Fulfilled => showToast "Copied to clipboard!"
        | Rejected _ => showToast "Clipboard write failed (browser limitation)"
        end)
  end.

(** Number of rasterisations started so far. *)
Definition is_capture (c : ExtCall) : bool :=
  match c with
  | Html2canvas _ => true
  | _ => false
  end.

Definition captures (w : World AppState ExtCall) : nat :=
  List.length (List.filter is_capture (calls w)).

End App.

(* ================================================================= *)
(** * Toolbar: the export button *)

Module Toolbar.
Import Async.

(** [<button onClick={onExportPDF} disabled={isProcessing}>]: a click
    on a disabled button dispatches nothing.  [isProcessing] is the
    prop of the last render.  No button is wired to [onCopyImage]. *)
Definition click_exportPDF (isProcessing : bool) (onExportPDF : App.Handler)
  : App.Handler :=
  if isProcessing then Ret else onExportPDF.

End Toolbar.

(* ================================================================= *)
(** * Checking a finite range by computation *)

Module Tables.
Local Open Scope Z_scope.

(** [0 .. n-1] *)
Definition range (n : Z) : list Z := List.map Z.of_nat (List.seq 0 (Z.to_nat n)).

Definition tabulate {A : Type} (f : Z -> A) (n : Z) : list (Z * A) :=
  List.map (fun z => (z, f z)) (range n).

(** [P a (f a) b (g b)] for every [a < m] and [b < n]; each [f a] and
    [g b] is computed once. *)
Definition forall2 {A B : Type} (f : Z -> A) (g : Z -> B)
  (P : Z -> A -> Z -> B -> bool) (m n : Z) : bool :=
  let xs := tabulate f m in
  let ys := tabulate g n in
  forallb (fun a => forallb (fun b => P (fst a) (snd a) (fst b) (snd b)) ys) xs.

End Tables.

(* ================================================================= *)
(** * JavaScript numbers where rounding matters *)

Module Binary64.

Definition prec : Z := 53.
Definition emax : Z := 1024.

(** An IEEE-754 double, every operation rounded to nearest even. *)
Definition double : Type := spec_float.

Definition of_Z (n : Z) : double := binary_normalize prec emax n 0 false.
Definition add : double -> double -> double := SFadd prec emax.
Definition sub : double -> double -> double := SFsub prec emax.
Definition mul : double -> double -> double := SFmul prec emax.
Definition div : double -> double -> double := SFdiv prec emax.

(** [x > y]; false when either side is NaN. *)
Definition gt (x y : double) : bool := SFltb y x.

(** The literal [2.55]: the double nearest to 255/100, which is
    5742089524897382 * 2^-51. *)
Definition lit_2_55 : double := S754_finite false 5742089524897382 (-51).

(** The literals [0.5], which is a power of two, and [0.3], whose
    nearest double is 5404319552844595 * 2^-54. *)
Definition lit_0_5 : double := S754_finite false 4503599627370496 (-53).
Definition lit_0_3 : double := S754_finite false 5404319552844595 (-54).

(** Whether a value of the representation is a double: mantissa and
    exponent in canonical form and in range. *)
Definition valid (x : double) : bool := valid_binary prec emax x.

(** The double of a rational whose numerator and denominator are
    below 2^53: their quotient, rounded once. *)
Definition of_Q (q : Q) : double :=
  div (of_Z (Qnum q)) (of_Z (Zpos (Qden q))).

(** The exact value of a double that is a number. *)
Definition to_Q (x : double) : option Q :=
  match x with
  | S754_zero _ => Some 0%Q
  | S754_finite s m e =>
      Some ((if s then - inject_Z (Zpos m) else inject_Z (Zpos m)) * Qpower 2 e)%Q
  | _ => None
  end.

Definition eqb (x y : double) : bool :=
  match x, y with
  | S754_zero s1, S754_zero s2 => Bool.eqb s1 s2
  | S754_infinity s1, S754_infinity s2 => Bool.eqb s1 s2
  | S754_nan, S754_nan => true
  | S754_finite s1 m1 e1, S754_finite s2 m2 e2 =>
      Bool.eqb s1 s2 && Pos.eqb m1 m2 && Z.eqb e1 e2
  | _, _ => false
  end.

End Binary64.

(* ================================================================= *)
(** * Canvas pixels and the background remover *)

Module Canvas.
Local Open Scope Z_scope.

(** [ImageData]: [data] is the [Uint8ClampedArray] of RGBA bytes, four
    per pixel, row by row. *)
Record ImageData : Type := mkImageData {
  width : Z;
  height : Z;
  data : list Z
}.

(** The [Image] object behind [originalImageRef]: whether it has
    finished loading, its natural size, and the bytes that drawing it
    on a fresh canvas and reading the canvas back gives. *)
Record HTMLImageElement : Type := mkImage {
  complete : bool;
  naturalWidth : Z;
  naturalHeight : Z;
  decoded : list Z
}.

(** What an [<img src>] can hold here: the URL the element was
    created with, or the data URL of a canvas, which stands for the
    pixels it encodes. *)
Inductive ImageSource : Type :=
| Url (src : string)
| CanvasDataURL (canvas : ImageData).

(** [const thresh = 255 - (threshold * 2.55)] *)
Definition thresh (threshold : Z) : Binary64.double :=
  Binary64.sub (Binary64.of_Z 255)
               (Binary64.mul (Binary64.of_Z threshold) Binary64.lit_2_55).

(** [const brightness = (r + g + b) / 3] *)
Definition brightness (r g b : Z) : Binary64.double :=
  Binary64.div
    (Binary64.add (Binary64.add (Binary64.of_Z r) (Binary64.of_Z g))
                  (Binary64.of_Z b))
    (Binary64.of_Z 3).

(** The loop [for (i = 0; i < data.length; i += 4)].  On a tail of
    fewer than four bytes a read past the end gives [undefined], the
    brightness is NaN and the test fails, so the tail is kept. *)
Fixpoint strip_light (th : Binary64.double) (data : list Z) : list Z :=
  match data with
  | r :: g :: b :: a :: rest =>
      r :: g :: b ::
      (if Binary64.gt (brightness r g b) th then 0 else a) ::
      strip_light th rest
  | _ => data
  end.

(** The image-processing effect of [DraggableImage]: the new value of
    [processedSrc].  [context2d] tells whether
    [canvas.getContext('2d')] returned a context. *)
Definition processImage (context2d : bool) (threshold : Z) (src : string)
  (img : HTMLImageElement) (processedSrc : ImageSource) : ImageSource :=
  if threshold =? 0 then Url src
  else if negb (complete img) then processedSrc
  else if negb context2d then processedSrc
  else
    CanvasDataURL
      {| width := naturalWidth img;
         height := naturalHeight img;
         data := strip_light (thresh threshold) (decoded img) |}.

End Canvas.

(** The background remover in the words of the specification, over
    exact rationals: a pixel whose channel average exceeds
    [255 - threshold * 2.55] gets alpha 0, every other pixel is kept. *)
Module PixelSpec.
Local Open Scope Q_scope.

Record Pixel : Type := mkPixel { red : Z; green : Z; blue : Z; alpha : Z }.

Definition average (p : Pixel) : Q :=
  inject_Z (red p + green p + blue p) / 3.

Definition cutoff (threshold : Z) : Q :=
  255 - inject_Z threshold * (255 # 100).

Definition exceeds (threshold : Z) (p : Pixel) : bool :=
  negb (Qle_bool (average p) (cutoff threshold)).

Definition remove_pixel (threshold : Z) (p : Pixel) : Pixel :=
  if exceeds threshold p
  then {| red := red p; green := green p; blue := blue p; alpha := 0 |}
  else p.

Definition removeBackground (threshold : Z) (pixels : list Pixel) : list Pixel :=
  List.map (remove_pixel threshold) pixels.

(** The bytes of a list of pixels, in canvas order. *)
Fixpoint bytes (pixels : list Pixel) : list Z :=
  match pixels with
  | [] => []
  | p :: rest => red p :: green p :: blue p :: alpha p :: bytes rest
  end.

Definition is_byte (n : Z) : Prop := (0 <= n <= 255)%Z.

Definition well_formed (p : Pixel) : Prop :=
  is_byte (red p) /\ is_byte (green p) /\ is_byte (blue p) /\ is_byte (alpha p).

End PixelSpec.

(* ================================================================= *)
(** * Pointer events *)

Module DOM.

(** [{ x: number, y: number }]: a document position or a recorded
    pointer position. *)
Record Point : Type := mkPoint { x : Q; y : Q }.

(** The coordinates a handler reads off a [MouseEvent], or off
    [e.touches[0]] of a [TouchEvent]. *)
Record Pointer : Type := mkPointer { clientX : Q; clientY : Q }.

Definition at_pointer (e : Pointer) : Point :=
  {| x := clientX e; y := clientY e |}.

(** The same records with the coordinates as the doubles they are,
    for the code whose rounding is followed. *)
Module Num.

Record Point : Type := mkPoint { x : Binary64.double; y : Binary64.double }.

Record Pointer : Type := mkPointer {
  clientX : Binary64.double;
  clientY : Binary64.double
}.

Definition at_pointer (e : Pointer) : Point :=
  {| x := clientX e; y := clientY e |}.

(** A pointer at whole CSS pixels. *)
Definition pixel (px py : Z) : Pointer :=
  {| clientX := Binary64.of_Z px; clientY := Binary64.of_Z py |}.

End Num.

(** What a click-outside handler asks about a pointer-down event:
    whether the component's ref is attached, whether the referenced
    node contains the target, and whether the target lies inside an
    element of class [control-btn] or [tool-panel]. *)
Record PointerDown : Type := mkPointerDown {
  ref_attached : bool;
  ref_contains_target : bool;
  closest_control_btn : bool;
  closest_tool_panel : bool
}.

(** The target is outside the referenced node and outside every
    control button and tool panel. *)
Definition is_outside (e : PointerDown) : Prop :=
  ref_attached e = true /\ ref_contains_target e = false /\
  closest_control_btn e = false /\ closest_tool_panel e = false.

End DOM.

(* ================================================================= *)
(** * DraggableImage *)

Module DraggableImage.
Local Open Scope Q_scope.

Record Props : Type := mkProps {
  id : Z;
  src : string;
  initialX : Q;
  initialY : Q;
  zoom : Q
}.

Record Size : Type := mkSize { width : Q; height : Q }.

(** Crop percentages. *)
Record Crop : Type := mkCrop { t : Q; r : Q; b : Q; l : Q }.

(** The snapshot [startDimRef] holds during a resize. *)
Record StartDim : Type := mkStartDim { w : Q; h : Q; x : Q; y : Q }.

(** The [useState] cells and the two pointer refs. *)
Record State : Type := mkState {
  position : DOM.Point;
  size : Size;
  processedSrc : Canvas.ImageSource;
  showMagic : bool;
  showCrop : bool;
  threshold : Z;
  crop : Crop;
  isDragging : bool;
  isResizing : bool;
  isSelected : bool;
  dragStartRef : option DOM.Point;
  startDimRef : option StartDim
}.

(** The first render. *)
Definition initialState (props : Props) : State :=
  {| position := {| DOM.x := initialX props; DOM.y := initialY props |};
     size := {| width := 200; height := 200 |};
     processedSrc := Canvas.Url (src props);
     showMagic := false;
     showCrop := false;
     threshold := 0;
     crop := {| t := 0; r := 0; b := 0; l := 0 |};
     isDragging := false;
     isResizing := false;
     isSelected := false;
     dragStartRef := None;
     startDimRef := None |}.

Definition setPosition (v : DOM.Point) (s : State) : State :=
  {| position := v;
     size := size s;
     processedSrc := processedSrc s;
     showMagic := showMagic s;
     showCrop := showCrop s;
     threshold := threshold s;
     crop := crop s;
     isDragging := isDragging s;
     isResizing := isResizing s;
     isSelected := isSelected s;
     dragStartRef := dragStartRef s;
     startDimRef := startDimRef s |}.

Definition setSize (v : Size) (s : State) : State :=
  {| position := position s;
     size := v;
     processedSrc := processedSrc s;
     showMagic := showMagic s;
     showCrop := showCrop s;
     threshold := threshold s;
     crop := crop s;
     isDragging := isDragging s;
     isResizing := isResizing s;
     isSelected := isSelected s;
     dragStartRef := dragStartRef s;
     startDimRef := startDimRef s |}.

Definition setProcessedSrc (v : Canvas.ImageSource) (s : State) : State :=
  {| position := position s;
     size := size s;
     processedSrc := v;
     showMagic := showMagic s;
     showCrop := showCrop s;
     threshold := threshold s;
     crop := crop s;
     isDragging := isDragging s;
     isResizing := isResizing s;
     isSelected := isSelected s;
     dragStartRef := dragStartRef s;
     startDimRef := startDimRef s |}.

Definition setShowMagic (v : bool) (s : State) : State :=
  {| position := position s;
     size := size s;
     processedSrc := processedSrc s;
     showMagic := v;
     showCrop := showCrop s;
     threshold := threshold s;
     crop := crop s;
     isDragging := isDragging s;
     isResizing := isResizing s;
     isSelected := isSelected s;
     dragStartRef := dragStartRef s;
     startDimRef := startDimRef s |}.

Definition setShowCrop (v : bool) (s : State) : State :=
  {| position := position s;
     size := size s;
     processedSrc := processedSrc s;
     showMagic := showMagic s;
     showCrop := v;
     threshold := threshold s;
     crop := crop s;
     isDragging := isDragging s;
     isResizing := isResizing s;
     isSelected := isSelected s;
     dragStartRef := dragStartRef s;
     startDimRef := startDimRef s |}.

Definition setThreshold (v : Z) (s : State) : State :=
  {| position := position s;
     size := size s;
     processedSrc := processedSrc s;
     showMagic := showMagic s;
     showCrop := showCrop s;
     threshold := v;
     crop := crop s;
     isDragging := isDragging s;
     isResizing := isResizing s;
     isSelected := isSelected s;
     dragStartRef := dragStartRef s;
     startDimRef := startDimRef s |}.

Definition setCrop (v : Crop) (s : State) : State :=
  {| position := position s;
     size := size s;
     processedSrc := processedSrc s;
     showMagic := showMagic s;
     showCrop := showCrop s;
     threshold := threshold s;
     crop := v;
     isDragging := isDragging s;
     isResizing := isResizing s;
     isSelected := isSelected s;
     dragStartRef := dragStartRef s;
     startDimRef := startDimRef s |}.

Definition setIsDragging (v : bool) (s : State) : State :=
  {| position := position s;
     size := size s;
     processedSrc := processedSrc s;
     showMagic := showMagic s;
     showCrop := showCrop s;
     threshold := threshold s;
     crop := crop s;
     isDragging := v;
     isResizing := isResizing s;
     isSelected := isSelected s;
     dragStartRef := dragStartRef s;
     startDimRef := startDimRef s |}.

Definition setIsResizing (v : bool) (s : State) : State :=
  {| position := position s;
     size := size s;
     processedSrc := processedSrc s;
     showMagic := showMagic s;
     showCrop := showCrop s;
     threshold := threshold s;
     crop := crop s;
     isDragging := isDragging s;
     isResizing := v;
     isSelected := isSelected s;
     dragStartRef := dragStartRef s;
     startDimRef := startDimRef s |}.

Definition setIsSelected (v : bool) (s : State) : State :=
  {| position := position s;
     size := size s;
     processedSrc := processedSrc s;
     showMagic := showMagic s;
     showCrop := showCrop s;
     threshold := threshold s;
     crop := crop s;
     isDragging := isDragging s;
     isResizing := isResizing s;
     isSelected := v;
     dragStartRef := dragStartRef s;
     startDimRef := startDimRef s |}.

Definition set_dragStartRef (v : option DOM.Point) (s : State) : State :=
  {| position := position s;
     size := size s;
     processedSrc := processedSrc s;
     showMagic := showMagic s;
     showCrop := showCrop s;
     threshold := threshold s;
     crop := crop s;
     isDragging := isDragging s;
     isResizing := isResizing s;
     isSelected := isSelected s;
     dragStartRef := v;
     startDimRef := startDimRef s |}.

Definition set_startDimRef (v : option StartDim) (s : State) : State :=
  {| position := position s;
     size := size s;
     processedSrc := processedSrc s;
     showMagic := showMagic s;
     showCrop := showCrop s;
     threshold := threshold s;
     crop := crop s;
     isDragging := isDragging s;
     isResizing := isResizing s;
     isSelected := isSelected s;
     dragStartRef := dragStartRef s;
     startDimRef := v |}.

(** The image-processing effect, run after [threshold] or [src]
    changed. *)
Definition processEffect (context2d : bool) (props : Props)
  (originalImage : Canvas.HTMLImageElement) (s : State) : State :=
  setProcessedSrc
    (Canvas.processImage context2d (threshold s) (src props) originalImage
       (processedSrc s)) s.

(** [handleMouseMove]: its two [if] statements in order.  The refs are
    read when the statement runs, so the second sees what the first
    stored. *)
Definition drag_move (zoom : Q) (e : DOM.Pointer) (s : State) : State :=
  match isDragging s, dragStartRef s with
  | true, Some start =>
      let dx := (DOM.clientX e - DOM.x start) / zoom in
      let dy := (DOM.clientY e - DOM.y start) / zoom in
      set_dragStartRef (Some (DOM.at_pointer e))
        (setPosition {| DOM.x := DOM.x (position s) + dx;
                        DOM.y := DOM.y (position s) + dy |} s)
  | _, _ => s
  end.

Definition resize_move (zoom : Q) (e : DOM.Pointer) (s : State) : State :=
  match isResizing s, startDimRef s, dragStartRef s with
  | true, Some dim, Some start =>
      let dx := (DOM.clientX e - DOM.x start) / zoom in
      let dy := (DOM.clientY e - DOM.y start) / zoom in
      setSize {| width := Qmax 50 (w dim + dx);
                 height := Qmax 50 (h dim + dy) |} s
  | _, _, _ => s
  end.

Definition handleMouseMove (zoom : Q) (e : DOM.Pointer) (s : State) : State :=
  resize_move zoom e (drag_move zoom e s).

Definition handleMouseUp (s : State) : State :=
  set_startDimRef None
    (set_dragStartRef None (setIsResizing false (setIsDragging false s))).

(** The [mousedown] listener on [window]. *)
Definition handleClickOutside (e : DOM.PointerDown) (s : State) : State :=
  if DOM.ref_attached e && negb (DOM.ref_contains_target e) then
    if negb (DOM.closest_control_btn e) && negb (DOM.closest_tool_panel e) then
      setShowCrop false (setShowMagic false (setIsSelected false s))
    else s
  else s.

(** The [touchstart] listener on [window]. *)
Definition touchstartOutside (e : DOM.PointerDown) (s : State) : State :=
  if DOM.ref_attached e && negb (DOM.ref_contains_target e) then
    if negb (DOM.closest_control_btn e) && negb (DOM.closest_tool_panel e) then
      setIsSelected false s
    else s
  else s.

(** [mousedown] on the Move button. *)
Definition handleMouseDown (e : DOM.Pointer) (s : State) : State :=
  set_dragStartRef (Some (DOM.at_pointer e)) (setIsDragging true s).

(** [mousedown] on the corner handle. *)
Definition handleResizeStart (e : DOM.Pointer) (s : State) : State :=
  set_startDimRef
    (Some {| w := width (size s); h := height (size s);
             x := DOM.x (position s); y := DOM.y (position s) |})
    (set_dragStartRef (Some (DOM.at_pointer e)) (setIsResizing true s)).

Definition handleContainerClick (s : State) : State := setIsSelected true s.

(** The two tool buttons. *)
Definition clickMagic (s : State) : State :=
  setShowCrop false (setShowMagic (negb (showMagic s)) s).

Definition clickCrop (s : State) : State :=
  setShowMagic false (setShowCrop (negb (showCrop s)) s).

(** The slider: [setThreshold(Number(e.target.value))]. *)
Definition changeThreshold (value : Z) (s : State) : State :=
  setThreshold value s.

(** The four crop inputs: [setCrop({...crop, t: Number(e.target.value)})]
    and its three siblings.  [value] is the number the field holds;
    the [min] and [max] attributes of the field are not consulted. *)
Inductive Side : Type := Top | Bottom | Left | Right.

Definition changeCrop (side : Side) (value : Q) (s : State) : State :=
  let c := crop s in
  match side with
  | Top => setCrop {| t := value; r := r c; b := b c; l := l c |} s
  | Bottom => setCrop {| t := t c; r := r c; b := value; l := l c |} s
  | Left => setCrop {| t := t c; r := r c; b := b c; l := value |} s
  | Right => setCrop {| t := t c; r := value; b := b c; l := l c |} s
  end.

Definition side_of (side : Side) (c : Crop) : Q :=
  match side with
  | Top => t c
  | Bottom => b c
  | Left => l c
  | Right => r c
  end.

Definition Side_eqb (s1 s2 : Side) : bool :=
  match s1, s2 with
  | Top, Top | Bottom, Bottom | Left, Left | Right, Right => true
  | _, _ => false
  end.

Definition showControls (s : State) : bool :=
  isDragging s || isResizing s || isSelected s.

Definition zIndex (s : State) : Z :=
  if isDragging s || isResizing s || showControls s then 40%Z else 10%Z.

(** A run of pointer moves at a fixed zoom, oldest first. *)
Definition moves (zoom : Q) (es : list DOM.Pointer) (s : State) : State :=
  List.fold_left (fun st e => handleMouseMove zoom e st) es s.

(** Being resized and not dragged, with the snapshot [dim] taken and
    the pointer-down point [start] recorded. *)
Definition resizing (dim : StartDim) (start : DOM.Point) (s : State) : Prop :=
  isDragging s = false /\ isResizing s = true /\
  startDimRef s = Some dim /\ dragStartRef s = Some start.

(** Everything that can happen to a mounted image element; a pointer
    move carries the zoom of the render whose handler receives it. *)
Inductive Event : Type :=
| MouseMove (zoom : Q) (e : DOM.Pointer)
| MouseUp
| MouseDownOutside (e : DOM.PointerDown)
| TouchStartOutside (e : DOM.PointerDown)
| MouseDownMove (e : DOM.Pointer)
| MouseDownResize (e : DOM.Pointer)
| ContainerClick
| ClickMagic
| ClickCrop
| ChangeThreshold (value : Z)
| ChangeCrop (side : Side) (value : Q)
| ProcessEffect (context2d : bool) (originalImage : Canvas.HTMLImageElement).

Definition step (props : Props) (s : State) (ev : Event) : State :=
  match ev with
  | MouseMove zoom e => handleMouseMove zoom e s
  | MouseUp => handleMouseUp s
  | MouseDownOutside e => handleClickOutside e s
  | TouchStartOutside e => touchstartOutside e s
  | MouseDownMove e => handleMouseDown e s
  | MouseDownResize e => handleResizeStart e s
  | ContainerClick => handleContainerClick s
  | ClickMagic => clickMagic s
  | ClickCrop => clickCrop s
  | ChangeThreshold value => changeThreshold value s
  | ChangeCrop side value => changeCrop side value s
  | ProcessEffect context2d img => processEffect context2d props img s
  end.

Inductive reachable (props : Props) : State -> Prop :=
| reachable_initial : reachable props (initialState props)
| reachable_step (s : State) (ev : Event) :
    reachable props s -> reachable props (step props s ev).

End DraggableImage.

(* ================================================================= *)
(** * DraggableText *)

Module DraggableText.

(** Positions, pointer coordinates and the zoom are doubles, and the
    arithmetic of the move handlers rounds as JavaScript's does. *)
Record Props : Type := mkProps {
  id : Z;
  initialX : Binary64.double;
  initialY : Binary64.double;
  zoom : Binary64.double
}.

Record State : Type := mkState {
  position : DOM.Num.Point;
  isDragging : bool;
  isHovered : bool;
  isSelected : bool;
  dragStartRef : option DOM.Num.Point
}.

Definition initialState (props : Props) : State :=
  {| position := {| DOM.Num.x := initialX props; DOM.Num.y := initialY props |};
     isDragging := false;
     isHovered := false;
     isSelected := false;
     dragStartRef := None |}.

Definition setPosition (v : DOM.Num.Point) (s : State) : State :=
  {| position := v; isDragging := isDragging s; isHovered := isHovered s;
     isSelected := isSelected s; dragStartRef := dragStartRef s |}.

Definition setIsDragging (v : bool) (s : State) : State :=
  {| position := position s; isDragging := v; isHovered := isHovered s;
     isSelected := isSelected s; dragStartRef := dragStartRef s |}.

Definition setIsHovered (v : bool) (s : State) : State :=
  {| position := position s; isDragging := isDragging s; isHovered := v;
     isSelected := isSelected s; dragStartRef := dragStartRef s |}.

Definition setIsSelected (v : bool) (s : State) : State :=
  {| position := position s; isDragging := isDragging s; isHovered := isHovered s;
     isSelected := v; dragStartRef := dragStartRef s |}.

Definition set_dragStartRef (v : option DOM.Num.Point) (s : State) : State :=
  {| position := position s; isDragging := isDragging s; isHovered := isHovered s;
     isSelected := isSelected s; dragStartRef := v |}.

(** [handleMouseMove]; [handleTouchMove] is the same function of
    [e.touches[0]]. *)
Definition handleMouseMove (zoom : Binary64.double) (e : DOM.Num.Pointer)
  (s : State) : State :=
  if negb (isDragging s) then s
  else
    match dragStartRef s with
    | None => s
    | Some start =>
        let dx := Binary64.div
                    (Binary64.sub (DOM.Num.clientX e) (DOM.Num.x start)) zoom in
        let dy := Binary64.div
                    (Binary64.sub (DOM.Num.clientY e) (DOM.Num.y start)) zoom in
        set_dragStartRef (Some (DOM.Num.at_pointer e))
          (setPosition
             {| DOM.Num.x := Binary64.add (DOM.Num.x (position s)) dx;
                DOM.Num.y := Binary64.add (DOM.Num.y (position s)) dy |} s)
    end.

Definition handleTouchMove (zoom : Binary64.double) (touch : DOM.Num.Pointer)
  (s : State) : State :=
  handleMouseMove zoom touch s.

Definition handleEnd (s : State) : State :=
  set_dragStartRef None (setIsDragging false s).

(** The [mousedown] and [touchstart] listener on [window]. *)
Definition handleClickOutside (e : DOM.PointerDown) (s : State) : State :=
  if DOM.ref_attached e && negb (DOM.ref_contains_target e) then
    if negb (DOM.closest_control_btn e) then setIsSelected false s else s
  else s.

(** [mousedown] on the Move handle; [handleTouchStart] is the same
    function of [e.touches[0]]. *)
Definition handleMouseDown (e : DOM.Num.Pointer) (s : State) : State :=
  set_dragStartRef (Some (DOM.Num.at_pointer e)) (setIsDragging true s).

Definition handleTouchStart (touch : DOM.Num.Pointer) (s : State) : State :=
  handleMouseDown touch s.

Definition handleContainerClick (s : State) : State := setIsSelected true s.

Definition showControls (s : State) : bool :=
  isHovered s || isDragging s || isSelected s.

(** A run of pointer moves at a fixed zoom, oldest first. *)
Definition moves (zoom : Binary64.double) (es : list DOM.Num.Pointer)
  (s : State) : State :=
  List.fold_left (fun st e => handleMouseMove zoom e st) es s.

End DraggableText.

(* ================================================================= *)
(** * TajmirTemplate: the element collections *)

Module TextBlock.
Record t : Type := mk { id : Z; x : Q; y : Q }.
End TextBlock.

Module ImageBlock.
Record t : Type := mk { id : Z; src : string; x : Q; y : Q }.
End ImageBlock.

Module TajmirTemplate.

(** The actions [App] sends: [{type: 'ADD_TEXT', payload: Date.now()}],
    [{type: 'ADD_IMAGE', payload: <data URL>}]; any other type is
    ignored by the effect. *)
Inductive Action : Type :=
| ADD_TEXT (payload : Z)
| ADD_IMAGE (payload : string)
| OTHER (type : string).

Record State : Type := mkState {
  textBlocks : list TextBlock.t;
  imageBlocks : list ImageBlock.t
}.

Definition initialState : State := {| textBlocks := []; imageBlocks := [] |}.

Definition setTextBlocks (f : list TextBlock.t -> list TextBlock.t) (s : State) : State :=
  {| textBlocks := f (textBlocks s); imageBlocks := imageBlocks s |}.

Definition setImageBlocks (f : list ImageBlock.t -> list ImageBlock.t) (s : State) : State :=
  {| textBlocks := textBlocks s; imageBlocks := f (imageBlocks s) |}.

(** A payload is truthy unless it is the empty string. *)
Definition truthy (payload : string) : bool :=
  negb (String.eqb payload EmptyString).

(** The action effect.  [now] is what [Date.now()] returns when the
    effect runs. *)
Definition actionEffect (now : Z) (action : option Action) (s : State) : State :=
  match action with
  | None => s
  | Some (ADD_TEXT _) =>
      let newId := now in
      setTextBlocks
        (fun prev => prev ++ [{| TextBlock.id := newId; TextBlock.x := 50; TextBlock.y := 200 |}]) s
  | Some (ADD_IMAGE payload) =>
      if truthy payload then
        let newId := now in
        setImageBlocks
          (fun prev => prev ++ [{| ImageBlock.id := newId; ImageBlock.src := payload;
                                   ImageBlock.x := 50; ImageBlock.y := 200 |}]) s
      else s
  | Some (OTHER _) => s
  end.

Definition removeTextBlock (id : Z) (s : State) : State :=
  setTextBlocks (List.filter (fun b => negb (TextBlock.id b =? id)%Z)) s.

Definition removeImageBlock (id : Z) (s : State) : State :=
  setImageBlocks (List.filter (fun b => negb (ImageBlock.id b =? id)%Z)) s.

(** The props a block is rendered with. *)
Definition text_props (zoom : Binary64.double) (block : TextBlock.t)
  : DraggableText.Props :=
  {| DraggableText.id := TextBlock.id block;
     DraggableText.initialX := Binary64.of_Q (TextBlock.x block);
     DraggableText.initialY := Binary64.of_Q (TextBlock.y block);
     DraggableText.zoom := zoom |}.

Definition image_props (zoom : Q) (block : ImageBlock.t) : DraggableImage.Props :=
  {| DraggableImage.id := ImageBlock.id block;
     DraggableImage.src := ImageBlock.src block;
     DraggableImage.initialX := ImageBlock.x block;
     DraggableImage.initialY := ImageBlock.y block;
     DraggableImage.zoom := zoom |}.

(** A command with the clock reading at the moment its effect runs. *)
Inductive Command : Type :=
| Dispatch (now : Z) (action : Action)
| RemoveText (id : Z)
| RemoveImage (id : Z).

Definition step (s : State) (c : Command) : State :=
  match c with
  | Dispatch now action => actionEffect now (Some action) s
  | RemoveText id => removeTextBlock id s
  | RemoveImage id => removeImageBlock id s
  end.

Definition run (cs : list Command) (s : State) : State :=
  List.fold_left step cs s.

Definition text_ids (s : State) : list Z := List.map TextBlock.id (textBlocks s).
Definition image_ids (s : State) : list Z := List.map ImageBlock.id (imageBlocks s).

(** The ids of all elements, images first, as rendered. *)
Definition ids (s : State) : list Z := image_ids s ++ text_ids s.

(** The clock readings of a run of commands, in order. *)
Definition readings (cs : list Command) : list Z :=
  List.flat_map
    (fun c => match c with
              | Dispatch now _ => [now]
              | _ => []
              end) cs.

(** Whether the effect creates an element for an action. *)
Definition creates (a : Action) : bool :=
  match a with
  | ADD_TEXT _ => true
  | ADD_IMAGE payload => truthy payload
  | OTHER _ => false
  end.

(** The clock readings at which a run creates a text element, and
    those at which it creates an image element, in order. *)
Definition text_readings (cs : list Command) : list Z :=
  List.flat_map
    (fun c => match c with
              | Dispatch now (ADD_TEXT _) => [now]
              | _ => []
              end) cs.

Definition image_readings (cs : list Command) : list Z :=
  List.flat_map
    (fun c => match c with
              | Dispatch now (ADD_IMAGE payload) =>
                  if truthy payload then [now] else []
              | _ => []
              end) cs.

Definition is_dispatch (c : Command) : bool :=
  match c with
  | Dispatch _ _ => true
  | _ => false
  end.

(** The invariant of the collections: each listed in increasing id
    order, no id in both, every id before each clock reading of
    [later]. *)
Definition ordered (later : list Z) (s : State) : Prop :=
  StronglySorted Z.lt (text_ids s) /\
  StronglySorted Z.lt (image_ids s) /\
  (forall i, In i (text_ids s) -> ~ In i (image_ids s)) /\
  (forall i n, In i (ids s) -> In n later -> (i < n)%Z).

End TajmirTemplate.

(* ================================================================= *)
(** * Persistence in localStorage *)

Module LocalStorage.

(** The result of a call that may throw. *)
Inductive Exc (A : Type) : Type :=
| Return (a : A)
| Threw (e : Async.Err).

Arguments Return {A} _.
Arguments Threw {A} _.

(** The string kept under one of the two collection keys, by what the
    load effect's truthiness test and [JSON.parse] make of it: the
    empty string; the serialisation of a list of blocks; non-empty
    text that parses to a value that is not an array ([null], a number,
    a string, an object); non-empty text that [JSON.parse] rejects.
    (An array whose elements are not blocks is outside this model.) *)
Inductive Stored (A : Type) : Type :=
| EmptyText
| Serialized (v : A)
| OtherValue
| Malformed.

Arguments EmptyText {A}.
Arguments Serialized {A} _.
Arguments OtherValue {A}.
Arguments Malformed {A}.

(** A parsed value: an array of blocks, or something else. *)
Inductive Parsed (A : Type) : Type :=
| Array (v : A)
| NotArray.

Arguments Array {A} _.
Arguments NotArray {A}.

Definition JSON_stringify {A : Type} (v : A) : Stored A := Serialized v.

Definition JSON_parse {A : Type} (text : Stored A) : Exc (Parsed A) :=
  match text with
  | Serialized v => Return (Array v)
  | OtherValue => Return NotArray
  | EmptyText => Threw (Async.Error "SyntaxError")
  | Malformed => Threw (Async.Error "SyntaxError")
  end.

(** A string is truthy unless it is empty. *)
Definition truthy {A : Type} (text : Stored A) : bool :=
  match text with
  | EmptyText => false
  | _ => true
  end.

(** The store: the editable regions' markup by key, the two
    collections, and for every key the exception, if any, that reading
    or writing it throws (access denied, quota exceeded). *)
Record t : Type := mk {
  markup : list (string * string);
  draggables_text : option (Stored (list TextBlock.t));
  draggables_img : option (Stored (list ImageBlock.t));
  read_fault : string -> option Async.Err;
  write_fault : string -> option Async.Err
}.

Definition key_text : string := "tajmir_doc_draggables_text".
Definition key_img : string := "tajmir_doc_draggables_img".

Fixpoint lookup (key : string) (l : list (string * string)) : option string :=
  match l with
  | [] => None
  | (k, v) :: rest => if String.eqb k key then Some v else lookup key rest
  end.

Definition guarded {A : Type} (fault : option Async.Err) (a : A) : Exc A :=
  match fault with
  | Some e => Threw e
  | None => Return a
  end.

(** [localStorage.getItem(key)] *)
Definition getItem (ls : t) (key : string) : Exc (option string) :=
  guarded (read_fault ls key) (lookup key (markup ls)).

Definition getItem_text (ls : t) : Exc (option (Stored (list TextBlock.t))) :=
  guarded (read_fault ls key_text) (draggables_text ls).

Definition getItem_img (ls : t) : Exc (option (Stored (list ImageBlock.t))) :=
  guarded (read_fault ls key_img) (draggables_img ls).

(** [localStorage.setItem(key, value)] *)
Definition setItem (ls : t) (key value : string) : Exc t :=
  guarded (write_fault ls key)
    {| markup := (key, value) :: markup ls;
       draggables_text := draggables_text ls;
       draggables_img := draggables_img ls;
       read_fault := read_fault ls;
       write_fault := write_fault ls |}.

Definition setItem_text (ls : t) (value : Stored (list TextBlock.t)) : Exc t :=
  guarded (write_fault ls key_text)
    {| markup := markup ls;
       draggables_text := Some value;
       draggables_img := draggables_img ls;
       read_fault := read_fault ls;
       write_fault := write_fault ls |}.

Definition setItem_img (ls : t) (value : Stored (list ImageBlock.t)) : Exc t :=
  guarded (write_fault ls key_img)
    {| markup := markup ls;
       draggables_text := draggables_text ls;
       draggables_img := Some value;
       read_fault := read_fault ls;
       write_fault := write_fault ls |}.

End LocalStorage.

Module Persistence.
Import LocalStorage.

(** What the effects of [TajmirTemplate] act on: the two collections,
    the markup of the editable regions by storage key, and the
    console.  The setters take whatever value they are given: a state
    cell holds the list in [blocks] unless its flag is down, in which
    case it holds a value that is not an array. *)
Record Component : Type := mkComponent {
  blocks : TajmirTemplate.State;
  text_is_array : bool;
  image_is_array : bool;
  innerHTML : list (string * string);
  console : list (string * Async.Err)
}.

Definition mounted : Component :=
  {| blocks := TajmirTemplate.initialState;
     text_is_array := true; image_is_array := true;
     innerHTML := []; console := [] |}.

(** Statements that update the component and may throw. *)
Definition M (A : Type) : Type := Component -> Component * Exc A.

Definition ret {A : Type} (a : A) : M A := fun c => (c, Return a).

Definition bind {A B : Type} (m : M A) (k : A -> M B) : M B :=
  fun c =>
    match m c with
    | (c1, Return a) => k a c1
    | (c1, Threw e) => (c1, Threw e)
    end.

Definition lift {A : Type} (r : Exc A) : M A := fun c => (c, r).

Definition modify (f : Component -> Component) : M unit :=
  fun c => (f c, Return tt).

Definition try_catch (m : M unit) (h : Async.Err -> M unit) : M unit :=
  fun c =>
    match m c with
    | (c1, Return a) => (c1, Return a)
    | (c1, Threw e) => h e c1
    end.

Declare Scope stmt_scope.
Delimit Scope stmt_scope with stmt.
Notation "x <- m ;; k" := (bind m (fun x => k))
  (at level 61, m at next level, right associativity) : stmt_scope.
Notation "m ;; k" := (bind m (fun _ => k))
  (at level 61, right associativity) : stmt_scope.
Local Open Scope stmt_scope.

Definition set_innerHTML (key saved : string) (c : Component) : Component :=
  {| blocks := blocks c;
     text_is_array := text_is_array c; image_is_array := image_is_array c;
     innerHTML := (key, saved) :: innerHTML c;
     console := console c |}.

Definition setTextBlocks (v : Parsed (list TextBlock.t)) (c : Component) : Component :=
  match v with
  | Array l =>
      {| blocks := TajmirTemplate.setTextBlocks (fun _ => l) (blocks c);
         text_is_array := true; image_is_array := image_is_array c;
         innerHTML := innerHTML c; console := console c |}
  | NotArray =>
      {| blocks := TajmirTemplate.setTextBlocks (fun _ => []) (blocks c);
         text_is_array := false; image_is_array := image_is_array c;
         innerHTML := innerHTML c; console := console c |}
  end.

Definition setImageBlocks (v : Parsed (list ImageBlock.t)) (c : Component) : Component :=
  match v with
  | Array l =>
      {| blocks := TajmirTemplate.setImageBlocks (fun _ => l) (blocks c);
         text_is_array := text_is_array c; image_is_array := true;
         innerHTML := innerHTML c; console := console c |}
  | NotArray =>
      {| blocks := TajmirTemplate.setImageBlocks (fun _ => []) (blocks c);
         text_is_array := text_is_array c; image_is_array := false;
         innerHTML := innerHTML c; console := console c |}
  end.

Definition console_error (msg : string) (e : Async.Err) (c : Component) : Component :=
  {| blocks := blocks c;
     text_is_array := text_is_array c; image_is_array := image_is_array c;
     innerHTML := innerHTML c;
     console := console c ++ [(msg, e)] |}.

(** Rendering: [imageBlocks.map(...)] and [textBlocks.map(...)] throw
    a TypeError on a value that is not an array. *)
Definition render (c : Component) : Exc unit :=
  if image_is_array c && text_is_array c
  then Return tt
  else Threw (Async.Error "TypeError").

(** [loadContent(key, ref)], the ref being attached. *)
Definition loadContent (ls : LocalStorage.t) (key : string) : M unit :=
  saved <- lift (getItem ls key) ;;
  match saved with
  | Some html =>
      if negb (String.eqb html EmptyString)
      then modify (set_innerHTML key html)
      else ret tt
  | None => ret tt
  end.

(** The [try { ... } catch (e) { console.error(...) }] of the load
    effect. *)
Definition loadDraggables (ls : LocalStorage.t) : M unit :=
  try_catch
    (savedTextBlocks <- lift (getItem_text ls) ;;
     match savedTextBlocks with
     | Some text =>
         if truthy text
         then (v <- lift (JSON_parse text) ;; modify (setTextBlocks v))
         else ret tt
     | None => ret tt
     end ;;
     savedImageBlocks <- lift (getItem_img ls) ;;
     match savedImageBlocks with
     | Some text =>
         if truthy text
         then (v <- lift (JSON_parse text) ;; modify (setImageBlocks v))
         else ret tt
     | None => ret tt
     end)
    (fun e => modify (console_error "Error loading blocks" e)).

(** The load effect, run once on mount. *)
Definition loadEffect (ls : LocalStorage.t) : M unit :=
  loadContent ls "tajmir_doc_main_body" ;;
  loadContent ls "tajmir_doc_header_h1" ;;
  loadContent ls "tajmir_doc_header_h2" ;;
  loadContent ls "tajmir_doc_header_sub" ;;
  loadContent ls "tajmir_doc_footer_title" ;;
  loadContent ls "tajmir_doc_footer_addr1" ;;
  loadContent ls "tajmir_doc_footer_addr2" ;;
  loadContent ls "tajmir_doc_footer_phone" ;;
  loadDraggables ls.

(** The two save effects, run after their collection changed, and
    [handleInput]. *)
Definition saveTextEffect (ls : LocalStorage.t) (s : TajmirTemplate.State)
  : Exc LocalStorage.t :=
  setItem_text ls (JSON_stringify (TajmirTemplate.textBlocks s)).

Definition saveImageEffect (ls : LocalStorage.t) (s : TajmirTemplate.State)
  : Exc LocalStorage.t :=
  setItem_img ls (JSON_stringify (TajmirTemplate.imageBlocks s)).

Definition handleInput (ls : LocalStorage.t) (key html : string)
  : Exc LocalStorage.t :=
  setItem ls key html.

(** What loading one collection record comes to: the state cell is
    left as it was (no record, or the empty string), it takes the
    parsed value, or the load fails with an exception (the read
    throws, or [JSON.parse] does). *)
Inductive Loaded (A : Type) : Type :=
| Kept
| Took (v : Parsed A)
| Failed (e : Async.Err).

Arguments Kept {A}.
Arguments Took {A} _.
Arguments Failed {A} _.

Definition load_outcome {A : Type} (fault : option Async.Err)
  (record : option (Stored A)) : Loaded A :=
  match fault with
  | Some e => Failed e
  | None =>
      match record with
      | None => Kept
      | Some EmptyText => Kept
      | Some (Serialized v) => Took (Array v)
      | Some OtherValue => Took NotArray
      | Some Malformed => Failed (Async.Error "SyntaxError")
      end
  end.

Definition take_text (o : Loaded (list TextBlock.t)) (c : Component) : Component :=
  match o with
  | Took v => setTextBlocks v c
  | _ => c
  end.

Definition take_image (o : Loaded (list ImageBlock.t)) (c : Component) : Component :=
  match o with
  | Took v => setImageBlocks v c
  | _ => c
  end.

(** The component after the guarded block, told by the outcomes of the
    two loads: the text collection first; the image collection only
    if the text load did not fail; the first failure logged. *)
Definition after_loads (text : Loaded (list TextBlock.t))
  (img : Loaded (list ImageBlock.t)) (c : Component) : Component :=
  match text with
  | Failed e => console_error "Error loading blocks" e c
  | _ =>
      match img with
      | Failed e => console_error "Error loading blocks" e (take_text text c)
      | _ => take_image img (take_text text c)
      end
  end.

(** The exception the guarded block catches, if any. *)
Definition caught (text : Loaded (list TextBlock.t))
  (img : Loaded (list ImageBlock.t)) : list (string * Async.Err) :=
  match text, img with
  | Failed e, _ => [("Error loading blocks"%string, e)]
  | _, Failed e => [("Error loading blocks"%string, e)]
  | _, _ => []
  end.

(** Whether a value that is not an array reaches a state cell. *)
Definition takes_other_value (text : Loaded (list TextBlock.t))
  (img : Loaded (list ImageBlock.t)) : bool :=
  match text, img with
  | Failed _, _ => false
  | Took NotArray, _ => true
  | _, Took NotArray => true
  | _, _ => false
  end.

(** Stores for the examples: one that works and is empty, one whose
    quota is exhausted, one to which access is denied, one whose text
    record is cut short (as in "[{") before a good image record, one
    whose image record is cut short after a good text record, and one
    whose text record is "null". *)
Definition empty_store : LocalStorage.t :=
  {| markup := []; draggables_text := None; draggables_img := None;
     read_fault := fun _ => None; write_fault := fun _ => None |}.

Definition full_store : LocalStorage.t :=
  {| markup := []; draggables_text := None; draggables_img := None;
     read_fault := fun _ => None;
     write_fault := fun _ => Some (Async.Error "QuotaExceededError") |}.

Definition denied_store : LocalStorage.t :=
  {| markup := []; draggables_text := None; draggables_img := None;
     read_fault := fun _ => Some (Async.Error "SecurityError");
     write_fault := fun _ => Some (Async.Error "SecurityError") |}.

Definition corrupt_store : LocalStorage.t :=
  {| markup := [];
     draggables_text := Some Malformed;
     draggables_img :=
       Some (Serialized [{| ImageBlock.id := 2; ImageBlock.src := "data:a"%string;
                            ImageBlock.x := 50; ImageBlock.y := 200 |}]);
     read_fault := fun _ => None; write_fault := fun _ => None |}.

Definition corrupt_images_store : LocalStorage.t :=
  {| markup := [("tajmir_doc_header_h1", "ACME")]%string;
     draggables_text :=
       Some (Serialized [{| TextBlock.id := 1; TextBlock.x := 50; TextBlock.y := 200 |}]);
     draggables_img := Some Malformed;
     read_fault := fun _ => None; write_fault := fun _ => None |}.

Definition null_store : LocalStorage.t :=
  {| markup := [];
     draggables_text := Some OtherValue;
     draggables_img := None;
     read_fault := fun _ => None; write_fault := fun _ => None |}.

End Persistence.

(** Test images. *)
Module TestImages.

Definition white : PixelSpec.Pixel :=
  {| PixelSpec.red := 255; PixelSpec.green := 255;
     PixelSpec.blue := 255; PixelSpec.alpha := 255 |}.

Definition mid_gray : PixelSpec.Pixel :=
  {| PixelSpec.red := 127; PixelSpec.green := 127;
     PixelSpec.blue := 127; PixelSpec.alpha := 255 |}.

(** A loaded image of the given size and pixels. *)
Definition loaded (w h : Z) (pixels : list PixelSpec.Pixel) : Canvas.HTMLImageElement :=
  {| Canvas.complete := true;
     Canvas.naturalWidth := w;
     Canvas.naturalHeight := h;
     Canvas.decoded := PixelSpec.bytes pixels |}.

Definition white_2x2 : list PixelSpec.Pixel := [white; white; white; white].
Definition gray_and_white : list PixelSpec.Pixel := [mid_gray; white].

End TestImages.

(** Test elements and events. *)
Module TestElements.

Definition image_props : DraggableImage.Props :=
  {| DraggableImage.id := 1; DraggableImage.src := "data:image";
     DraggableImage.initialX := 50; DraggableImage.initialY := 200;
     DraggableImage.zoom := 1 |}.

(** A selected image whose background-removal panel is open. *)
Definition selected_with_panel : DraggableImage.State :=
  DraggableImage.clickMagic
    (DraggableImage.handleContainerClick
       (DraggableImage.initialState image_props)).

(** A pointer-down on the page, outside the element and outside every
    control button and tool panel. *)
Definition outside : DOM.PointerDown :=
  {| DOM.ref_attached := true; DOM.ref_contains_target := false;
     DOM.closest_control_btn := false; DOM.closest_tool_panel := false |}.

End TestElements.

(* ================================================================= *)
(** * Scenario: two invocations in one turn *)

Module Scenario.
Import Async.

(** The export handler is invoked twice before control returns to the
    event loop (both invocations are the handler of the same render);
    then the two timers fire in order, then the two rasterisations
    resolve in order. *)
Definition export_twice_same_turn (env : Env App.AppState)
  (zoom : Q) (pageRef : option App.HTMLDivElement)
  (w : World App.AppState App.ExtCall)
  : World App.AppState App.ExtCall * (Status App.AppState App.ExtCall * Status App.AppState App.ExtCall) :=
  let h := App.handleExportPDF zoom pageRef in
  let (w1, first) := run_turn env h w in
  let (w2, second) := run_turn env h w1 in
  let (w3, first) := resume env first Fulfilled w2 in
  let (w4, second) := resume env second Fulfilled w3 in
  let (w5, first) := resume env first Fulfilled w4 in
  let (w6, second) := resume env second Fulfilled w5 in
  (w6, (first, second)).

(** An environment in which every call succeeds and nothing else
    touches the state. *)
Definition calm : Env App.AppState :=
  {| answer := fun _ => Fulfilled; interfere := fun _ s => s |}.

(** An environment in which the rasterisation (the second call of a
    pipeline started from an empty log) rejects. *)
Definition capture_fails : Env App.AppState :=
  {| answer := fun n =>
       match n with
       | 1%nat => Rejected (Error "html2canvas failed")
       | _ => Fulfilled
       end;
     interfere := fun _ s => s |}.

Definition idle_at (z : Q) : World App.AppState App.ExtCall :=
  {| state := {| App.zoom := z; App.toastMsg := None;
                 App.isProcessing := false; App.console := [] |};
     calls := [] |}.

End Scenario.

(* ================================================================= *)
(** * Zoom controls *)

Module Zoom.
Local Open Scope Q_scope.

(** [setZoom(prev => Math.min(prev + 0.1, 3.0))] *)
Definition handleZoomIn (s : App.AppState) : App.AppState :=
  App.setZoom (Qmin (App.zoom s + (1 # 10)) 3) s.

(** [setZoom(prev => Math.max(prev - 0.1, 0.2))] *)
Definition handleZoomOut (s : App.AppState) : App.AppState :=
  App.setZoom (Qmax (App.zoom s - (1 # 10)) (2 # 10)) s.

Definition handleZoomReset (s : App.AppState) : App.AppState :=
  App.setZoom 1 s.

(** [handleZoomFit]; [innerWidth] is [window.innerWidth]. *)
Definition handleZoomFit (innerWidth : Q) (s : App.AppState) : App.AppState :=
  let containerWidth := innerWidth in
  let fitScale := (containerWidth - 32) / 794 in
  App.setZoom (Qmin (Qmax fitScale (2 # 10)) 2) s.

(** The mount effect: fit on screens narrower than 1024 pixels. *)
Definition autoFit (innerWidth : Q) (s : App.AppState) : App.AppState :=
  if Qlt_le_dec innerWidth 1024 then handleZoomFit innerWidth s else s.

Definition in_range (z : Q) : Prop := 2 # 10 <= z /\ z <= 3.

End Zoom.

(* ================================================================= *)
(** * LetterheadWorkspace: pinch and wheel zoom *)

Module LetterheadWorkspace.
Local Open Scope Q_scope.

(** A touch event on the container: the number of touches and, for two
    touches, the value [getDistance(e)] computes from them. *)
Record TouchEvent : Type := mkTouchEvent {
  touches : nat;
  distance : Q
}.

Record WheelEvent : Type := mkWheelEvent {
  ctrlKey : bool;
  metaKey : bool;
  deltaY : Q
}.

(** What one run of the effect closes over: the [zoom] prop of its
    render and the two [let] variables. *)
Record Closure : Type := mkClosure {
  zoom : Q;
  initialDistance : option Q;
  initialZoom : Q
}.

(** The effect body, run on mount and whenever [zoom] changed. *)
Definition effect (zoom : Q) : Closure :=
  {| zoom := zoom; initialDistance := None; initialZoom := zoom |}.

Definition handleTouchStart (e : TouchEvent) (c : Closure) : Closure :=
  if Nat.eqb (touches e) 2 then
    {| zoom := zoom c; initialDistance := Some (distance e);
       initialZoom := zoom c |}
  else c.

(** [handleTouchMove] and [handleWheel] give the argument of the
    [onSetZoom] call they make, if they make one. *)
Definition handleTouchMove (e : TouchEvent) (c : Closure) : option Q :=
  if Nat.eqb (touches e) 2 then
    match initialDistance c with
    | Some initial =>
        let currentDistance := distance e in
        let scaleFactor := currentDistance / initial in
        Some (Qmin (Qmax (initialZoom c * scaleFactor) (2 # 10)) 3)
    | None => None
    end
  else None.

Definition handleTouchEnd (c : Closure) : Closure :=
  {| zoom := zoom c; initialDistance := None; initialZoom := initialZoom c |}.

Definition handleWheel (e : WheelEvent) (c : Closure) : option Q :=
  if ctrlKey e || metaKey e then
    let delta := deltaY e * - (1 # 1000) in
    Some (Qmin (Qmax (zoom c + delta) (2 # 10)) 3)
  else None.

End LetterheadWorkspace.

(* ================================================================= *)
(** * The zoom value under every event that writes it *)

Module Editor.

Record State : Type := mkState {
  app : App.AppState;
  workspace : LetterheadWorkspace.Closure
}.

Definition initial : State :=
  {| app := {| App.zoom := 1; App.toastMsg := None;
               App.isProcessing := false; App.console := [] |};
     workspace := LetterheadWorkspace.effect 1 |}.

Inductive Event : Type :=
| ZoomIn
| ZoomOut
| ZoomReset
| ZoomFit (innerWidth : Q)
| AutoFit (innerWidth : Q)
| TouchStart (e : LetterheadWorkspace.TouchEvent)
| TouchMove (e : LetterheadWorkspace.TouchEvent)
| TouchEnd
| Wheel (e : LetterheadWorkspace.WheelEvent)
| Render
| ExportPDF (env : Async.Env App.AppState) (pageRef : option App.HTMLDivElement)
| CopyImage (env : Async.Env App.AppState) (pageRef : option App.HTMLDivElement).

Definition on_app (f : App.AppState -> App.AppState) (s : State) : State :=
  {| app := f (app s); workspace := workspace s |}.

Definition on_workspace
  (f : LetterheadWorkspace.Closure -> LetterheadWorkspace.Closure) (s : State) : State :=
  {| app := app s; workspace := f (workspace s) |}.

(** [onSetZoom] is [setZoom]. *)
Definition onSetZoom (z : option Q) (s : State) : State :=
  match z with
  | Some z => on_app (App.setZoom z) s
  | None => s
  end.

(** A pipeline run to its end from an empty call log. *)
Definition run_pipeline (env : Async.Env App.AppState) (h : App.Handler)
  (a : App.AppState) : App.AppState :=
  Async.state (fst (Async.exec env h {| Async.state := a; Async.calls := [] |})).

Definition step (s : State) (ev : Event) : State :=
  match ev with
  | ZoomIn => on_app Zoom.handleZoomIn s
  | ZoomOut => on_app Zoom.handleZoomOut s
  | ZoomReset => on_app Zoom.handleZoomReset s
  | ZoomFit w => on_app (Zoom.handleZoomFit w) s
  | AutoFit w => on_app (Zoom.autoFit w) s
  | TouchStart e => on_workspace (LetterheadWorkspace.handleTouchStart e) s
  | TouchMove e => onSetZoom (LetterheadWorkspace.handleTouchMove e (workspace s)) s
  | TouchEnd => on_workspace LetterheadWorkspace.handleTouchEnd s
  | Wheel e => onSetZoom (LetterheadWorkspace.handleWheel e (workspace s)) s
  | Render =>
      (* the effect depends on [zoom]: it re-runs when the value changed *)
      if Qeq_bool (App.zoom (app s)) (LetterheadWorkspace.zoom (workspace s))
      then s
      else on_workspace (fun _ => LetterheadWorkspace.effect (App.zoom (app s))) s
  | ExportPDF env pageRef =>
      on_app (fun a => run_pipeline env (App.handleExportPDF (App.zoom a) pageRef) a) s
  | CopyImage env pageRef =>
      on_app (fun a => run_pipeline env (App.handleCopyImage (App.zoom a) pageRef) a) s
  end.

Definition run (evs : list Event) (s : State) : State :=
  List.fold_left step evs s.

(** A two-finger touch starts with the fingers apart: with distance 0
    the scale factor of the next move is a division by zero. *)
Definition well_formed (ev : Event) : Prop :=
  match ev with
  | TouchStart e =>
      LetterheadWorkspace.touches e = 2%nat -> (0 < LetterheadWorkspace.distance e)%Q
  | _ => True
  end.

(** The invariant of the editor: the zoom is in range and a recorded
    pinch distance is positive. *)
Definition zoom_invariant (s : State) : Prop :=
  Zoom.in_range (App.zoom (app s)) /\
  forall d, LetterheadWorkspace.initialDistance (workspace s) = Some d ->
            (0 < d)%Q.

End Editor.

(* ================================================================= *)
(** * New document *)

Module NewPage.
Import LocalStorage.

Definition doc_prefix : string := "tajmir_doc_".

(** [Object.keys(localStorage).forEach(key => { if
    (key.startsWith('tajmir_doc_')) localStorage.removeItem(key) })] *)
Definition clearDocument (ls : LocalStorage.t) : LocalStorage.t :=
  {| markup :=
       List.filter (fun kv => negb (String.prefix doc_prefix (fst kv))) (markup ls);
     draggables_text :=
       if String.prefix doc_prefix key_text then None else draggables_text ls;
     draggables_img :=
       if String.prefix doc_prefix key_img then None else draggables_img ls;
     read_fault := read_fault ls;
     write_fault := write_fault ls |}.

(** [handleNewPage]: the store after it, and whether the page is
    reloaded.  [confirmed] is the answer to the [confirm] dialog. *)
Definition handleNewPage (confirmed : bool) (ls : LocalStorage.t)
  : LocalStorage.t * bool :=
  if confirmed then (clearDocument ls, true) else (ls, false).

(** The storage keys of the editable regions, in load order. *)
Definition region_keys : list string :=
  ["tajmir_doc_main_body"; "tajmir_doc_header_h1"; "tajmir_doc_header_h2";
   "tajmir_doc_header_sub"; "tajmir_doc_footer_title"; "tajmir_doc_footer_addr1";
   "tajmir_doc_footer_addr2"; "tajmir_doc_footer_phone"]%string.

End NewPage.

(* ================================================================= *)
(** * Observing a pipeline *)

Module Pipeline.
Import Async.

(** Run a handler up to the first call that [stop] selects: the world
    in which that call is about to be made, and the call.  The calls
    before it are settled by the environment as in [exec], other
    handlers writing the state at each suspension. *)
Fixpoint run_until (stop : App.ExtCall -> bool) (env : Env App.AppState)
  (p : App.Handler) (w : World App.AppState App.ExtCall)
  : World App.AppState App.ExtCall * option App.ExtCall :=
  match p with
  | Ret => (w, None)
  | Throw _ => (w, None)
  | Upd f k => run_until stop env k (set_state f w)
  | Call c k =>
      if stop c then (w, Some c)
      else run_until stop env (k (answer env (List.length (calls w))))
             (record_call c w)
  | Await c k =>
      if stop c then (w, Some c)
      else
        let n := List.length (calls w) in
        run_until stop env (k (answer env n))
          (set_state (interfere env n) (record_call c w))
  end.

(** No other handler writes the state while a pipeline is suspended. *)
Definition undisturbed (env : Env App.AppState) : Prop :=
  forall n s, interfere env n s = s.

(** The outcomes the environment gives to [count] calls from the
    [n]-th on. *)
Definition answers (env : Env App.AppState) (n count : nat) : list Outcome :=
  List.map (answer env) (List.seq n count).

(** The first rejection in a list of outcomes: its position and its
    error. *)
Fixpoint first_rejection (outcomes : list Outcome) : option (nat * Err) :=
  match outcomes with
  | [] => None
  | Rejected e :: _ => Some (O, e)
  | Fulfilled :: rest =>
      match first_rejection rest with
      | Some (k, e) => Some (S k, e)
      | None => None
      end
  end.

(** The external calls of the two pipelines, in program order. *)
Definition pdf_calls : list App.ExtCall :=
  [App.Delay 300; App.Html2canvas 4; App.ToDataURL; App.NewJsPDF;
   App.PageSize; App.AddImage; App.Save].

Definition copy_calls : list App.ExtCall :=
  [App.Delay 300; App.Html2canvas 3; App.ToBlob].

(** An environment in which the zoom-in button is pressed while the
    pipeline waits for its first call (the settle delay) to finish. *)
Definition zoom_pressed_during_delay : Env App.AppState :=
  {| answer := fun _ => Fulfilled;
     interfere := fun n s =>
       match n with
       | O => App.setZoom 2 s
       | _ => s
       end |}.

End Pipeline.

(* ================================================================= *)
(** * Theorems *)

Section AsyncFacts.
Import Async.
Variables (S C : Type).
Implicit Types (p q : Proc S C) (w : World S C) (env : Env S).

Lemma exec_seq env p q w :
  exec env (seq p q) w =
  match exec env p w with
  | (w1, Completed) => exec env q w1
  | (w1, Uncaught e) => (w1, Uncaught e)
  end.
Proof.
  revert w; induction p as [|e|f k IH|c k IH|c k IH]; intro w; simpl; auto.
Qed.

Lemma exec_catch env p (h : Err -> Proc S C) w :
  exec env (catch p h) w =
  match exec env p w with
  | (w1, Completed) => (w1, Completed)
  | (w1, Uncaught e) => exec env (h e) w1
  end.
Proof.
  revert w; induction p as [|e|f k IH|c k IH|c k IH]; intro w; simpl; auto.
Qed.

(** Guaranteed cleanup: whatever way [p] ends, [fin] runs from the
    world [p] ended in. *)
Lemma exec_finally env p fin w :
  exec env (finally p fin) w =
  let (w1, c1) := exec env p w in
  let (w2, c2) := exec env fin w1 in
  (w2, match c2 with
       | Completed => c1
       | Uncaught e2 => Uncaught e2
       end).
Proof.
  revert w; induction p as [|e|f k IH|c k IH|c k IH]; intro w; simpl; auto.
  - destruct (exec env fin w) as [w2 [|e2]]; reflexivity.
  - rewrite exec_seq. destruct (exec env fin w) as [w2 [|e2]]; reflexivity.
Qed.

End AsyncFacts.

(* ----------------------------------------------------------------- *)
(** ** The capture pipelines *)

Section PipelineFacts.
Import Async.
Local Open Scope proc_scope.

Implicit Types (w : World App.AppState App.ExtCall) (env : Env App.AppState).

(** A handler whose [catch] block cannot throw never ends uncaught. *)
Lemma exec_catch_completes env (p : App.Handler) (h : Err -> App.Handler) w :
  (forall e w', snd (exec env (h e) w') = Completed) ->
  snd (exec env (catch p h) w) = Completed.
Proof.
  intro Hh. rewrite exec_catch.
  destruct (exec env p w) as [w1 [|e]]; simpl; auto.
Qed.

Lemma exec_upd_seq env (f : App.AppState -> App.AppState) (q : App.Handler) w :
  exec env (upd f ;; q) w = exec env q (set_state f w).
Proof. reflexivity. Qed.

(** The cleanup block of both pipelines. *)
Lemma exec_restore env (z0 : Q) w :
  exec env (upd (App.setZoom z0) ;; upd (App.setIsProcessing false)) w =
  (set_state (App.setIsProcessing false) (set_state (App.setZoom z0) w), Completed).
Proof. reflexivity. Qed.

Lemma pipeline_cleanup env (body : App.Handler) (h : Err -> App.Handler) (z0 : Q) w :
  (forall e w', snd (exec env (h e) w') = Completed) ->
  let r := exec env
             (try_catch_finally body h
                (upd (App.setZoom z0) ;; upd (App.setIsProcessing false))) w in
  App.zoom (state (fst r)) = z0 /\
  App.isProcessing (state (fst r)) = false /\
  snd r = Completed.
Proof.
  intros Hh r. subst r. unfold try_catch_finally.
  rewrite exec_finally.
  pose proof (exec_catch_completes env body h w Hh) as Hc.
  destruct (exec env (catch body h) w) as [w1 c1]. simpl in Hc. subst c1.
  rewrite exec_restore. simpl. auto.
Qed.

End PipelineFacts.

(** C1.  Whatever the zoom [z0] at the time of the call, whatever the
    outcome of every external call (rasterisation throwing included)
    and whatever other handlers do to the state while the pipeline is
    suspended, the PDF-export and the clipboard-copy pipeline both end
    with the zoom equal to [z0], the busy flag cleared and no exception
    escaping.  When the page is not mounted they return at once and
    leave the world as it is. *)
Theorem export_restores_zoom_and_busy :
  forall (env : Async.Env App.AppState)
         (w : Async.World App.AppState App.ExtCall)
         (page : App.HTMLDivElement),
    let z0 := App.zoom (Async.state w) in
    let pdf := Async.exec env (App.handleExportPDF z0 (Some page)) w in
    let copy := Async.exec env (App.handleCopyImage z0 (Some page)) w in
    (App.zoom (Async.state (fst pdf)) = z0 /\
     App.isProcessing (Async.state (fst pdf)) = false /\
     snd pdf = Async.Completed) /\
    (App.zoom (Async.state (fst copy)) = z0 /\
     App.isProcessing (Async.state (fst copy)) = false /\
     snd copy = Async.Completed) /\
    Async.exec env (App.handleExportPDF z0 None) w = (w, Async.Completed) /\
    Async.exec env (App.handleCopyImage z0 None) w = (w, Async.Completed).
Proof.
  intros env w page z0 pdf copy.
  split; [|split; [|split; reflexivity]].
  - subst pdf. unfold App.handleExportPDF. rewrite exec_upd_seq.
    apply pipeline_cleanup. intros e w'. reflexivity.
  - subst copy. unfold App.handleCopyImage. rewrite exec_upd_seq.
    apply pipeline_cleanup. intros e w'. reflexivity.
Qed.

(** The testable property of the specification, evaluated: export at
    zoom 3/2 with the rasterisation rejecting ends at zoom 3/2, not
    busy, with the failure logged and reported. *)
Example export_capture_failure :
  let r := Async.exec Scenario.capture_fails
             (App.handleExportPDF (3 # 2) (Some App.A4Page))
             (Scenario.idle_at (3 # 2)) in
  Async.state (fst r) =
    {| App.zoom := 3 # 2;
       App.toastMsg := Some "Failed to generate PDF"%string;
       App.isProcessing := false;
       App.console := [Async.Error "html2canvas failed"] |} /\
  Async.calls (fst r) = [App.Delay 300; App.Html2canvas 4] /\
  snd r = Async.Completed.
Proof. repeat split. Qed.

(* ----------------------------------------------------------------- *)
(** ** Busy flag and repeated invocation *)

Lemma captures_record_call (c : App.ExtCall)
  (w : Async.World App.AppState App.ExtCall) :
  App.captures (Async.record_call c w) =
  (App.captures w + (if App.is_capture c then 1 else 0))%nat.
Proof.
  unfold App.captures, Async.record_call; simpl.
  rewrite filter_app, length_app; simpl.
  destruct (App.is_capture c); reflexivity.
Qed.

Lemma captures_set_state (f : App.AppState -> App.AppState)
  (w : Async.World App.AppState App.ExtCall) :
  App.captures (Async.set_state f w) = App.captures w.
Proof. reflexivity. Qed.

Ltac settle_calls env :=
  repeat match goal with
         | |- context [Async.answer env ?n] =>
             destruct (Async.answer env n); simpl
         end.



(* ----------------------------------------------------------------- *)
(** ** The background remover *)

Lemma in_range (n z : Z) : (0 <= z < n)%Z -> In z (Tables.range n).
Proof.
  intro Hz. unfold Tables.range. apply in_map_iff.
  exists (Z.to_nat z). split; [lia|].
  apply in_seq. lia.
Qed.

Lemma in_tabulate (A : Type) (h : Z -> A) (n z : Z) :
  (0 <= z < n)%Z -> In (z, h z) (Tables.tabulate h n).
Proof.
  intro Hz. unfold Tables.tabulate. apply in_map_iff.
  exists z. split; [reflexivity|]. now apply in_range.
Qed.

Section Tables.
Local Open Scope Z_scope.
Variables (A B : Type) (f : Z -> A) (g : Z -> B).
Variable P : Z -> A -> Z -> B -> bool.

Lemma forall2_spec (m n : Z) :
  Tables.forall2 f g P m n = true ->
  forall a b, 0 <= a < m -> 0 <= b < n -> P a (f a) b (g b) = true.
Proof.
  unfold Tables.forall2. intros H a b Ha Hb.
  rewrite forallb_forall in H.
  specialize (H (a, f a) (in_tabulate f Ha)).
  rewrite forallb_forall in H.
  exact (H (b, g b) (in_tabulate g Hb)).
Qed.

End Tables.

Section Binary64Facts.
Local Open Scope Z_scope.

Lemma binary64_eqb_eq (x y : Binary64.double) :
  Binary64.eqb x y = true -> x = y.
Proof.
  destruct x as [s1|s1| |s1 m1 e1], y as [s2|s2| |s2 m2 e2];
    simpl; try discriminate; try reflexivity.
  - intro H. apply Bool.eqb_prop in H. now subst.
  - intro H. apply Bool.eqb_prop in H. now subst.
  - intro H. apply andb_prop in H as [H He]. apply andb_prop in H as [Hs Hm].
    apply Bool.eqb_prop in Hs. apply Pos.eqb_eq in Hm. apply Z.eqb_eq in He.
    now subst.
Qed.

(** The literal is the correctly rounded quotient 255/100. *)
Lemma lit_2_55_nearest :
  Binary64.div (Binary64.of_Z 255) (Binary64.of_Z 100) = Binary64.lit_2_55.
Proof. vm_compute. reflexivity. Qed.

(** Adding a byte to a sum of at most two bytes is exact: checked on
    the whole range. *)
Lemma check_add_true :
  Tables.forall2 Binary64.of_Z Binary64.of_Z
    (fun a fa b fb =>
       Binary64.eqb (Binary64.add fa fb) (Binary64.of_Z (a + b)))
    511 256 = true.
Proof. vm_compute. reflexivity. Qed.

(** The test [brightness > thresh] on doubles against the test on the
    exact values [k/3] and [255 - 2.55 t], cleared of denominators:
    checked for every threshold and every sum of three bytes. *)
Lemma check_gt_true :
  Tables.forall2 Canvas.thresh
    (fun k => Binary64.div (Binary64.of_Z k) (Binary64.of_Z 3))
    (fun t th k q =>
       Bool.eqb (Binary64.gt q th) (15300 - 153 * t <? 20 * k))
    101 766 = true.
Proof. vm_compute. reflexivity. Qed.

(** Sums of small integers are exact in binary64. *)
Lemma add_small_exact (a b : Z) :
  0 <= a <= 510 -> 0 <= b <= 255 ->
  Binary64.add (Binary64.of_Z a) (Binary64.of_Z b) = Binary64.of_Z (a + b).
Proof.
  intros Ha Hb. apply binary64_eqb_eq.
  apply (forall2_spec _ _ _ check_add_true (a:=a) (b:=b)); lia.
Qed.

(** The comparison of the two doubles agrees with the exact one. *)
Lemma gt_thresh_exact (t k : Z) :
  0 <= t <= 100 -> 0 <= k <= 765 ->
  Binary64.gt (Binary64.div (Binary64.of_Z k) (Binary64.of_Z 3)) (Canvas.thresh t)
  = (15300 - 153 * t <? 20 * k).
Proof.
  intros Ht Hk. apply Bool.eqb_prop.
  apply (forall2_spec _ _ _ check_gt_true (a:=t) (b:=k)); lia.
Qed.

Lemma brightness_of_sum (r g b : Z) :
  PixelSpec.is_byte r -> PixelSpec.is_byte g -> PixelSpec.is_byte b ->
  Canvas.brightness r g b =
  Binary64.div (Binary64.of_Z (r + g + b)) (Binary64.of_Z 3).
Proof.
  unfold PixelSpec.is_byte, Canvas.brightness. intros Hr Hg Hb.
  rewrite add_small_exact by lia. rewrite add_small_exact by lia.
  reflexivity.
Qed.

End Binary64Facts.

Section RemoverFacts.
Import PixelSpec.

(** The specification's test, cleared of denominators. *)
Lemma exceeds_exact (threshold : Z) (p : Pixel) :
  exceeds threshold p =
  (15300 - 153 * threshold <? 20 * (red p + green p + blue p))%Z.
Proof.
  unfold exceeds, average, cutoff.
  set (k := (red p + green p + blue p)%Z).
  assert (H : inject_Z k / 3 <= 255 - inject_Z threshold * (255 # 100) <->
              (20 * k <= 15300 - 153 * threshold)%Z).
  { rewrite Zle_Qle.
    unfold Z.sub. rewrite inject_Z_plus, inject_Z_opp, !inject_Z_mult.
    change (inject_Z 20) with 20%Q. change (inject_Z 15300) with 15300%Q.
    change (inject_Z 153) with 153%Q.
    split; intro Hle.
    - apply Qmult_le_l with (z := 1 # 60); [reflexivity|].
      setoid_replace ((1 # 60) * (20 * inject_Z k))%Q
        with (inject_Z k / 3)%Q by field.
      setoid_replace ((1 # 60) * (15300 + - (153 * inject_Z threshold)))%Q
        with (255 - inject_Z threshold * (255 # 100))%Q by field.
      exact Hle.
    - apply Qmult_le_l with (z := 1 # 60) in Hle; [|reflexivity].
      setoid_replace ((1 # 60) * (20 * inject_Z k))%Q
        with (inject_Z k / 3)%Q in Hle by field.
      setoid_replace ((1 # 60) * (15300 + - (153 * inject_Z threshold)))%Q
        with (255 - inject_Z threshold * (255 # 100))%Q in Hle by field.
      exact Hle. }
  destruct (Qle_bool (inject_Z k / 3) (255 - inject_Z threshold * (255 # 100)))
    eqn:E; simpl; symmetry.
  - apply Qle_bool_iff in E. apply Z.ltb_ge. now apply H.
  - apply Z.ltb_lt. apply Z.nle_gt. intro Hle. apply H in Hle.
    apply Qle_bool_iff in Hle. congruence.
Qed.

(** On a pixel of bytes the test of the loop is the specification's. *)
Lemma loop_test_exact (threshold : Z) (p : Pixel) :
  (0 <= threshold <= 100)%Z -> well_formed p ->
  Binary64.gt (Canvas.brightness (red p) (green p) (blue p))
              (Canvas.thresh threshold)
  = exceeds threshold p.
Proof.
  intros Ht (Hr & Hg & Hb & _).
  rewrite brightness_of_sum by assumption.
  rewrite exceeds_exact. unfold is_byte in *.
  apply gt_thresh_exact; lia.
Qed.

(** The loop refines the specification's remover, pixel by pixel. *)
Lemma strip_light_refines (threshold : Z) (pixels : list Pixel) :
  (0 <= threshold <= 100)%Z -> Forall well_formed pixels ->
  Canvas.strip_light (Canvas.thresh threshold) (bytes pixels)
  = bytes (removeBackground threshold pixels).
Proof.
  intros Ht Hwf. induction Hwf as [|p rest Hp _ IH]; [reflexivity|].
  simpl. rewrite IH, (loop_test_exact Ht Hp).
  unfold remove_pixel. destruct (exceeds threshold p); reflexivity.
Qed.

(** At threshold 0 no pixel of bytes exceeds the cut-off. *)
Lemma removeBackground_zero (pixels : list Pixel) :
  Forall well_formed pixels -> removeBackground 0 pixels = pixels.
Proof.
  intro Hwf. induction Hwf as [|p rest Hp _ IH]; [reflexivity|].
  simpl. rewrite IH. unfold remove_pixel. rewrite exceeds_exact.
  destruct Hp as (Hr & Hg & Hb & _). unfold is_byte in *.
  replace (15300 - 153 * 0 <? 20 * (red p + green p + blue p))%Z with false;
    [reflexivity|].
  symmetry. apply Z.ltb_ge. lia.
Qed.

End RemoverFacts.

Lemma removeBackground_pixelwise (threshold : Z) (pixels : list PixelSpec.Pixel)
  (i : nat) (p : PixelSpec.Pixel) :
  nth_error pixels i = Some p ->
  exists q, nth_error (PixelSpec.removeBackground threshold pixels) i = Some q /\
    ((PixelSpec.cutoff threshold < PixelSpec.average p)%Q ->
       q = {| PixelSpec.red := PixelSpec.red p; PixelSpec.green := PixelSpec.green p;
              PixelSpec.blue := PixelSpec.blue p; PixelSpec.alpha := 0 |}) /\
    ((PixelSpec.average p <= PixelSpec.cutoff threshold)%Q -> q = p).
Proof.
  intro Hi. exists (PixelSpec.remove_pixel threshold p). split.
  - unfold PixelSpec.removeBackground. now rewrite nth_error_map, Hi.
  - unfold PixelSpec.remove_pixel, PixelSpec.exceeds.
    destruct (Qle_bool (PixelSpec.average p) (PixelSpec.cutoff threshold)) eqn:E;
      simpl; split; intro H; try reflexivity.
    + apply Qle_bool_iff in E. exfalso. exact (Qlt_not_le _ _ H E).
    + apply Qle_bool_iff in H. congruence.
Qed.

(** C3.  For a loaded source image whose canvas bytes are those of
    well-formed pixels, and an integer threshold in 0..100 (a 2D
    context being available): at threshold 0 the processed image is
    the source URL itself; otherwise it is a canvas of the natural
    width and height of the source whose pixels are the source's, with
    alpha set to 0 on exactly those whose red/green/blue average
    exceeds 255 - threshold * 2.55 (in exact arithmetic) and every
    other pixel, alpha included, unchanged.  At threshold 0 no pixel
    exceeds the cut-off, so the two cases agree. *)
Theorem background_removal_correct :
  forall (threshold : Z) (src : string) (img : Canvas.HTMLImageElement)
         (prev : Canvas.ImageSource) (pixels : list PixelSpec.Pixel),
    (0 <= threshold <= 100)%Z ->
    Canvas.complete img = true ->
    Canvas.decoded img = PixelSpec.bytes pixels ->
    Forall PixelSpec.well_formed pixels ->
    Canvas.processImage true threshold src img prev =
      (if (threshold =? 0)%Z then Canvas.Url src
       else Canvas.CanvasDataURL
              {| Canvas.width := Canvas.naturalWidth img;
                 Canvas.height := Canvas.naturalHeight img;
                 Canvas.data :=
                   PixelSpec.bytes (PixelSpec.removeBackground threshold pixels) |}) /\
    (threshold = 0%Z -> PixelSpec.removeBackground threshold pixels = pixels) /\
    (forall i p, nth_error pixels i = Some p ->
       exists q,
         nth_error (PixelSpec.removeBackground threshold pixels) i = Some q /\
         ((PixelSpec.cutoff threshold < PixelSpec.average p)%Q ->
            q = {| PixelSpec.red := PixelSpec.red p;
                   PixelSpec.green := PixelSpec.green p;
                   PixelSpec.blue := PixelSpec.blue p;
                   PixelSpec.alpha := 0 |}) /\
         ((PixelSpec.average p <= PixelSpec.cutoff threshold)%Q -> q = p)).
Proof.
  intros threshold src img prev pixels Ht Hc Hd Hwf. split; [|split].
  - unfold Canvas.processImage. rewrite Hc, Hd. simpl.
    destruct (threshold =? 0)%Z; [reflexivity|].
    now rewrite strip_light_refines.
  - intros ->. now apply removeBackground_zero.
  - intros i p. apply removeBackground_pixelwise.
Qed.

(** A solid white 2x2 image at threshold 100: every alpha becomes 0. *)
Lemma background_removal_white_2x2 :
  ((0 <= 100 <= 100)%Z /\
   Canvas.complete (TestImages.loaded 2 2 TestImages.white_2x2) = true /\
   Forall PixelSpec.well_formed TestImages.white_2x2) /\
  Canvas.processImage true 100 "data:white"
    (TestImages.loaded 2 2 TestImages.white_2x2) (Canvas.Url "data:white")
  = Canvas.CanvasDataURL
      {| Canvas.width := 2; Canvas.height := 2;
         Canvas.data := [255; 255; 255; 0;  255; 255; 255; 0;
                         255; 255; 255; 0;  255; 255; 255; 0]%Z |}.
Proof.
  assert (Hwf : Forall PixelSpec.well_formed TestImages.white_2x2).
  { repeat constructor; unfold PixelSpec.is_byte; simpl; lia. }
  split; [split; [lia|split; [reflexivity|exact Hwf]]|].
  destruct (@background_removal_correct 100 "data:white"
              (TestImages.loaded 2 2 TestImages.white_2x2)
              (Canvas.Url "data:white") TestImages.white_2x2)
    as [H _]; [lia | reflexivity | reflexivity | exact Hwf |].
  exact H.
Defined.

(** Mid-gray and white at threshold 50, run through the loop itself:
    the white pixel (255 > 127.5) becomes transparent, the mid-gray
    one (127 < 127.5) stays opaque. *)
Example background_removal_gray_and_white :
  Canvas.processImage true 50 "data:test"
    (TestImages.loaded 2 1 TestImages.gray_and_white) (Canvas.Url "data:test")
  = Canvas.CanvasDataURL
      {| Canvas.width := 2; Canvas.height := 1;
         Canvas.data := [127; 127; 127; 255;  255; 255; 255; 0]%Z |}.
Proof. vm_compute. reflexivity. Qed.

(** An image that has not finished loading is not processed: the
    previous result is kept. *)
Example background_removal_waits_for_decode :
  forall (threshold : Z) (src : string) (img : Canvas.HTMLImageElement)
         (prev : Canvas.ImageSource),
    threshold <> 0%Z -> Canvas.complete img = false ->
    Canvas.processImage true threshold src img prev = prev.
Proof.
  intros threshold src img prev Ht Hc. unfold Canvas.processImage.
  apply Z.eqb_neq in Ht. now rewrite Ht, Hc.
Qed.

(* ----------------------------------------------------------------- *)
(** ** Dragging *)

Section DivisionByOne.
Local Open Scope Z_scope.
Import Binary64.

Lemma div_eucl_mul (a b : Z) : 0 < b -> Z.div_eucl (a * b) b = (a, 0).
Proof.
  intro Hb. generalize (Z.div_eucl_eq (a * b) b ltac:(lia)).
  generalize (Z.mod_pos_bound (a * b) b Hb). unfold Z.modulo.
  destruct (Z.div_eucl (a * b) b) as [q r]. intros Hr He.
  assert (q = a) by nia. subst q. f_equal. lia.
Qed.

(** Rounding a mantissa that is already canonical shifts nothing. *)
Lemma shr_fexp_canonical (m : positive) (e : Z) :
  fexp prec emax (Zpos (digits2_pos m) + e) = e ->
  shr_fexp prec emax (Zpos m) e loc_Exact
  = ({| shr_m := Zpos m; shr_r := false; shr_s := false |}, e).
Proof.
  intro H. unfold shr_fexp. cbn [Zdigits2]. rewrite H, Z.sub_diag. reflexivity.
Qed.

Lemma round_canonical (s : bool) (m : positive) (e : Z) :
  bounded prec emax m e = true ->
  binary_round_aux prec emax s (Zpos m) e loc_Exact = S754_finite s m e.
Proof.
  unfold bounded, canonical_mantissa. intro H.
  apply andb_prop in H as [Hc Hb]. apply Z.eqb_eq in Hc.
  unfold binary_round_aux. rewrite shr_fexp_canonical by exact Hc.
  cbn [shr_m loc_of_shr_record round_nearest_even].
  rewrite shr_fexp_canonical by exact Hc. cbn [shr_m]. now rewrite Hb.
Qed.

(** Rounding twice a full mantissa, one exponent lower, gives the
    mantissa back. *)
Lemma round_doubled (s : bool) (m : positive) (e : Z) :
  bounded prec emax m e = true -> Zpos (digits2_pos m) = 53 ->
  binary_round_aux prec emax s (Zpos m~0) (e - 1) loc_Exact = S754_finite s m e.
Proof.
  unfold bounded, canonical_mantissa. intros H Hd.
  apply andb_prop in H as [Hc Hb]. apply Z.eqb_eq in Hc.
  unfold binary_round_aux.
  assert (E : shr_fexp prec emax (Zpos m~0) (e - 1) loc_Exact
              = ({| shr_m := Zpos m; shr_r := false; shr_s := false |}, e)).
  { unfold shr_fexp. cbn [Zdigits2 digits2_pos]. rewrite Pos2Z.inj_succ, Hd.
    replace (fexp prec emax (Z.succ 53 + (e - 1)) - (e - 1)) with 1
      by (rewrite Hd in Hc; unfold fexp, emin, prec, emax in *; lia).
    cbn [shr shr_record_of_loc iter_pos shr_1 orb]. f_equal. lia. }
  rewrite E. cbn [shr_m loc_of_shr_record round_nearest_even].
  rewrite shr_fexp_canonical by exact Hc. cbn [shr_m]. now rewrite Hb.
Qed.

Lemma of_Z_1 : of_Z 1 = S754_finite false 4503599627370496 (-52).
Proof. reflexivity. Qed.

(** Dividing a double by 1 gives the double back: zeros, infinities
    and NaN included, normal and subnormal. *)
Lemma div_one (x : double) : valid x = true -> div x (of_Z 1) = x.
Proof.
  rewrite of_Z_1.
  destruct x as [s|s| |s m e]; intro H;
    try (unfold div, SFdiv; now rewrite ?xorb_false_r).
  unfold div, SFdiv, SFdiv_core_binary. rewrite xorb_false_r.
  assert (Hv := H). unfold valid, valid_binary, bounded, canonical_mantissa in Hv.
  apply andb_prop in Hv as [Hc Hb]. apply Z.eqb_eq in Hc.
  cbn [Zdigits2]. set (d := Zpos (digits2_pos m)) in *.
  assert (Hd : 0 < d) by (subst d; lia).
  change (Z.pos (digits2_pos 4503599627370496)) with 53.
  unfold fexp, emin, prec, emax in Hc.
  destruct (Z.eq_dec d 53) as [E|E]; [destruct (Z.eq_dec e (-1074)) as [E'|E']|].
  - replace (Z.min (fexp prec emax (d + e - (53 + -52))) (e - -52)) with e
      by (unfold fexp, emin, prec, emax; lia).
    replace (e - -52 - e) with 52 by lia.
    rewrite Z.shiftl_mul_pow2 by lia. rewrite div_eucl_mul by reflexivity.
    change (new_location 4503599627370496 0) with loc_Exact.
    now apply round_canonical.
  - replace (Z.min (fexp prec emax (d + e - (53 + -52))) (e - -52)) with (e - 1)
      by (unfold fexp, emin, prec, emax; lia).
    replace (e - -52 - (e - 1)) with 53 by lia.
    rewrite Z.shiftl_mul_pow2 by lia.
    replace (Z.pos m * 2 ^ 53) with (Z.pos m~0 * 4503599627370496)
      by (change (2 ^ 53) with (2 * 4503599627370496); lia).
    rewrite div_eucl_mul by reflexivity.
    change (new_location 4503599627370496 0) with loc_Exact.
    now apply round_doubled.
  - replace (Z.min (fexp prec emax (d + e - (53 + -52))) (e - -52)) with e
      by (unfold fexp, emin, prec, emax; lia).
    replace (e - -52 - e) with 52 by lia.
    rewrite Z.shiftl_mul_pow2 by lia. rewrite div_eucl_mul by reflexivity.
    change (new_location 4503599627370496 0) with loc_Exact.
    now apply round_canonical.
Qed.

(** The literals are the correctly rounded quotients 1/2 and 3/10. *)
Lemma lit_0_5_nearest : div (of_Z 1) (of_Z 2) = lit_0_5.
Proof. vm_compute. reflexivity. Qed.

Lemma lit_0_3_nearest : div (of_Z 3) (of_Z 10) = lit_0_3.
Proof. vm_compute. reflexivity. Qed.

(** Between whole-pixel pointer coordinates of a screen up to 8192
    pixels the differences 100 and 50 are computed without rounding:
    checked on the whole range. *)
Lemma check_pixel_delta_true :
  Tables.forall2 of_Z of_Z
    (fun a fa _ _ =>
       eqb (sub (of_Z (a + 100)) fa) (of_Z 100) &&
       eqb (sub (of_Z (a + 50)) fa) (of_Z 50))
    8192 1 = true.
Proof. vm_compute. reflexivity. Qed.

Lemma pixel_delta_exact (a : Z) :
  0 <= a < 8192 ->
  sub (of_Z (a + 100)) (of_Z a) = of_Z 100 /\
  sub (of_Z (a + 50)) (of_Z a) = of_Z 50.
Proof.
  intro Ha.
  pose proof (forall2_spec _ _ _ check_pixel_delta_true (a:=a) (b:=0)
                ltac:(lia) ltac:(lia)) as H.
  apply andb_prop in H as [Hx Hy].
  split; now apply binary64_eqb_eq.
Qed.

End DivisionByOne.

Section DragFacts.
Import DraggableText.

(** One move of a text element that is being dragged. *)
Lemma text_move (z : Binary64.double) (e : DOM.Num.Pointer) (s : State)
  (start : DOM.Num.Point) :
  isDragging s = true -> dragStartRef s = Some start ->
  handleMouseMove z e s =
  {| position :=
       {| DOM.Num.x :=
            Binary64.add (DOM.Num.x (position s))
              (Binary64.div (Binary64.sub (DOM.Num.clientX e) (DOM.Num.x start)) z);
          DOM.Num.y :=
            Binary64.add (DOM.Num.y (position s))
              (Binary64.div (Binary64.sub (DOM.Num.clientY e) (DOM.Num.y start)) z) |};
     isDragging := true;
     isHovered := isHovered s;
     isSelected := isSelected s;
     dragStartRef := Some (DOM.Num.at_pointer e) |}.
Proof.
  intros Hd Hs. unfold handleMouseMove. rewrite Hd, Hs. simpl.
  unfold set_dragStartRef, setPosition. simpl. now rewrite Hd.
Qed.

(** A run of moves of a dragged text element changes the position and
    the recorded pointer, and nothing else. *)
Lemma text_drag_moves (z : Binary64.double) (es : list DOM.Num.Pointer) :
  forall (s : State) (start : DOM.Num.Point),
    isDragging s = true -> dragStartRef s = Some start ->
    exists p r, moves z es s = set_dragStartRef (Some r) (setPosition p s).
Proof.
  induction es as [|e es IH]; intros s start Hd Hs.
  - exists (position s), start. destruct s; simpl in *. now subst.
  - unfold moves. simpl List.fold_left. rewrite (text_move z e s Hd Hs).
    match goal with
    | |- context [List.fold_left _ es ?s1] =>
        destruct (IH s1 (DOM.Num.at_pointer e) eq_refl eq_refl) as (p & r & Hm)
    end.
    unfold moves in Hm. rewrite Hm. exists p, r.
    unfold set_dragStartRef, setPosition. simpl. now rewrite Hd.
Qed.

Lemma text_moves_when_idle (z : Binary64.double) (es : list DOM.Num.Pointer)
  (s : State) :
  isDragging s = false -> moves z es s = s.
Proof.
  intro Hd. induction es as [|e es IH]; [reflexivity|].
  unfold moves in *. simpl.
  replace (handleMouseMove z e s) with s; [exact IH|].
  unfold handleMouseMove. now rewrite Hd.
Qed.

End DragFacts.

(** C4, as stated, fails.  The arithmetic of a drag move is that of
    doubles.  At zoom 0.3, a text element at x = 50 whose pointer went
    down at x = 0 is moved, when the pointer reaches x = 10, to the
    double 83.33333333333334, which is not 50 + 10 / z for the value
    [z] of the zoom (nor is any double).  And the rounding of each move
    stays in the position: three moves of one pixel end at
    60.000000000000007, one move of three pixels at 60. *)
Lemma drag_delta_is_rounded :
  let z := Binary64.lit_0_3 in
  let s0 := DraggableText.handleMouseDown (DOM.Num.pixel 0 0)
              (DraggableText.initialState
                 {| DraggableText.id := 1;
                    DraggableText.initialX := Binary64.of_Z 50;
                    DraggableText.initialY := Binary64.of_Z 200;
                    DraggableText.zoom := z |}) in
  let by_ten := DraggableText.handleMouseMove z (DOM.Num.pixel 10 0) s0 in
  let by_three := DraggableText.handleMouseMove z (DOM.Num.pixel 3 0) s0 in
  let by_one_thrice :=
    DraggableText.moves z
      [DOM.Num.pixel 1 0; DOM.Num.pixel 2 0; DOM.Num.pixel 3 0] s0 in
  (exists zq q : Q,
     Binary64.to_Q z = Some zq /\ (2 # 10 <= zq)%Q /\ (zq <= 3)%Q /\
     Binary64.to_Q (DOM.Num.x (DraggableText.position by_ten)) = Some q /\
     ~ (q == 50 + 10 / zq)%Q) /\
  DOM.Num.x (DraggableText.position by_ten)
    = S754_finite false 5864062014805334 (-46) /\
  DOM.Num.x (DraggableText.position by_three) = Binary64.of_Z 60 /\
  DOM.Num.x (DraggableText.position by_one_thrice)
    = S754_finite false 8444249301319681 (-47) /\
  DOM.Num.x (DraggableText.position by_one_thrice)
    <> DOM.Num.x (DraggableText.position by_three).
Proof.
  intros z s0 by_ten by_three by_one_thrice.
  split; [|split; [|split; [|split]]].
  - eexists. eexists. split; [reflexivity|].
    split; [vm_compute; discriminate|]. split; [vm_compute; discriminate|].
    split; [vm_compute; reflexivity|].
    vm_compute. discriminate.
  - vm_compute. reflexivity.
  - vm_compute. reflexivity.
  - vm_compute. reflexivity.
  - vm_compute. discriminate.
Qed.

(** C4, amended.  A pointer move during a drag of a text element sets
    each coordinate of its position to the double nearest to the old
    coordinate plus the rounded quotient, by the zoom, of the rounded
    difference between the pointer coordinate and the recorded one:
    the screen delta over the zoom, up to rounding.  It records the
    pointer position as the baseline of the next move and changes
    nothing else; once the drag has ended a move changes nothing.
    This holds at every zoom.  At zoom 1 the quotient is the screen
    delta itself, for every double.  A text element added by the
    ADD_TEXT action sits at (50, 200); dragged at zoom 0.5 by a move
    whose screen delta is measured as (100, 50), it ends at (250, 300)
    exactly; the delta is measured so between any two whole-pixel
    pointer positions, 100 and 50 pixels apart, of a screen up to 8192
    pixels wide and high. *)
Theorem drag_move_adds_rounded_delta_over_zoom :
  forall (z : Binary64.double) (e : DOM.Num.Pointer) (s : DraggableText.State)
         (start : DOM.Num.Point),
    DraggableText.isDragging s = true ->
    DraggableText.dragStartRef s = Some start ->
    let sx := Binary64.sub (DOM.Num.clientX e) (DOM.Num.x start) in
    let sy := Binary64.sub (DOM.Num.clientY e) (DOM.Num.y start) in
    let old := DraggableText.position s in
    DraggableText.handleMouseMove z e s =
      {| DraggableText.position :=
           {| DOM.Num.x := Binary64.add (DOM.Num.x old) (Binary64.div sx z);
              DOM.Num.y := Binary64.add (DOM.Num.y old) (Binary64.div sy z) |};
         DraggableText.isDragging := true;
         DraggableText.isHovered := DraggableText.isHovered s;
         DraggableText.isSelected := DraggableText.isSelected s;
         DraggableText.dragStartRef := Some (DOM.Num.at_pointer e) |} /\
    DraggableText.handleMouseMove z e (DraggableText.handleEnd s)
      = DraggableText.handleEnd s /\
    (forall d : Binary64.double,
       Binary64.valid d = true -> Binary64.div d (Binary64.of_Z 1) = d) /\
    (Binary64.valid sx = true -> Binary64.valid sy = true ->
     DraggableText.position (DraggableText.handleMouseMove (Binary64.of_Z 1) e s)
       = {| DOM.Num.x := Binary64.add (DOM.Num.x old) sx;
            DOM.Num.y := Binary64.add (DOM.Num.y old) sy |}) /\
    (forall (now payload : Z) (down up : DOM.Num.Pointer),
       Binary64.sub (DOM.Num.clientX up) (DOM.Num.clientX down) = Binary64.of_Z 100 ->
       Binary64.sub (DOM.Num.clientY up) (DOM.Num.clientY down) = Binary64.of_Z 50 ->
       let added := TajmirTemplate.actionEffect now
                      (Some (TajmirTemplate.ADD_TEXT payload))
                      TajmirTemplate.initialState in
       exists block,
         TajmirTemplate.textBlocks added = [block] /\
         let mounted := DraggableText.initialState
                          (TajmirTemplate.text_props Binary64.lit_0_5 block) in
         let dragged := DraggableText.handleMouseMove Binary64.lit_0_5 up
                          (DraggableText.handleMouseDown down mounted) in
         DraggableText.position mounted
           = {| DOM.Num.x := Binary64.of_Z 50; DOM.Num.y := Binary64.of_Z 200 |} /\
         DraggableText.position dragged
           = {| DOM.Num.x := Binary64.of_Z 250; DOM.Num.y := Binary64.of_Z 300 |}) /\
    (forall px py : Z,
       (0 <= px < 8192)%Z -> (0 <= py < 8192)%Z ->
       let down := DOM.Num.pixel px py in
       let up := DOM.Num.pixel (px + 100) (py + 50) in
       Binary64.sub (DOM.Num.clientX up) (DOM.Num.clientX down) = Binary64.of_Z 100 /\
       Binary64.sub (DOM.Num.clientY up) (DOM.Num.clientY down) = Binary64.of_Z 50).
Proof.
  intros z e s start Hd Hs sx sy old.
  split; [exact (text_move z e s Hd Hs)|].
  split; [reflexivity|].
  split; [exact div_one|].
  split; [|split].
  - intros Hx Hy. rewrite (text_move (Binary64.of_Z 1) e s Hd Hs).
    cbn [DraggableText.position]. subst sx sy old.
    now rewrite (div_one _ Hx), (div_one _ Hy).
  - intros now payload down up Hx Hy added. eexists. split; [reflexivity|].
    intros mounted dragged. split; [reflexivity|].
    subst dragged mounted.
    rewrite text_move with (start := DOM.Num.at_pointer down);
      [|reflexivity|reflexivity].
    cbn [DraggableText.position DOM.Num.x DOM.Num.y DOM.Num.at_pointer].
    rewrite Hx, Hy. vm_compute. reflexivity.
  - intros px py Hpx Hpy down up.
    destruct (pixel_delta_exact Hpx) as [Hx _].
    destruct (pixel_delta_exact Hpy) as [_ Hy].
    split; [exact Hx|exact Hy].
Qed.

(** The example of the specification, with the pointer going down at
    (320, 240) and moving to (420, 290): at zoom 0.5 the element ends
    at (250, 300), at zoom 1 at (150, 250). *)
Lemma drag_at_half_zoom :
  let down := DOM.Num.pixel 320 240 in
  let up := DOM.Num.pixel 420 290 in
  let block := {| TextBlock.id := 1700000000000; TextBlock.x := 50; TextBlock.y := 200 |} in
  let s := DraggableText.handleMouseDown down
             (DraggableText.initialState
                (TajmirTemplate.text_props Binary64.lit_0_5 block)) in
  (DraggableText.isDragging s = true /\
   DraggableText.dragStartRef s = Some (DOM.Num.at_pointer down) /\
   Binary64.sub (DOM.Num.clientX up) (DOM.Num.clientX down) = Binary64.of_Z 100 /\
   Binary64.sub (DOM.Num.clientY up) (DOM.Num.clientY down) = Binary64.of_Z 50 /\
   Binary64.valid (Binary64.of_Z 100) = true /\
   Binary64.valid (Binary64.of_Z 50) = true) /\
  TajmirTemplate.textBlocks
    (TajmirTemplate.actionEffect 1700000000000
       (Some (TajmirTemplate.ADD_TEXT 1700000000000)) TajmirTemplate.initialState)
    = [block] /\
  DraggableText.position (DraggableText.handleMouseMove Binary64.lit_0_5 up s)
    = {| DOM.Num.x := Binary64.of_Z 250; DOM.Num.y := Binary64.of_Z 300 |} /\
  DraggableText.position (DraggableText.handleMouseMove (Binary64.of_Z 1) up s)
    = {| DOM.Num.x := Binary64.of_Z 150; DOM.Num.y := Binary64.of_Z 250 |}.
Proof.
  intros down up block s.
  assert (Hx : Binary64.sub (DOM.Num.clientX up) (DOM.Num.clientX down)
               = Binary64.of_Z 100) by (vm_compute; reflexivity).
  assert (Hy : Binary64.sub (DOM.Num.clientY up) (DOM.Num.clientY down)
               = Binary64.of_Z 50) by (vm_compute; reflexivity).
  split; [repeat split; solve [reflexivity | assumption]|].
  split; [reflexivity|].
  destruct (@drag_move_adds_rounded_delta_over_zoom Binary64.lit_0_5 up s
              (DOM.Num.at_pointer down) eq_refl eq_refl)
    as (_ & _ & _ & Hone & Hhalf & _).
  split.
  - destruct (Hhalf 1700000000000%Z 1700000000000%Z down up Hx Hy)
      as (b & Hb & Hdrag).
    injection Hb as <-. exact (proj2 Hdrag).
  - rewrite (Hone eq_refl eq_refl). vm_compute. reflexivity.
Defined.

(* ----------------------------------------------------------------- *)
(** ** Resizing *)

Section ResizeFacts.
Local Open Scope Q_scope.
Import DraggableImage.

Lemma resize_start_resizing (down : DOM.Pointer) (s : State) :
  isDragging s = false ->
  resizing {| w := width (size s); h := height (size s);
              x := DOM.x (position s); y := DOM.y (position s) |}
           (DOM.at_pointer down) (handleResizeStart down s).
Proof. intro Hd. repeat split; assumption. Qed.

(** One move while resizing: only the size changes, and it is computed
    from the snapshot and the pointer-down point. *)
Lemma resize_move_only (z : Q) (e : DOM.Pointer) (dim : StartDim)
  (start : DOM.Point) (s : State) :
  resizing dim start s ->
  handleMouseMove z e s =
  setSize {| width := Qmax 50 (w dim + (DOM.clientX e - DOM.x start) / z);
             height := Qmax 50 (h dim + (DOM.clientY e - DOM.y start) / z) |} s.
Proof.
  intros (Hd & Hr & Hdim & Hst).
  unfold handleMouseMove, drag_move. rewrite Hd.
  unfold resize_move. now rewrite Hr, Hdim, Hst.
Qed.

Lemma resizing_moves (z : Q) (dim : StartDim) (start : DOM.Point)
  (es : list DOM.Pointer) :
  forall s, resizing dim start s ->
    resizing dim start (moves z es s) /\
    position (moves z es s) = position s.
Proof.
  induction es as [|e es IH]; intros s Hs; [split; [assumption|reflexivity]|].
  unfold moves. simpl. rewrite (resize_move_only z e Hs).
  match goal with
  | |- context [List.fold_left _ es ?s1] =>
      assert (H1 : resizing dim start s1)
        by (destruct Hs as (? & ? & ? & ?); repeat split; assumption);
      destruct (IH s1 H1) as [Hres Hpos]
  end.
  split; [exact Hres|]. unfold moves in Hpos. now rewrite Hpos.
Qed.

(** The floor is an invariant of the element: no event, at any zoom,
    in any combination of flags, brings a side below 50. *)
Lemma size_floor (props : Props) (s : State) :
  reachable props s -> 50 <= width (size s) /\ 50 <= height (size s).
Proof.
  induction 1 as [|s ev _ IH].
  - simpl. split; unfold Qle; simpl; lia.
  - destruct ev; simpl; try exact IH.
    + unfold handleMouseMove, resize_move.
      assert (Hsz : size (drag_move zoom0 e s) = size s).
      { unfold drag_move. destruct (isDragging s), (dragStartRef s); reflexivity. }
      destruct (isResizing (drag_move zoom0 e s)),
               (startDimRef (drag_move zoom0 e s)),
               (dragStartRef (drag_move zoom0 e s));
        try (rewrite Hsz; exact IH).
      simpl. split; apply Q.le_max_l.
    + unfold handleClickOutside.
      destruct (DOM.ref_attached e && negb (DOM.ref_contains_target e))%bool,
               (negb (DOM.closest_control_btn e) && negb (DOM.closest_tool_panel e))%bool;
        exact IH.
    + unfold touchstartOutside.
      destruct (DOM.ref_attached e && negb (DOM.ref_contains_target e))%bool,
               (negb (DOM.closest_control_btn e) && negb (DOM.closest_tool_panel e))%bool;
        exact IH.
    + destruct side; exact IH.
Qed.

End ResizeFacts.



(** Outside the state machine of the specification: when a drag was
    never ended (no pointer-up reached the window) and a resize starts,
    both flags are set; a move then drags the element and, the drag
    having re-recorded the pointer first, resizes by a zero delta. *)
Example move_while_dragging_and_resizing :
  let s := DraggableImage.handleResizeStart
             {| DOM.clientX := 10; DOM.clientY := 10 |}
             (DraggableImage.handleMouseDown
                {| DOM.clientX := 0; DOM.clientY := 0 |}
                (DraggableImage.initialState TestElements.image_props)) in
  let s' := DraggableImage.handleMouseMove 1
              {| DOM.clientX := 110; DOM.clientY := 60 |} s in
  (DraggableImage.isDragging s = true /\ DraggableImage.isResizing s = true) /\
  (DOM.x (DraggableImage.position s') == 150 /\
   DOM.y (DraggableImage.position s') == 250 /\
   DraggableImage.width (DraggableImage.size s') == 200 /\
   DraggableImage.height (DraggableImage.size s') == 200)%Q.
Proof. repeat split. Qed.

(* ----------------------------------------------------------------- *)
(** ** Crop inputs *)

(** C6, as stated, fails.  Typing 75 into the Top field of a fresh
    image stores 75, and typing -5 into the Left field stores -5: the
    values are outside [0, 50], are not rejected, and replace the
    prior value 0. *)
Lemma crop_input_out_of_range_is_stored :
  let s := DraggableImage.initialState TestElements.image_props in
  let top := DraggableImage.changeCrop DraggableImage.Top 75 s in
  let left := DraggableImage.changeCrop DraggableImage.Left (-5) s in
  (~ (75 <= 50)%Q /\
   DraggableImage.t (DraggableImage.crop s) = 0%Q /\
   DraggableImage.t (DraggableImage.crop top) = 75%Q /\
   ~ (DraggableImage.t (DraggableImage.crop top)
      == DraggableImage.t (DraggableImage.crop s))%Q) /\
  (~ (0 <= -5)%Q /\
   DraggableImage.l (DraggableImage.crop s) = 0%Q /\
   DraggableImage.l (DraggableImage.crop left) = (-5)%Q /\
   ~ (DraggableImage.l (DraggableImage.crop left)
      == DraggableImage.l (DraggableImage.crop s))%Q).
Proof.
  simpl. split; split; try (split; [reflexivity|split; [reflexivity|]]).
  - apply Qlt_not_le. reflexivity.
  - intro H. discriminate H.
  - apply Qlt_not_le. reflexivity.
  - intro H. discriminate H.
Qed.

(** C6, amended.  For every side and every numeric value, in range or
    not, the crop input stores the value for that side as it is,
    leaves the other three sides as they were and changes nothing
    else of the element. *)
Theorem crop_input_stores_value :
  forall (side other : DraggableImage.Side) (value : Q)
         (s : DraggableImage.State),
    let s' := DraggableImage.changeCrop side value s in
    DraggableImage.side_of other (DraggableImage.crop s') =
      (if DraggableImage.Side_eqb other side then value
       else DraggableImage.side_of other (DraggableImage.crop s)) /\
    DraggableImage.setCrop (DraggableImage.crop s) s' = s.
Proof.
  intros side other value s. destruct s as [? ? ? ? ? ? [? ? ? ?] ? ? ? ? ?].
  destruct side, other; simpl; split; reflexivity.
Qed.

(* ----------------------------------------------------------------- *)
(** ** Click outside *)

Section ClickOutsideFacts.
Import DraggableImage.

(** The mouse listener deselects and closes both panels. *)
Lemma mouse_outside_deselects_and_closes (e : DOM.PointerDown) (s : State) :
  DOM.is_outside e ->
  let s' := handleClickOutside e s in
  isSelected s' = false /\ showMagic s' = false /\ showCrop s' = false.
Proof.
  intros (Ha & Hc & Hb & Hp). unfold handleClickOutside.
  rewrite Ha, Hc, Hb, Hp. simpl. auto.
Qed.

(** The touch listener deselects and leaves the panels as they are. *)
Lemma touch_outside_only_deselects (e : DOM.PointerDown) (s : State) :
  DOM.is_outside e ->
  touchstartOutside e s = setIsSelected false s.
Proof.
  intros (Ha & Hc & Hb & Hp). unfold touchstartOutside.
  now rewrite Ha, Hc, Hb, Hp.
Qed.

End ClickOutsideFacts.

(** C7 at its failing input.  An image is selected and its
    background-removal panel is open; a pointer-down lands outside the
    element and outside every control.  As a mouse event it deselects
    the element and closes the panel; as a touch event it deselects the
    element and leaves the panel open, so that the panel is back as
    soon as the element is selected again. *)
Theorem touch_outside_leaves_panel_open :
  let s := TestElements.selected_with_panel in
  let e := TestElements.outside in
  (DraggableImage.isSelected s = true /\ DraggableImage.showMagic s = true) /\
  (DraggableImage.isSelected (DraggableImage.handleClickOutside e s) = false /\
   DraggableImage.showMagic (DraggableImage.handleClickOutside e s) = false /\
   DraggableImage.showCrop (DraggableImage.handleClickOutside e s) = false) /\
  (DraggableImage.isSelected (DraggableImage.touchstartOutside e s) = false /\
   DraggableImage.showMagic (DraggableImage.touchstartOutside e s) = true) /\
  DraggableImage.showMagic
    (DraggableImage.handleContainerClick
       (DraggableImage.touchstartOutside e s)) = true.
Proof. repeat split. Qed.

(* ----------------------------------------------------------------- *)
(** ** A new image element *)

(** C10.  Whatever its props, a new image element is at its initial
    position with size 200x200, threshold 0, the four crop percentages
    0, both tool panels closed, neither selected nor dragged nor
    resized, no pointer recorded, and its processed image is its
    source; running the processing effect on it, whatever the load
    state of the image, gives the source again. *)
Theorem new_image_default_state :
  forall (props : DraggableImage.Props),
    let s := DraggableImage.initialState props in
    DraggableImage.position s =
      {| DOM.x := DraggableImage.initialX props;
         DOM.y := DraggableImage.initialY props |} /\
    DraggableImage.size s =
      {| DraggableImage.width := 200; DraggableImage.height := 200 |} /\
    DraggableImage.threshold s = 0%Z /\
    DraggableImage.crop s =
      {| DraggableImage.t := 0; DraggableImage.r := 0;
         DraggableImage.b := 0; DraggableImage.l := 0 |} /\
    DraggableImage.showMagic s = false /\
    DraggableImage.showCrop s = false /\
    DraggableImage.isSelected s = false /\
    DraggableImage.isDragging s = false /\
    DraggableImage.isResizing s = false /\
    DraggableImage.showControls s = false /\
    DraggableImage.dragStartRef s = None /\
    DraggableImage.startDimRef s = None /\
    DraggableImage.processedSrc s = Canvas.Url (DraggableImage.src props) /\
    (forall context2d img,
       DraggableImage.processEffect context2d props img s = s).
Proof. intro props. repeat split. Qed.

(* ----------------------------------------------------------------- *)
(** ** Element ids *)

Section IdFacts.
Local Open Scope Z_scope.
Import TajmirTemplate.

Lemma sorted_snoc (l : list Z) (n : Z) :
  StronglySorted Z.lt l -> Forall (fun i => i < n) l ->
  StronglySorted Z.lt (l ++ [n]).
Proof.
  induction 1 as [|a l Hl IH Ha]; intro Hn; simpl.
  - repeat constructor.
  - inversion Hn as [|? ? Han Hln]; subst. constructor; [auto|].
    apply Forall_app. split; [exact Ha|]. repeat constructor. exact Han.
Qed.

Lemma sorted_NoDup (l : list Z) : StronglySorted Z.lt l -> NoDup l.
Proof.
  induction 1 as [|a l Hl IH Ha]; constructor; [|exact IH].
  intro Hin. rewrite Forall_forall in Ha. specialize (Ha a Hin). lia.
Qed.

Lemma sorted_map_filter (A : Type) (key : A -> Z) (keep : A -> bool) (l : list A) :
  StronglySorted Z.lt (List.map key l) ->
  StronglySorted Z.lt (List.map key (List.filter keep l)).
Proof.
  induction l as [|a l IH]; simpl; intro H; [constructor|].
  apply StronglySorted_inv in H as [Hl Ha].
  destruct (keep a); simpl; [|auto].
  constructor; [auto|].
  rewrite Forall_forall in *. intros i Hi. apply Ha.
  apply in_map_iff in Hi as (x & Hx & Hin).
  apply in_map_iff. exists x. split; [exact Hx|].
  now apply filter_In in Hin.
Qed.

Lemma in_map_filter (A : Type) (key : A -> Z) (keep : A -> bool) (l : list A) (i : Z) :
  In i (List.map key (List.filter keep l)) -> In i (List.map key l).
Proof.
  intro Hi. apply in_map_iff in Hi as (x & Hx & Hin).
  apply in_map_iff. exists x. split; [exact Hx|]. now apply filter_In in Hin.
Qed.

Lemma ordered_weaken (n : Z) (later : list Z) (s : State) :
  ordered (n :: later) s -> ordered later s.
Proof.
  intros (Ht & Hi & Hd & Hb). repeat split; auto.
  intros i m Hin Hm. apply Hb; [exact Hin|now right].
Qed.

(** Adding a text element at a clock reading later than every id. *)
Lemma ordered_add_text (now : Z) (later : list Z) (s : State) :
  StronglySorted Z.lt (now :: later) -> ordered (now :: later) s ->
  ordered later
    (setTextBlocks
       (fun prev => prev ++ [{| TextBlock.id := now; TextBlock.x := 50;
                                TextBlock.y := 200 |}]) s).
Proof.
  intros Hs (Ht & Hi & Hd & Hb).
  apply StronglySorted_inv in Hs as [_ Hnow]. rewrite Forall_forall in Hnow.
  assert (Hlt : forall i, In i (ids s) -> i < now)
    by (intros i Hin; apply Hb; [exact Hin|now left]).
  unfold ordered, ids, text_ids, image_ids in *. simpl.
  rewrite map_app. simpl. repeat split.
  - apply sorted_snoc; [exact Ht|]. apply Forall_forall. intros i Hin.
    apply Hlt. apply in_or_app. now right.
  - exact Hi.
  - intros i Hin Himg. apply in_app_or in Hin as [Hin|[<-|[]]].
    + exact (Hd i Hin Himg).
    + assert (now < now) by (apply Hlt; apply in_or_app; now left). lia.
  - intros i n Hin Hn. apply in_app_or in Hin as [Hin|Hin].
    + apply Hb; [apply in_or_app; now left|now right].
    + apply in_app_or in Hin as [Hin|[<-|[]]].
      * apply Hb; [apply in_or_app; now right|now right].
      * now apply Hnow.
Qed.

Lemma ordered_add_image (now : Z) (payload : string) (later : list Z) (s : State) :
  StronglySorted Z.lt (now :: later) -> ordered (now :: later) s ->
  ordered later
    (setImageBlocks
       (fun prev => prev ++ [{| ImageBlock.id := now; ImageBlock.src := payload;
                                ImageBlock.x := 50; ImageBlock.y := 200 |}]) s).
Proof.
  intros Hs (Ht & Hi & Hd & Hb).
  apply StronglySorted_inv in Hs as [_ Hnow]. rewrite Forall_forall in Hnow.
  assert (Hlt : forall i, In i (ids s) -> i < now)
    by (intros i Hin; apply Hb; [exact Hin|now left]).
  unfold ordered, ids, text_ids, image_ids in *. simpl.
  rewrite map_app. simpl. repeat split.
  - exact Ht.
  - apply sorted_snoc; [exact Hi|]. apply Forall_forall. intros i Hin.
    apply Hlt. apply in_or_app. now left.
  - intros i Hin Himg. apply in_app_or in Himg as [Himg|[<-|[]]].
    + exact (Hd i Hin Himg).
    + assert (now < now) by (apply Hlt; apply in_or_app; now right). lia.
  - intros i n Hin Hn. apply in_app_or in Hin as [Hin|Hin].
    + apply in_app_or in Hin as [Hin|[<-|[]]].
      * apply Hb; [apply in_or_app; now left|now right].
      * now apply Hnow.
    + apply Hb; [apply in_or_app; now right|now right].
Qed.

Lemma ordered_remove_text (id : Z) (later : list Z) (s : State) :
  ordered later s -> ordered later (removeTextBlock id s).
Proof.
  intros (Ht & Hi & Hd & Hb).
  unfold ordered, ids, text_ids, image_ids in *. simpl. repeat split.
  - now apply sorted_map_filter.
  - exact Hi.
  - intros i Hin. apply Hd. now apply in_map_filter in Hin.
  - intros i n Hin Hn. apply Hb; [|exact Hn].
    apply in_app_or in Hin as [Hin|Hin]; apply in_or_app;
      [now left|right; now apply in_map_filter in Hin].
Qed.

Lemma ordered_remove_image (id : Z) (later : list Z) (s : State) :
  ordered later s -> ordered later (removeImageBlock id s).
Proof.
  intros (Ht & Hi & Hd & Hb).
  unfold ordered, ids, text_ids, image_ids in *. simpl. repeat split.
  - exact Ht.
  - now apply sorted_map_filter.
  - intros i Hin Himg. apply (Hd i Hin). now apply in_map_filter in Himg.
  - intros i n Hin Hn. apply Hb; [|exact Hn].
    apply in_app_or in Hin as [Hin|Hin]; apply in_or_app;
      [left; now apply in_map_filter in Hin|now right].
Qed.

(** The invariant is kept by every command whose clock reading, if it
    has one, is later than all the ids and earlier than the readings
    still to come. *)
Lemma ordered_run (cs : list Command) :
  forall s, StronglySorted Z.lt (readings cs) -> ordered (readings cs) s ->
    ordered [] (run cs s).
Proof.
  induction cs as [|c cs IH]; intros s Hs Ho; [exact Ho|].
  unfold run. simpl List.fold_left. apply IH.
  - destruct c; simpl in Hs; [|exact Hs|exact Hs].
    now apply StronglySorted_inv in Hs.
  - destruct c as [now action|id|id]; simpl in *.
    + destruct action as [payload|payload|type]; simpl.
      * now apply ordered_add_text.
      * destruct (truthy payload).
        -- now apply ordered_add_image.
        -- now apply ordered_weaken with (n := now).
      * now apply ordered_weaken with (n := now).
    + now apply ordered_remove_text.
    + now apply ordered_remove_image.
Qed.

Lemma ordered_NoDup (later : list Z) (s : State) :
  ordered later s -> NoDup (ids s).
Proof.
  intros (Ht & Hi & Hd & _). unfold ids.
  apply NoDup_app; [now apply sorted_NoDup|now apply sorted_NoDup|].
  intros i Himg Htxt. exact (Hd i Htxt Himg).
Qed.

(** What an add does to the two id lists. *)
Lemma add_text_ids (now payload : Z) (s : State) :
  text_ids (actionEffect now (Some (ADD_TEXT payload)) s) = text_ids s ++ [now] /\
  image_ids (actionEffect now (Some (ADD_TEXT payload)) s) = image_ids s.
Proof.
  unfold text_ids, image_ids. simpl. now rewrite map_app.
Qed.

Lemma add_image_ids (now : Z) (payload : string) (s : State) :
  truthy payload = true ->
  image_ids (actionEffect now (Some (ADD_IMAGE payload)) s) = image_ids s ++ [now] /\
  text_ids (actionEffect now (Some (ADD_IMAGE payload)) s) = text_ids s.
Proof.
  intro H. unfold text_ids, image_ids. simpl. rewrite H. simpl.
  now rewrite map_app.
Qed.

Lemma add_nothing (now : Z) (a : Action) (s : State) :
  creates a = false -> actionEffect now (Some a) s = s.
Proof.
  destruct a as [payload|payload|type]; simpl; intro H;
    [discriminate|now rewrite H|reflexivity].
Qed.

(** A run of adds appends the clock readings of its effective adds, in
    order, to the id lists. *)
Lemma ids_of_adds (cs : list Command) :
  forallb is_dispatch cs = true ->
  forall s,
    text_ids (run cs s) = text_ids s ++ text_readings cs /\
    image_ids (run cs s) = image_ids s ++ image_readings cs.
Proof.
  induction cs as [|c cs IH]; intros Hd s; simpl.
  - now rewrite !app_nil_r.
  - simpl in Hd. apply andb_prop in Hd as [Hc Hcs].
    destruct (IH Hcs (step s c)) as [Ht Hi].
    unfold run in *. simpl List.fold_left. rewrite Ht, Hi.
    destruct c as [now a|id|id]; [|discriminate|discriminate].
    destruct a as [payload|payload|type]; unfold step.
    + destruct (add_text_ids now payload s) as [-> ->].
      now rewrite <- app_assoc.
    + destruct (truthy payload) eqn:Hp.
      * destruct (@add_image_ids now payload s Hp) as [-> ->].
        now rewrite <- app_assoc.
      * rewrite add_nothing by exact Hp. now split.
    + now split.
Qed.

(** Whatever is removed in between, every id left is the clock reading
    of an add of its kind, or was there before the run. *)
Lemma ids_are_readings (cs : list Command) :
  forall s i,
    (In i (text_ids (run cs s)) -> In i (text_ids s) \/ In i (text_readings cs)) /\
    (In i (image_ids (run cs s)) -> In i (image_ids s) \/ In i (image_readings cs)).
Proof.
  induction cs as [|c cs IH]; intros s i; simpl; [now split; left|].
  destruct (IH (step s c) i) as [Ht Hi]. unfold run in *. simpl List.fold_left.
  split; intro Hin.
  - apply Ht in Hin as [Hin|Hin]; [|right; apply in_or_app; now right].
    destruct c as [now a|id|id]; unfold step in Hin.
    + destruct a as [payload|payload|type].
      * destruct (add_text_ids now payload s) as [E _]. rewrite E in Hin.
        apply in_app_or in Hin as [Hin|Hin]; [now left|].
        right. apply in_or_app. now left.
      * destruct (truthy payload) eqn:Hp.
        -- destruct (@add_image_ids now payload s Hp) as [_ E]. rewrite E in Hin. now left.
        -- rewrite add_nothing in Hin by exact Hp. now left.
      * now left.
    + left. unfold text_ids in *. simpl in Hin. now apply in_map_filter in Hin.
    + now left.
  - apply Hi in Hin as [Hin|Hin]; [|right; apply in_or_app; now right].
    destruct c as [now a|id|id]; unfold step in Hin.
    + destruct a as [payload|payload|type].
      * destruct (add_text_ids now payload s) as [_ E]. rewrite E in Hin. now left.
      * destruct (truthy payload) eqn:Hp.
        -- destruct (@add_image_ids now payload s Hp) as [E _]. rewrite E in Hin.
           apply in_app_or in Hin as [Hin|Hin]; [now left|].
           right. apply in_or_app. now left.
        -- rewrite add_nothing in Hin by exact Hp. now left.
      * now left.
    + now left.
    + left. unfold image_ids in *. simpl in Hin. now apply in_map_filter in Hin.
Qed.

Lemma twice_not_NoDup (l l1 l2 l3 : list Z) (n : Z) :
  l = l1 ++ n :: l2 ++ n :: l3 -> ~ NoDup l.
Proof.
  intros -> H. apply NoDup_remove_2 in H. apply H.
  apply in_or_app. right. apply in_or_app. right. now left.
Qed.

(** Two effective adds at one clock reading leave that reading twice
    among the ids. *)
Lemma same_reading_same_id (now : Z) (a1 a2 : Action) (s : State) :
  creates a1 = true -> creates a2 = true ->
  ~ NoDup (ids (run [Dispatch now a1; Dispatch now a2] s)).
Proof.
  intros H1 H2.
  change (run [Dispatch now a1; Dispatch now a2] s)
    with (actionEffect now (Some a2) (actionEffect now (Some a1) s)).
  unfold ids.
  destruct a1 as [p1|p1|t1]; [| |discriminate];
    destruct a2 as [p2|p2|t2]; try discriminate; simpl in H1, H2.
  - destruct (add_text_ids now p2 (actionEffect now (Some (ADD_TEXT p1)) s)) as [-> ->].
    destruct (add_text_ids now p1 s) as [-> ->].
    apply twice_not_NoDup with (l1 := image_ids s ++ text_ids s) (l2 := []) (l3 := []) (n := now).
    rewrite <- !app_assoc. reflexivity.
  - destruct (@add_image_ids now p2 (actionEffect now (Some (ADD_TEXT p1)) s) H2) as [-> ->].
    destruct (add_text_ids now p1 s) as [-> ->].
    apply twice_not_NoDup with (l1 := image_ids s) (l2 := text_ids s) (l3 := []) (n := now).
    rewrite <- !app_assoc. reflexivity.
  - destruct (add_text_ids now p2 (actionEffect now (Some (ADD_IMAGE p1)) s)) as [-> ->].
    destruct (@add_image_ids now p1 s H1) as [-> ->].
    apply twice_not_NoDup with (l1 := image_ids s) (l2 := text_ids s) (l3 := []) (n := now).
    rewrite <- !app_assoc. reflexivity.
  - destruct (@add_image_ids now p2 (actionEffect now (Some (ADD_IMAGE p1)) s) H2) as [-> ->].
    destruct (@add_image_ids now p1 s H1) as [-> ->].
    apply twice_not_NoDup with (l1 := image_ids s) (l2 := []) (l3 := text_ids s) (n := now).
    rewrite <- !app_assoc. reflexivity.
Qed.

End IdFacts.

(** C8, as stated, fails.  Two ADD_TEXT actions whose effects read the
    same millisecond from the clock create two elements with the same
    id. *)
Lemma same_millisecond_same_id :
  let s := TajmirTemplate.run
             [TajmirTemplate.Dispatch 1700000000000 (TajmirTemplate.ADD_TEXT 1700000000000);
              TajmirTemplate.Dispatch 1700000000000 (TajmirTemplate.ADD_TEXT 1700000000000)]
             TajmirTemplate.initialState in
  TajmirTemplate.ids s = [1700000000000; 1700000000000]%Z /\
  ~ NoDup (TajmirTemplate.ids s).
Proof.
  simpl. split; [reflexivity|].
  intro H. inversion H as [|a l Hin _]; subst. apply Hin. now left.
Qed.

(** C8, amended.  Every element created by an add gets the clock
    reading of its creation as id and is appended last to its
    collection: a run of adds leaves each collection's ids equal to the
    clock readings of its adds, in creation order, and whatever is
    removed in between, every id left is such a reading.  Two adds
    that read the same clock value receive the same id, so ids are not
    unique in general.  Over a run from the empty collections in which
    the clock readings of the adds are strictly increasing, the ids of
    all elements are pairwise distinct and each collection lists its
    elements in strictly increasing id order. *)
Theorem ids_distinct_when_clock_increases :
  forall cs : list TajmirTemplate.Command,
    let s := TajmirTemplate.run cs TajmirTemplate.initialState in
    (forall (now payload : Z) (s0 : TajmirTemplate.State),
       let s1 := TajmirTemplate.actionEffect now
                   (Some (TajmirTemplate.ADD_TEXT payload)) s0 in
       TajmirTemplate.text_ids s1 = TajmirTemplate.text_ids s0 ++ [now] /\
       TajmirTemplate.image_ids s1 = TajmirTemplate.image_ids s0) /\
    (forall (now : Z) (payload : string) (s0 : TajmirTemplate.State),
       TajmirTemplate.truthy payload = true ->
       let s1 := TajmirTemplate.actionEffect now
                   (Some (TajmirTemplate.ADD_IMAGE payload)) s0 in
       TajmirTemplate.image_ids s1 = TajmirTemplate.image_ids s0 ++ [now] /\
       TajmirTemplate.text_ids s1 = TajmirTemplate.text_ids s0) /\
    (forallb TajmirTemplate.is_dispatch cs = true ->
       TajmirTemplate.text_ids s = TajmirTemplate.text_readings cs /\
       TajmirTemplate.image_ids s = TajmirTemplate.image_readings cs) /\
    (forall i, In i (TajmirTemplate.text_ids s) ->
       In i (TajmirTemplate.text_readings cs)) /\
    (forall i, In i (TajmirTemplate.image_ids s) ->
       In i (TajmirTemplate.image_readings cs)) /\
    (forall (now : Z) (a1 a2 : TajmirTemplate.Action) (s0 : TajmirTemplate.State),
       TajmirTemplate.creates a1 = true -> TajmirTemplate.creates a2 = true ->
       ~ NoDup (TajmirTemplate.ids
                  (TajmirTemplate.run
                     [TajmirTemplate.Dispatch now a1; TajmirTemplate.Dispatch now a2]
                     s0))) /\
    (StronglySorted Z.lt (TajmirTemplate.readings cs) ->
       NoDup (TajmirTemplate.ids s) /\
       StronglySorted Z.lt (TajmirTemplate.text_ids s) /\
       StronglySorted Z.lt (TajmirTemplate.image_ids s)).
Proof.
  intros cs s.
  split; [intros now payload s0; apply add_text_ids|].
  split; [intros now payload s0 Hp; now apply add_image_ids|].
  split; [intro Hd; exact (ids_of_adds cs Hd TajmirTemplate.initialState)|].
  split.
  { intros i Hin.
    destruct (proj1 (ids_are_readings cs TajmirTemplate.initialState i) Hin)
      as [[]|H]; exact H. }
  split.
  { intros i Hin.
    destruct (proj2 (ids_are_readings cs TajmirTemplate.initialState i) Hin)
      as [[]|H]; exact H. }
  split; [intros now a1 a2 s0; apply same_reading_same_id|].
  intro Hs.
  assert (Ho : TajmirTemplate.ordered [] s).
  { apply ordered_run; [exact Hs|].
    unfold TajmirTemplate.ordered. simpl. repeat split; try constructor; auto;
      intros i n [] . }
  split; [now apply ordered_NoDup with (later := [])|].
  destruct Ho as (Ht & Hi & _). auto.
Qed.

Lemma ids_distinct_example :
  let cs := [TajmirTemplate.Dispatch 10 (TajmirTemplate.ADD_TEXT 10);
             TajmirTemplate.Dispatch 20 (TajmirTemplate.ADD_IMAGE "data:a");
             TajmirTemplate.Dispatch 30 (TajmirTemplate.ADD_TEXT 30);
             TajmirTemplate.RemoveText 10;
             TajmirTemplate.Dispatch 40 (TajmirTemplate.ADD_TEXT 40)] in
  StronglySorted Z.lt (TajmirTemplate.readings cs) /\
  TajmirTemplate.ids (TajmirTemplate.run cs TajmirTemplate.initialState)
    = [20; 30; 40]%Z /\
  NoDup (TajmirTemplate.ids (TajmirTemplate.run cs TajmirTemplate.initialState)).
Proof.
  intro cs.
  assert (Hs : StronglySorted Z.lt (TajmirTemplate.readings cs)).
  { simpl. repeat constructor. }
  split; [exact Hs|]. split; [reflexivity|].
  destruct (ids_distinct_when_clock_increases cs) as (_ & _ & _ & _ & _ & _ & H).
  exact (proj1 (H Hs)).
Defined.

(* ----------------------------------------------------------------- *)
(** ** Persistence failures *)

Section PersistenceFacts.
Import LocalStorage Persistence.

(** The guarded block of the load effect, by cases on the two loads. *)
Lemma loadDraggables_after_loads (ls : LocalStorage.t) (c : Component) :
  loadDraggables ls c =
  (after_loads
     (load_outcome (read_fault ls key_text) (draggables_text ls))
     (load_outcome (read_fault ls key_img) (draggables_img ls)) c,
   Return tt).
Proof.
  unfold loadDraggables, try_catch, bind, lift, modify, ret,
    getItem_text, getItem_img, guarded, after_loads, load_outcome.
  destruct (read_fault ls key_text); [reflexivity|].
  destruct (draggables_text ls) as [[|v| |]|]; simpl;
    destruct (read_fault ls key_img); try reflexivity;
    destruct (draggables_img ls) as [[|v'| |]|]; reflexivity.
Qed.

(** What the guarded block does to each part of the component depends
    on that part only. *)
Lemma after_loads_parts (text : Loaded (list TextBlock.t))
  (img : Loaded (list ImageBlock.t)) (c : Component) :
  innerHTML (after_loads text img c) = innerHTML c /\
  console (after_loads text img c) = console c ++ caught text img /\
  forall c0, blocks c0 = blocks c ->
    blocks (after_loads text img c0) = blocks (after_loads text img c).
Proof.
  destruct text as [|[v|]|e], img as [|[v'|]|e']; simpl;
    rewrite ?app_nil_r; repeat split; intros c0 Hb; simpl; now rewrite ?Hb.
Qed.

Lemma after_loads_render (text : Loaded (list TextBlock.t))
  (img : Loaded (list ImageBlock.t)) (c : Component) :
  render c = Return tt ->
  render (after_loads text img c) =
  if takes_other_value text img then Threw (Async.Error "TypeError") else Return tt.
Proof.
  unfold render. intro H.
  destruct (image_is_array c) eqn:Hi; [|discriminate].
  destruct (text_is_array c) eqn:Ht; [|discriminate].
  destruct text as [|[v|]|e], img as [|[v'|]|e']; simpl; rewrite ?Hi, ?Ht; reflexivity.
Qed.

(** What one [loadContent] can do: throw the read fault of its key and
    change nothing, or end normally having touched only the markup. *)
Lemma loadContent_cases (ls : LocalStorage.t) (key : string) (c : Component) :
  (exists e, read_fault ls key = Some e /\ loadContent ls key c = (c, Threw e)) \/
  (read_fault ls key = None /\
   exists c', loadContent ls key c = (c', Return tt) /\
              blocks c' = blocks c /\ console c' = console c /\
              text_is_array c' = text_is_array c /\
              image_is_array c' = image_is_array c).
Proof.
  unfold loadContent, bind, lift, getItem, guarded.
  destruct (read_fault ls key) as [e|]; [left; eauto|right].
  split; [reflexivity|].
  destruct (lookup key (markup ls)) as [html|];
    [|eexists; repeat split; reflexivity].
  destruct (negb (String.eqb html EmptyString));
    eexists; repeat split; reflexivity.
Qed.

(** With the eight regions readable, the load effect is their loads,
    which touch the markup only, followed by the guarded block. *)
Lemma loadEffect_regions_readable (ls : LocalStorage.t) (c : Component) :
  (forall key, In key NewPage.region_keys -> read_fault ls key = None) ->
  exists c0, loadEffect ls c = loadDraggables ls c0 /\
             blocks c0 = blocks c /\ console c0 = console c.
Proof.
  intro Hr. unfold loadEffect, bind.
  do 8 (match goal with
        | |- context [loadContent ls ?k ?c0] =>
            let E := fresh "E" in
            let He := fresh "He" in
            let Hb := fresh "Hb" in
            let Hc := fresh "Hc" in
            destruct (loadContent_cases ls k c0)
              as [(? & He & _)|(_ & ? & E & Hb & Hc & _)];
            [rewrite Hr in He by (simpl; tauto); discriminate He
            |rewrite E; clear E]
        end).
  eexists. split; [reflexivity|]. split; congruence.
Qed.

End PersistenceFacts.

(** C9, as stated, fails.  With the quota exhausted the two save
    effects and [handleInput] end with the exception of [setItem]:
    nothing catches it.  With access to the store denied the load
    effect ends with the exception of its first [getItem], before its
    [try] block is reached. *)
Lemma storage_failure_propagates :
  Persistence.saveTextEffect Persistence.full_store TajmirTemplate.initialState
    = LocalStorage.Threw (Async.Error "QuotaExceededError") /\
  Persistence.saveImageEffect Persistence.full_store TajmirTemplate.initialState
    = LocalStorage.Threw (Async.Error "QuotaExceededError") /\
  Persistence.handleInput Persistence.full_store "tajmir_doc_main_body" "<b>Dear Sir</b>"
    = LocalStorage.Threw (Async.Error "QuotaExceededError") /\
  snd (Persistence.loadEffect Persistence.denied_store Persistence.mounted)
    = LocalStorage.Threw (Async.Error "SecurityError").
Proof. repeat split. Qed.

(** C9, amended.  Only what is thrown inside the [try] block of the
    load effect is handled.  The block never throws, whatever the
    store: each collection record is read and, unless it is missing or
    empty, parsed; when the read throws or [JSON.parse] rejects the
    text, for either collection, nothing more is loaded and exactly
    that exception is logged, once, as "Error loading blocks"; a text
    collection loaded before a failure of the image record keeps its
    loaded value; without a failure nothing is logged; the editable
    regions are left alone.  With the eight region reads before the
    block succeeding, the whole load effect ends normally with these
    collections and this console.  A record that parses to a value
    that is not an array is not a failure to the block: it is put in
    the state unchecked, and the next render throws a TypeError. *)
Theorem load_failure_is_swallowed :
  forall (ls : LocalStorage.t) (c : Persistence.Component),
    let text :=
      Persistence.load_outcome
        (LocalStorage.read_fault ls LocalStorage.key_text)
        (LocalStorage.draggables_text ls) in
    let img :=
      Persistence.load_outcome
        (LocalStorage.read_fault ls LocalStorage.key_img)
        (LocalStorage.draggables_img ls) in
    let c' := fst (Persistence.loadDraggables ls c) in
    snd (Persistence.loadDraggables ls c) = LocalStorage.Return tt /\
    c' = Persistence.after_loads text img c /\
    (forall e,
       LocalStorage.read_fault ls LocalStorage.key_text = Some e \/
       (LocalStorage.read_fault ls LocalStorage.key_text = None /\
        LocalStorage.draggables_text ls = Some LocalStorage.Malformed /\
        e = Async.Error "SyntaxError") ->
       c' = Persistence.console_error "Error loading blocks" e c) /\
    (forall e v,
       LocalStorage.read_fault ls LocalStorage.key_text = None ->
       LocalStorage.draggables_text ls = Some (LocalStorage.Serialized v) ->
       LocalStorage.read_fault ls LocalStorage.key_img = Some e \/
       (LocalStorage.read_fault ls LocalStorage.key_img = None /\
        LocalStorage.draggables_img ls = Some LocalStorage.Malformed /\
        e = Async.Error "SyntaxError") ->
       c' = Persistence.console_error "Error loading blocks" e
              (Persistence.setTextBlocks (LocalStorage.Array v) c)) /\
    Persistence.innerHTML c' = Persistence.innerHTML c /\
    Persistence.console c' = Persistence.console c ++ Persistence.caught text img /\
    (Persistence.render c = LocalStorage.Return tt ->
     Persistence.render c' =
       if Persistence.takes_other_value text img
       then LocalStorage.Threw (Async.Error "TypeError")
       else LocalStorage.Return tt) /\
    ((forall key, In key NewPage.region_keys ->
        LocalStorage.read_fault ls key = None) ->
     snd (Persistence.loadEffect ls c) = LocalStorage.Return tt /\
     Persistence.blocks (fst (Persistence.loadEffect ls c)) = Persistence.blocks c' /\
     Persistence.console (fst (Persistence.loadEffect ls c)) = Persistence.console c').
Proof.
  intros ls c text img c'. subst c'.
  rewrite loadDraggables_after_loads. fold text img. simpl fst. simpl snd.
  destruct (after_loads_parts text img c) as (Hh & Hc & Hb).
  split; [reflexivity|]. split; [reflexivity|].
  split.
  { intros e [Hf|(Hf & Hr & ->)]; subst text; unfold Persistence.load_outcome;
      rewrite Hf, ?Hr; reflexivity. }
  split.
  { intros e v Hf Hr [Hi|(Hi & Hm & ->)]; subst text img;
      unfold Persistence.load_outcome; rewrite Hf, Hr, Hi, ?Hm; reflexivity. }
  split; [exact Hh|]. split; [exact Hc|].
  split; [apply after_loads_render|].
  intro Hr.
  destruct (loadEffect_regions_readable ls c Hr) as (c0 & -> & Hb0 & Hc0).
  rewrite loadDraggables_after_loads. fold text img. simpl fst. simpl snd.
  split; [reflexivity|]. split; [now apply Hb|].
  destruct (after_loads_parts text img c0) as (_ & -> & _).
  now rewrite Hc, Hc0.
Qed.

(** Loading from a store whose image record is cut short, after a good
    text record: nothing is thrown, the text element is loaded, the
    image collection stays empty, the parse error is logged. *)
Lemma load_corrupt_store :
  (forall key, In key NewPage.region_keys ->
     LocalStorage.read_fault Persistence.corrupt_images_store key = None) /\
  snd (Persistence.loadEffect Persistence.corrupt_images_store Persistence.mounted)
    = LocalStorage.Return tt /\
  Persistence.blocks
    (fst (Persistence.loadEffect Persistence.corrupt_images_store Persistence.mounted))
    = {| TajmirTemplate.textBlocks :=
           [{| TextBlock.id := 1; TextBlock.x := 50; TextBlock.y := 200 |}];
         TajmirTemplate.imageBlocks := [] |} /\
  Persistence.console
    (fst (Persistence.loadEffect Persistence.corrupt_images_store Persistence.mounted))
    = [("Error loading blocks"%string, Async.Error "SyntaxError")] /\
  Persistence.render Persistence.mounted = LocalStorage.Return tt /\
  Persistence.render
    (fst (Persistence.loadDraggables Persistence.corrupt_images_store
            Persistence.mounted))
    = LocalStorage.Return tt.
Proof.
  assert (Hr : forall key, In key NewPage.region_keys ->
            LocalStorage.read_fault Persistence.corrupt_images_store key = None)
    by (intros key _; reflexivity).
  split; [exact Hr|].
  destruct (load_failure_is_swallowed Persistence.corrupt_images_store
              Persistence.mounted) as (_ & _ & _ & _ & _ & _ & Hrender & Hload).
  destruct (Hload Hr) as (Hret & Hblocks & Hconsole).
  split; [exact Hret|]. split; [exact Hblocks|]. split; [exact Hconsole|].
  split; [reflexivity|]. exact (Hrender eq_refl).
Defined.

(** A text record cut short: the image record after it is not loaded
    although it is good. *)
Example load_corrupt_text_store :
  Persistence.loadEffect Persistence.corrupt_store Persistence.mounted
    = ({| Persistence.blocks := TajmirTemplate.initialState;
          Persistence.text_is_array := true;
          Persistence.image_is_array := true;
          Persistence.innerHTML := [];
          Persistence.console :=
            [("Error loading blocks"%string, Async.Error "SyntaxError")] |},
       LocalStorage.Return tt).
Proof. reflexivity. Qed.

(** A text record "null": the load effect ends normally and logs
    nothing; the render that follows throws. *)
Example load_null_store :
  Persistence.loadEffect Persistence.null_store Persistence.mounted
    = ({| Persistence.blocks := TajmirTemplate.initialState;
          Persistence.text_is_array := false;
          Persistence.image_is_array := true;
          Persistence.innerHTML := [];
          Persistence.console := [] |}, LocalStorage.Return tt) /\
  Persistence.render
    (fst (Persistence.loadEffect Persistence.null_store Persistence.mounted))
    = LocalStorage.Threw (Async.Error "TypeError").
Proof. split; reflexivity. Qed.

(* ================================================================= *)
(** * Further properties of the code *)

(* ----------------------------------------------------------------- *)
(** ** The zoom value *)

Section ZoomFacts.
Local Open Scope Q_scope.

Lemma clamp_in_range (x : Q) : Zoom.in_range (Qmin (Qmax x (2 # 10)) 3).
Proof.
  split.
  - apply Q.min_glb; [apply Q.le_max_r|lra].
  - apply Q.le_min_r.
Qed.

Lemma zoomIn_in_range (s : App.AppState) :
  Zoom.in_range (App.zoom s) -> Zoom.in_range (App.zoom (Zoom.handleZoomIn s)).
Proof.
  intros [Hlo Hhi]. simpl. split.
  - apply Q.min_glb; lra.
  - apply Q.le_min_r.
Qed.

Lemma zoomOut_in_range (s : App.AppState) :
  Zoom.in_range (App.zoom s) -> Zoom.in_range (App.zoom (Zoom.handleZoomOut s)).
Proof.
  intros [Hlo Hhi]. simpl. split.
  - apply Q.le_max_r.
  - apply Q.max_lub; lra.
Qed.

Lemma zoomFit_bounds (w : Q) (s : App.AppState) :
  2 # 10 <= App.zoom (Zoom.handleZoomFit w s) /\
  App.zoom (Zoom.handleZoomFit w s) <= 2.
Proof.
  simpl. split.
  - apply Q.min_glb; [apply Q.le_max_r|lra].
  - apply Q.le_min_r.
Qed.

(** A pipeline leaves the zoom it was started at. *)
Lemma run_pipeline_zoom (env : Async.Env App.AppState)
  (pageRef : option App.HTMLDivElement) (a : App.AppState) :
  App.zoom (Editor.run_pipeline env (App.handleExportPDF (App.zoom a) pageRef) a)
    = App.zoom a /\
  App.zoom (Editor.run_pipeline env (App.handleCopyImage (App.zoom a) pageRef) a)
    = App.zoom a.
Proof.
  unfold Editor.run_pipeline. destruct pageRef as [page|]; [|split; reflexivity].
  split.
  - unfold App.handleExportPDF. rewrite exec_upd_seq.
    apply pipeline_cleanup. intros e w'. reflexivity.
  - unfold App.handleCopyImage. rewrite exec_upd_seq.
    apply pipeline_cleanup. intros e w'. reflexivity.
Qed.

Lemma onSetZoom_invariant (z : option Q) (s : Editor.State) :
  (forall x, z = Some x -> Zoom.in_range x) ->
  Editor.zoom_invariant s -> Editor.zoom_invariant (Editor.onSetZoom z s).
Proof.
  intros Hz [Hs Hd]. destruct z as [x|]; [|split; assumption].
  split; [now apply Hz|exact Hd].
Qed.

Lemma zoom_invariant_step (s : Editor.State) (ev : Editor.Event) :
  Editor.well_formed ev -> Editor.zoom_invariant s ->
  Editor.zoom_invariant (Editor.step s ev).
Proof.
  intros Hwf [Hz Hd]. destruct ev; simpl in *.
  - split; [now apply zoomIn_in_range|exact Hd].
  - split; [now apply zoomOut_in_range|exact Hd].
  - split; [|exact Hd]. simpl. unfold Zoom.in_range. split; lra.
  - split; [|exact Hd].
    destruct (zoomFit_bounds innerWidth (Editor.app s)) as [H1 H2].
    split; [exact H1|]. apply Qle_trans with (y := 2); [exact H2|lra].
  - split; [|exact Hd]. unfold Zoom.autoFit.
    destruct (Qlt_le_dec innerWidth 1024); [|exact Hz].
    destruct (zoomFit_bounds innerWidth (Editor.app s)) as [H1 H2].
    split; [exact H1|]. apply Qle_trans with (y := 2); [exact H2|lra].
  - split; [exact Hz|]. unfold LetterheadWorkspace.handleTouchStart.
    destruct (Nat.eqb_spec (LetterheadWorkspace.touches e) 2) as [H2|H2]; simpl.
    + intros d Hsome. inversion Hsome; subst. now apply Hwf.
    + exact Hd.
  - apply onSetZoom_invariant; [|split; assumption].
    intros x Hx. unfold LetterheadWorkspace.handleTouchMove in Hx.
    destruct (Nat.eqb (LetterheadWorkspace.touches e) 2); [|discriminate].
    destruct (LetterheadWorkspace.initialDistance (Editor.workspace s));
      [|discriminate].
    inversion Hx; subst. apply clamp_in_range.
  - split; [exact Hz|]. simpl. discriminate.
  - apply onSetZoom_invariant; [|split; assumption].
    intros x Hx. unfold LetterheadWorkspace.handleWheel in Hx.
    destruct (LetterheadWorkspace.ctrlKey e || LetterheadWorkspace.metaKey e)%bool;
      [|discriminate].
    inversion Hx; subst. apply clamp_in_range.
  - destruct (Qeq_bool (App.zoom (Editor.app s))
                (LetterheadWorkspace.zoom (Editor.workspace s)));
      [split; assumption|].
    split; [exact Hz|]. simpl. discriminate.
  - split; [|exact Hd]. simpl.
    now rewrite (proj1 (run_pipeline_zoom env pageRef (Editor.app s))).
  - split; [|exact Hd]. simpl.
    now rewrite (proj2 (run_pipeline_zoom env pageRef (Editor.app s))).
Qed.

End ZoomFacts.

(** X1.  Starting from a zoom in [0.2, 3.0] (the editor starts at 1),
    no run of events that write the zoom leaves that range: the four
    toolbar controls, the mount-time fit, two-finger pinch, ctrl/cmd
    wheel, re-runs of the workspace effect, and both capture pipelines
    whatever their outcome.  A two-finger touch being started with the
    fingers apart, the pinch distance recorded is positive, so the
    scale factor never divides by zero. *)
Theorem zoom_stays_in_range :
  forall (evs : list Editor.Event) (s : Editor.State),
    Forall Editor.well_formed evs ->
    Zoom.in_range (App.zoom (Editor.app s)) ->
    (forall d, LetterheadWorkspace.initialDistance (Editor.workspace s) = Some d ->
               (0 < d)%Q) ->
    Zoom.in_range (App.zoom (Editor.app (Editor.run evs s))) /\
    (forall d, LetterheadWorkspace.initialDistance
                 (Editor.workspace (Editor.run evs s)) = Some d ->
               (0 < d)%Q).
Proof.
  intros evs. induction evs as [|ev evs IH]; intros s Hwf Hz Hd.
  - split; assumption.
  - inversion Hwf as [|? ? Hev Hevs]; subst.
    unfold Editor.run. simpl. 
    destruct (@zoom_invariant_step s ev Hev (conj Hz Hd)) as [Hz' Hd'].
    now apply IH.
Qed.

Lemma zoom_stays_in_range_example :
  let pinch := {| LetterheadWorkspace.touches := 2;
                  LetterheadWorkspace.distance := 100 |} in
  let spread := {| LetterheadWorkspace.touches := 2;
                   LetterheadWorkspace.distance := 1000 |} in
  let evs := [Editor.ZoomIn; Editor.Render; Editor.TouchStart pinch;
              Editor.TouchMove spread;
              Editor.ExportPDF Scenario.capture_fails (Some App.A4Page)] in
  Forall Editor.well_formed evs /\
  (App.zoom (Editor.app (Editor.run evs Editor.initial)) == 3)%Q /\
  Zoom.in_range (App.zoom (Editor.app (Editor.run evs Editor.initial))).
Proof.
  intros pinch spread evs.
  assert (Hwf : Forall Editor.well_formed evs).
  { repeat constructor. }
  split; [exact Hwf|]. split; [reflexivity|].
  apply (@zoom_stays_in_range evs Editor.initial Hwf).
  - split; unfold Qle; simpl; lia.
  - intros d H. discriminate H.
Defined.



(* ----------------------------------------------------------------- *)
(** ** The capture pipelines, step by step *)

(** X3.  Both pipelines, started with the page mounted, make exactly
    one external call before the rasterisation, the 300 ms settle
    delay, and start the rasterisation (scale 4 for PDF, 3 for the
    clipboard) in whatever state the handlers that ran during the
    delay left of "busy, zoom 1": the zoom is not forced again after
    the delay.  So the page is captured at zoom 1 with the busy flag
    set when nothing wrote the state meanwhile, and at the new zoom
    when a zoom button was pressed during the delay. *)
Theorem capture_starts_after_settle_delay :
  forall (env : Async.Env App.AppState)
         (w : Async.World App.AppState App.ExtCall)
         (z : Q) (page : App.HTMLDivElement),
    let settled :=
      {| Async.state :=
           Async.interfere env (List.length (Async.calls w))
             (App.setZoom 1 (App.setIsProcessing true (Async.state w)));
         Async.calls := Async.calls w ++ [App.Delay 300] |} in
    Pipeline.run_until App.is_capture env (App.handleExportPDF z (Some page)) w
      = (settled, Some (App.Html2canvas 4)) /\
    Pipeline.run_until App.is_capture env (App.handleCopyImage z (Some page)) w
      = (settled, Some (App.Html2canvas 3)) /\
    (Pipeline.undisturbed env ->
       App.zoom (Async.state settled) = 1 /\
       App.isProcessing (Async.state settled) = true /\
       App.toastMsg (Async.state settled) = App.toastMsg (Async.state w) /\
       App.console (Async.state settled) = App.console (Async.state w)).
Proof.
  intros env w z page settled.
  split; [reflexivity|]. split; [reflexivity|].
  intro Hid. subst settled. simpl. rewrite Hid. repeat split.
Qed.

(** Undisturbed, the capture starts at zoom 1; with the zoom-in button
    pressed during the delay it starts at zoom 2. *)
Lemma capture_zoom_example :
  Pipeline.undisturbed Scenario.calm /\
  App.zoom
    (Async.state
       (fst (Pipeline.run_until App.is_capture Scenario.calm
               (App.handleExportPDF (3 # 2) (Some App.A4Page))
               (Scenario.idle_at (3 # 2))))) = 1 /\
  App.zoom
    (Async.state
       (fst (Pipeline.run_until App.is_capture Pipeline.zoom_pressed_during_delay
               (App.handleExportPDF (3 # 2) (Some App.A4Page))
               (Scenario.idle_at (3 # 2))))) = 2.
Proof.
  assert (Hid : Pipeline.undisturbed Scenario.calm) by (intros n s; reflexivity).
  split; [exact Hid|].
  destruct (capture_starts_after_settle_delay Scenario.calm
              (Scenario.idle_at (3 # 2)) (3 # 2) App.A4Page) as (Hpdf & _ & Hz).
  split.
  - rewrite Hpdf. exact (proj1 (Hz Hid)).
  - destruct (capture_starts_after_settle_delay Pipeline.zoom_pressed_during_delay
                (Scenario.idle_at (3 # 2)) (3 # 2) App.A4Page) as (Hpdf' & _).
    rewrite Hpdf'. reflexivity.
Defined.

Ltac normalise_log Hid :=
  simpl; rewrite ?Hid; simpl;
  rewrite ?length_app; simpl; rewrite ?Nat.add_1_r.

Ltac settle_in_order env Hid :=
  normalise_log Hid;
  repeat match goal with
         | |- context [Async.answer env ?n] =>
             destruct (Async.answer env n); normalise_log Hid
         end.

(** X4.  With nothing else writing the state meanwhile, how a PDF
    export ends is decided by the outcomes of its six calls after the
    settle delay (whose own outcome is ignored).  If all six succeed,
    all seven calls were made in order, nothing was logged and the
    toast says "PDF Downloaded successfully".  Otherwise the calls stop
    with the first one that fails, the error logged is the error of
    that call, and the toast says "Failed to generate PDF".  Either
    way the handler returns normally with the original zoom and the
    busy flag cleared. *)
Theorem export_reports_its_outcome :
  forall (env : Async.Env App.AppState)
         (w : Async.World App.AppState App.ExtCall)
         (z : Q) (page : App.HTMLDivElement),
    Pipeline.undisturbed env ->
    let n := List.length (Async.calls w) in
    let r := Async.exec env (App.handleExportPDF z (Some page)) w in
    snd r = Async.Completed /\
    match Pipeline.first_rejection (Pipeline.answers env (S n) 6) with
    | None =>
        Async.calls (fst r) = Async.calls w ++ Pipeline.pdf_calls /\
        Async.state (fst r) =
          {| App.zoom := z;
             App.toastMsg := Some "PDF Downloaded successfully"%string;
             App.isProcessing := false;
             App.console := App.console (Async.state w) |}
    | Some (k, e) =>
        Async.calls (fst r) =
          Async.calls w ++ List.firstn (k + 2) Pipeline.pdf_calls /\
        Async.state (fst r) =
          {| App.zoom := z;
             App.toastMsg := Some "Failed to generate PDF"%string;
             App.isProcessing := false;
             App.console := App.console (Async.state w) ++ [e] |}
    end.
Proof.
  intros env [s cs] z page Hid n r. subst r n.
  unfold Pipeline.undisturbed in Hid. unfold Pipeline.answers.
  settle_in_order env Hid; repeat split; rewrite <- ?app_assoc; reflexivity.
Qed.

Lemma export_reports_failure_example :
  Pipeline.undisturbed Scenario.capture_fails /\
  Async.state
    (fst (Async.exec Scenario.capture_fails
            (App.handleExportPDF (3 # 2) (Some App.A4Page))
            (Scenario.idle_at (3 # 2))))
  = {| App.zoom := 3 # 2;
       App.toastMsg := Some "Failed to generate PDF"%string;
       App.isProcessing := false;
       App.console := [Async.Error "html2canvas failed"] |}.
Proof.
  assert (Hid : Pipeline.undisturbed Scenario.capture_fails)
    by (intros n s; reflexivity).
  split; [exact Hid|].
  exact (proj2 (proj2 (@export_reports_its_outcome Scenario.capture_fails
                         (Scenario.idle_at (3 # 2)) (3 # 2) App.A4Page Hid))).
Defined.

(** X5.  With nothing else writing the state meanwhile, the clipboard
    pipeline reports only failure: if the rasterisation and the
    [toBlob] call go through it ends with the toast and the console as
    they were; otherwise the calls stop with the one that fails, its
    error is logged and the toast says "Failed to copy image".  The
    report of success is left to the [toBlob] callback, which runs
    after the pipeline has returned, so that what it throws is caught
    by nothing: for an empty canvas it ends at once with the uncaught
    error "Canvas is empty" and shows no toast; when the ClipboardItem
    constructor throws, with that error uncaught and no toast; when the
    clipboard write is fulfilled the toast says "Copied to clipboard!",
    when it is rejected "Clipboard write failed (browser limitation)",
    and nothing is thrown. *)
Theorem copy_reports_in_callback :
  forall (env : Async.Env App.AppState)
         (w : Async.World App.AppState App.ExtCall)
         (z : Q) (page : App.HTMLDivElement),
    Pipeline.undisturbed env ->
    let n := List.length (Async.calls w) in
    let r := Async.exec env (App.handleCopyImage z (Some page)) w in
    (snd r = Async.Completed /\
     match Pipeline.first_rejection (Pipeline.answers env (S n) 2) with
     | None =>
         Async.calls (fst r) = Async.calls w ++ Pipeline.copy_calls /\
         Async.state (fst r) =
           {| App.zoom := z;
              App.toastMsg := App.toastMsg (Async.state w);
              App.isProcessing := false;
              App.console := App.console (Async.state w) |}
     | Some (k, e) =>
         Async.calls (fst r) =
           Async.calls w ++ List.firstn (k + 2) Pipeline.copy_calls /\
         Async.state (fst r) =
           {| App.zoom := z;
              App.toastMsg := Some "Failed to copy image"%string;
              App.isProcessing := false;
              App.console := App.console (Async.state w) ++ [e] |}
     end) /\
    Async.exec env (App.toBlobCallback None) w
      = (w, Async.Uncaught (Async.Error "Canvas is empty")) /\
    Async.exec env (App.toBlobCallback (Some App.PngBlob)) w
      = match Async.answer env n with
        | Async.Rejected e =>
            (Async.record_call App.NewClipboardItem w, Async.Uncaught e)
        | Async.Fulfilled =>
            (Async.set_state
               (App.setToastMsg
                  (Some (match Async.answer env (S n) with
                         | Async.Fulfilled => "Copied to clipboard!"
                         | Async.Rejected _ =>
                             "Clipboard write failed (browser limitation)"
                         end)%string))
               (Async.record_call App.ClipboardWrite
                  (Async.record_call App.NewClipboardItem w)),
             Async.Completed)
        end.
Proof.
  intros env [s cs] z page Hid n r. subst r n.
  unfold Pipeline.undisturbed in Hid. unfold Pipeline.answers.
  split; [|split; [reflexivity|]].
  - settle_in_order env Hid; repeat split; rewrite <- ?app_assoc; reflexivity.
  - settle_in_order env Hid; unfold Async.set_state, Async.record_call; simpl;
      rewrite ?Hid; reflexivity.
Qed.

Lemma copy_empty_canvas_example :
  Pipeline.undisturbed Scenario.calm /\
  Async.exec Scenario.calm (App.toBlobCallback None) (Scenario.idle_at 1)
    = (Scenario.idle_at 1, Async.Uncaught (Async.Error "Canvas is empty")) /\
  Async.exec Scenario.calm (App.toBlobCallback (Some App.PngBlob)) (Scenario.idle_at 1)
    = ({| Async.state :=
            {| App.zoom := 1; App.toastMsg := Some "Copied to clipboard!"%string;
               App.isProcessing := false; App.console := [] |};
          Async.calls := [App.NewClipboardItem; App.ClipboardWrite] |},
       Async.Completed).
Proof.
  assert (Hid : Pipeline.undisturbed Scenario.calm) by (intros n s; reflexivity).
  split; [exact Hid|].
  exact (proj2 (@copy_reports_in_callback Scenario.calm
                  (Scenario.idle_at 1) 1 App.A4Page Hid)).
Defined.

(* ----------------------------------------------------------------- *)
(** ** Adding and removing elements *)

Section CollectionFacts.
Local Open Scope Z_scope.
Import TajmirTemplate.

Lemma filter_keeps_all (A : Type) (keep : A -> bool) (l : list A) :
  (forall a, In a l -> keep a = true) -> List.filter keep l = l.
Proof.
  induction l as [|a l IH]; intro H; [reflexivity|].
  simpl. rewrite (H a (or_introl eq_refl)). f_equal.
  apply IH. intros b Hb. apply H. now right.
Qed.

Lemma text_id_not_removed (id : Z) (l : list TextBlock.t) :
  ~ In id (List.map TextBlock.id l) ->
  List.filter (fun b => negb (TextBlock.id b =? id)) l = l.
Proof.
  intro Hn. apply filter_keeps_all. intros b Hb.
  apply negb_true_iff. apply Z.eqb_neq. intros <-.
  apply Hn. now apply in_map.
Qed.

Lemma image_id_not_removed (id : Z) (l : list ImageBlock.t) :
  ~ In id (List.map ImageBlock.id l) ->
  List.filter (fun b => negb (ImageBlock.id b =? id)) l = l.
Proof.
  intro Hn. apply filter_keeps_all. intros b Hb.
  apply negb_true_iff. apply Z.eqb_neq. intros <-.
  apply Hn. now apply in_map.
Qed.

Lemma text_id_removed (id : Z) (l : list TextBlock.t) :
  ~ In id (List.map TextBlock.id
             (List.filter (fun b => negb (TextBlock.id b =? id)) l)).
Proof.
  intro Hin. apply in_map_iff in Hin as (b & Hb & Hf).
  apply filter_In in Hf as [_ Hk]. apply negb_true_iff in Hk.
  apply Z.eqb_neq in Hk. contradiction.
Qed.

Lemma image_id_removed (id : Z) (l : list ImageBlock.t) :
  ~ In id (List.map ImageBlock.id
             (List.filter (fun b => negb (ImageBlock.id b =? id)) l)).
Proof.
  intro Hin. apply in_map_iff in Hin as (b & Hb & Hf).
  apply filter_In in Hf as [_ Hk]. apply negb_true_iff in Hk.
  apply Z.eqb_neq in Hk. contradiction.
Qed.

End CollectionFacts.

(** X6.  Removing by id takes out every element of that kind carrying
    the id (two text blocks created in the same millisecond go
    together) and nothing of the other kind, even under the same id;
    removing an id that no element of the kind carries changes
    nothing, and so does removing a second time. *)
Theorem remove_takes_every_element_with_the_id :
  forall (id : Z) (s : TajmirTemplate.State),
    let t := TajmirTemplate.removeTextBlock id s in
    let i := TajmirTemplate.removeImageBlock id s in
    (~ In id (TajmirTemplate.text_ids t) /\
     TajmirTemplate.imageBlocks t = TajmirTemplate.imageBlocks s /\
     TajmirTemplate.removeTextBlock id t = t /\
     (~ In id (TajmirTemplate.text_ids s) -> t = s)) /\
    (~ In id (TajmirTemplate.image_ids i) /\
     TajmirTemplate.textBlocks i = TajmirTemplate.textBlocks s /\
     TajmirTemplate.removeImageBlock id i = i /\
     (~ In id (TajmirTemplate.image_ids s) -> i = s)).
Proof.
  intros id [texts images] t i. subst t i.
  unfold TajmirTemplate.removeTextBlock, TajmirTemplate.removeImageBlock,
    TajmirTemplate.setTextBlocks, TajmirTemplate.setImageBlocks,
    TajmirTemplate.text_ids, TajmirTemplate.image_ids. simpl.
  split; (split; [|split; [reflexivity|split]]).
  - apply text_id_removed.
  - f_equal. apply text_id_not_removed. apply text_id_removed.
  - intro Hn. f_equal. now apply text_id_not_removed.
  - apply image_id_removed.
  - f_equal. apply image_id_not_removed. apply image_id_removed.
  - intro Hn. f_equal. now apply image_id_not_removed.
Qed.

Lemma remove_twins_example :
  let s := TajmirTemplate.run
             [TajmirTemplate.Dispatch 7 (TajmirTemplate.ADD_TEXT 7);
              TajmirTemplate.Dispatch 7 (TajmirTemplate.ADD_TEXT 7);
              TajmirTemplate.Dispatch 7 (TajmirTemplate.ADD_IMAGE "data:a")]
             TajmirTemplate.initialState in
  TajmirTemplate.text_ids s = [7; 7]%Z /\
  ~ In 7%Z (TajmirTemplate.image_ids
              (TajmirTemplate.removeTextBlock 7 TajmirTemplate.initialState)) /\
  TajmirTemplate.textBlocks (TajmirTemplate.removeTextBlock 7 s) = [] /\
  TajmirTemplate.image_ids (TajmirTemplate.removeTextBlock 7 s) = [7]%Z /\
  TajmirTemplate.removeImageBlock 7
    (TajmirTemplate.removeTextBlock 7 TajmirTemplate.initialState)
  = TajmirTemplate.removeTextBlock 7 TajmirTemplate.initialState.
Proof.
  intro s. split; [reflexivity|].
  assert (Hn : ~ In 7%Z (TajmirTemplate.image_ids
                           (TajmirTemplate.removeTextBlock 7
                              TajmirTemplate.initialState)))
    by (intros []).
  split; [exact Hn|]. split; [reflexivity|]. split; [reflexivity|].
  destruct (remove_takes_every_element_with_the_id 7
              (TajmirTemplate.removeTextBlock 7 TajmirTemplate.initialState))
    as [_ (_ & _ & _ & H)].
  exact (H Hn).
Defined.

(** X7.  An add command appends exactly one element, at (50, 200), to
    the end of its collection, with the clock reading as id (for text,
    whatever the payload), and leaves the other collection alone; an
    ADD_IMAGE with an empty payload, an action of another type, or no
    action changes nothing.  When no element of the kind already has
    that id, removing the new element by its id gives back the state
    before the add. *)
Theorem add_then_remove_restores :
  forall (now payload : Z) (url : string) (s : TajmirTemplate.State),
    let t := TajmirTemplate.actionEffect now (Some (TajmirTemplate.ADD_TEXT payload)) s in
    let i := TajmirTemplate.actionEffect now (Some (TajmirTemplate.ADD_IMAGE url)) s in
    (TajmirTemplate.textBlocks t =
       TajmirTemplate.textBlocks s ++
       [{| TextBlock.id := now; TextBlock.x := 50; TextBlock.y := 200 |}] /\
     TajmirTemplate.imageBlocks t = TajmirTemplate.imageBlocks s) /\
    (url <> EmptyString ->
     TajmirTemplate.imageBlocks i =
       TajmirTemplate.imageBlocks s ++
       [{| ImageBlock.id := now; ImageBlock.src := url;
           ImageBlock.x := 50; ImageBlock.y := 200 |}] /\
     TajmirTemplate.textBlocks i = TajmirTemplate.textBlocks s) /\
    TajmirTemplate.actionEffect now
      (Some (TajmirTemplate.ADD_IMAGE EmptyString)) s = s /\
    (forall type, TajmirTemplate.actionEffect now
                    (Some (TajmirTemplate.OTHER type)) s = s) /\
    TajmirTemplate.actionEffect now None s = s /\
    (~ In now (TajmirTemplate.text_ids s) ->
     TajmirTemplate.removeTextBlock now t = s) /\
    (url <> EmptyString -> ~ In now (TajmirTemplate.image_ids s) ->
     TajmirTemplate.removeImageBlock now i = s).
Proof.
  intros now payload url [texts images] t i. subst t i.
  assert (Htruthy : url <> EmptyString -> TajmirTemplate.truthy url = true).
  { intro Hu. unfold TajmirTemplate.truthy. apply negb_true_iff.
    now apply String.eqb_neq. }
  unfold TajmirTemplate.text_ids, TajmirTemplate.image_ids. simpl.
  split; [split; reflexivity|].
  split; [intro Hu; rewrite (Htruthy Hu); split; reflexivity|].
  split; [reflexivity|]. split; [reflexivity|]. split; [reflexivity|]. split.
  - intro Hn. unfold TajmirTemplate.removeTextBlock, TajmirTemplate.setTextBlocks.
    simpl. f_equal. rewrite filter_app. simpl. rewrite Z.eqb_refl. simpl.
    rewrite app_nil_r. now apply text_id_not_removed.
  - intros Hu Hn. rewrite (Htruthy Hu).
    unfold TajmirTemplate.removeImageBlock, TajmirTemplate.setImageBlocks.
    simpl. f_equal. rewrite filter_app. simpl. rewrite Z.eqb_refl. simpl.
    rewrite app_nil_r. now apply image_id_not_removed.
Qed.

Lemma add_then_remove_example :
  let s := TajmirTemplate.actionEffect 10
             (Some (TajmirTemplate.ADD_TEXT 10)) TajmirTemplate.initialState in
  ~ In 20%Z (TajmirTemplate.text_ids s) /\
  TajmirTemplate.removeTextBlock 20
    (TajmirTemplate.actionEffect 20 (Some (TajmirTemplate.ADD_TEXT 19)) s) = s.
Proof.
  intro s.
  assert (Hn : ~ In 20%Z (TajmirTemplate.text_ids s)).
  { simpl. intros [H|[]]. discriminate H. }
  split; [exact Hn|].
  destruct (add_then_remove_restores 20 19 "data:a" s)
    as (_ & _ & _ & _ & _ & H & _).
  exact (H Hn).
Defined.

(* ----------------------------------------------------------------- *)
(** ** Saving and loading *)

Section StorageFacts.
Import LocalStorage Persistence.

Lemma lookup_cleared (key : string) (m : list (string * string)) :
  String.prefix NewPage.doc_prefix key = true ->
  lookup key
    (List.filter (fun kv => negb (String.prefix NewPage.doc_prefix (fst kv))) m)
  = None.
Proof.
  intro Hp. induction m as [|[k v] m IH]; [reflexivity|]. simpl.
  destruct (String.prefix NewPage.doc_prefix k) eqn:Hk; simpl; [exact IH|].
  destruct (String.eqb_spec k key) as [->|_]; [congruence|exact IH].
Qed.

Lemma lookup_kept (key : string) (m : list (string * string)) :
  String.prefix NewPage.doc_prefix key = false ->
  lookup key
    (List.filter (fun kv => negb (String.prefix NewPage.doc_prefix (fst kv))) m)
  = lookup key m.
Proof.
  intro Hp. induction m as [|[k v] m IH]; [reflexivity|]. simpl.
  destruct (String.prefix NewPage.doc_prefix k) eqn:Hk; simpl.
  - destruct (String.eqb_spec k key) as [->|_]; [congruence|exact IH].
  - destruct (String.eqb k key); [reflexivity|exact IH].
Qed.

Lemma loadContent_cleared (ls : LocalStorage.t) (key : string) (c : Component) :
  String.prefix NewPage.doc_prefix key = true ->
  read_fault ls key = None ->
  loadContent (NewPage.clearDocument ls) key c = (c, Return tt).
Proof.
  intros Hp Hf. unfold loadContent, bind, lift, getItem, guarded. simpl.
  rewrite Hf. now rewrite lookup_cleared by exact Hp.
Qed.

End StorageFacts.

(** X8.  On a store that accepts the two writes and the two reads,
    saving the collections and loading them back gives exactly the
    collections saved, the empty ones included, with nothing logged;
    the saves leave the markup of the editable regions as it was. *)
Theorem saved_collections_load_back :
  forall (ls : LocalStorage.t) (s : TajmirTemplate.State) (c : Persistence.Component),
    LocalStorage.write_fault ls LocalStorage.key_text = None ->
    LocalStorage.write_fault ls LocalStorage.key_img = None ->
    LocalStorage.read_fault ls LocalStorage.key_text = None ->
    LocalStorage.read_fault ls LocalStorage.key_img = None ->
    exists ls1 ls2,
      Persistence.saveTextEffect ls s = LocalStorage.Return ls1 /\
      Persistence.saveImageEffect ls1 s = LocalStorage.Return ls2 /\
      LocalStorage.markup ls2 = LocalStorage.markup ls /\
      Persistence.loadDraggables ls2 c =
        ({| Persistence.blocks := s;
            Persistence.text_is_array := true;
            Persistence.image_is_array := true;
            Persistence.innerHTML := Persistence.innerHTML c;
            Persistence.console := Persistence.console c |},
         LocalStorage.Return tt).
Proof.
  intros ls [texts images] c Hwt Hwi Hrt Hri.
  unfold Persistence.saveTextEffect, Persistence.saveImageEffect,
    LocalStorage.setItem_text, LocalStorage.setItem_img, LocalStorage.guarded.
  rewrite Hwt.
  exists {| LocalStorage.markup := LocalStorage.markup ls;
            LocalStorage.draggables_text := Some (LocalStorage.Serialized texts);
            LocalStorage.draggables_img := LocalStorage.draggables_img ls;
            LocalStorage.read_fault := LocalStorage.read_fault ls;
            LocalStorage.write_fault := LocalStorage.write_fault ls |}.
  simpl. rewrite Hwi.
  exists {| LocalStorage.markup := LocalStorage.markup ls;
            LocalStorage.draggables_text := Some (LocalStorage.Serialized texts);
            LocalStorage.draggables_img := Some (LocalStorage.Serialized images);
            LocalStorage.read_fault := LocalStorage.read_fault ls;
            LocalStorage.write_fault := LocalStorage.write_fault ls |}.
  split; [reflexivity|]. split; [reflexivity|]. split; [reflexivity|].
  unfold Persistence.loadDraggables, Persistence.try_catch, Persistence.bind,
    Persistence.lift, LocalStorage.getItem_text, LocalStorage.getItem_img,
    LocalStorage.guarded. simpl. rewrite Hrt, Hri. reflexivity.
Qed.

Lemma saved_collections_example :
  let s := TajmirTemplate.run
             [TajmirTemplate.Dispatch 10 (TajmirTemplate.ADD_TEXT 10);
              TajmirTemplate.Dispatch 20 (TajmirTemplate.ADD_IMAGE "data:a")]
             TajmirTemplate.initialState in
  exists ls1 ls2,
    Persistence.saveTextEffect Persistence.empty_store s = LocalStorage.Return ls1 /\
    Persistence.saveImageEffect ls1 s = LocalStorage.Return ls2 /\
    LocalStorage.markup ls2 = [] /\
    Persistence.loadDraggables ls2 Persistence.mounted =
      ({| Persistence.blocks := s;
          Persistence.text_is_array := true;
          Persistence.image_is_array := true;
          Persistence.innerHTML := [];
          Persistence.console := [] |}, LocalStorage.Return tt).
Proof.
  intro s.
  exact (@saved_collections_load_back Persistence.empty_store s
           Persistence.mounted eq_refl eq_refl eq_refl eq_refl).
Defined.

(** X9.  On a store that accepts the write and the read of a region's
    key, what [handleInput] saved for the region is what [loadContent]
    puts back on the next load, unless it is the empty string: a
    region the user emptied is left alone by the load and so shows its
    built-in text again.  Saving one region does not change what is
    read under any other key, nor the stored collections. *)
Theorem region_markup_loads_back :
  forall (ls : LocalStorage.t) (key html : string) (c : Persistence.Component),
    LocalStorage.write_fault ls key = None ->
    LocalStorage.read_fault ls key = None ->
    exists ls',
      Persistence.handleInput ls key html = LocalStorage.Return ls' /\
      Persistence.loadContent ls' key c =
        (if String.eqb html EmptyString then c
         else Persistence.set_innerHTML key html c, LocalStorage.Return tt) /\
      (forall other, other <> key ->
         LocalStorage.getItem ls' other = LocalStorage.getItem ls other) /\
      LocalStorage.draggables_text ls' = LocalStorage.draggables_text ls /\
      LocalStorage.draggables_img ls' = LocalStorage.draggables_img ls.
Proof.
  intros ls key html c Hw Hr.
  unfold Persistence.handleInput, LocalStorage.setItem, LocalStorage.guarded.
  rewrite Hw. eexists. split; [reflexivity|]. split; [|split; [|split; reflexivity]].
  - unfold Persistence.loadContent, Persistence.bind, Persistence.lift,
      LocalStorage.getItem, LocalStorage.guarded. simpl.
    rewrite Hr, String.eqb_refl.
    destruct (String.eqb html EmptyString); reflexivity.
  - intros other Hne. unfold LocalStorage.getItem. simpl.
    apply not_eq_sym in Hne. apply String.eqb_neq in Hne. now rewrite Hne.
Qed.

Lemma region_markup_example :
  exists ls',
    Persistence.handleInput Persistence.empty_store "tajmir_doc_header_h1" "ACME"
      = LocalStorage.Return ls' /\
    Persistence.loadContent ls' "tajmir_doc_header_h1" Persistence.mounted =
      (Persistence.set_innerHTML "tajmir_doc_header_h1" "ACME" Persistence.mounted,
       LocalStorage.Return tt).
Proof.
  destruct (@region_markup_loads_back Persistence.empty_store
              "tajmir_doc_header_h1" "ACME" Persistence.mounted eq_refl eq_refl)
    as (ls' & Hs & Hl & _).
  exists ls'. split; [exact Hs|exact Hl].
Defined.

(** X10.  After "New" is confirmed, and the store being readable, the
    load effect of the reloaded page finds nothing: it ends normally
    and leaves the component exactly as mounted, with no element, no
    region markup and nothing logged.  Every key that does not start
    with [tajmir_doc_] (the saved margins) reads as before.  Declining
    the dialog changes nothing and does not reload. *)
Theorem new_page_clears_the_document :
  forall (ls : LocalStorage.t) (c : Persistence.Component),
    (forall key, LocalStorage.read_fault ls key = None) ->
    Persistence.loadEffect (fst (NewPage.handleNewPage true ls)) c
      = (c, LocalStorage.Return tt) /\
    snd (NewPage.handleNewPage true ls) = true /\
    (forall key, String.prefix NewPage.doc_prefix key = false ->
       LocalStorage.getItem (fst (NewPage.handleNewPage true ls)) key
       = LocalStorage.getItem ls key) /\
    NewPage.handleNewPage false ls = (ls, false).
Proof.
  intros ls c Hr. simpl. split; [|split; [reflexivity|split; [|reflexivity]]].
  - unfold Persistence.loadEffect, Persistence.bind.
    repeat (rewrite loadContent_cleared; [|reflexivity|apply Hr]).
    unfold Persistence.loadDraggables, Persistence.try_catch, Persistence.bind,
      Persistence.lift, LocalStorage.getItem_text, LocalStorage.getItem_img,
      LocalStorage.guarded. simpl. rewrite !Hr. reflexivity.
  - intros key Hp. unfold LocalStorage.getItem. simpl.
    now rewrite lookup_kept by exact Hp.
Qed.

Lemma new_page_example :
  let ls := {| LocalStorage.markup :=
                 [("tajmir_doc_main_body", "Dear Sir"); ("tajmir_settings_margins", "{}")]%string;
               LocalStorage.draggables_text :=
                 Some (LocalStorage.Serialized
                         [{| TextBlock.id := 1; TextBlock.x := 50; TextBlock.y := 200 |}]);
               LocalStorage.draggables_img := None;
               LocalStorage.read_fault := fun _ => None;
               LocalStorage.write_fault := fun _ => None |} in
  (forall key, LocalStorage.read_fault ls key = None) /\
  Persistence.loadEffect (fst (NewPage.handleNewPage true ls)) Persistence.mounted
    = (Persistence.mounted, LocalStorage.Return tt) /\
  LocalStorage.getItem (fst (NewPage.handleNewPage true ls)) "tajmir_settings_margins"
    = LocalStorage.Return (Some "{}"%string).
Proof.
  intro ls.
  assert (Hr : forall key, LocalStorage.read_fault ls key = None) by reflexivity.
  split; [exact Hr|].
  destruct (new_page_clears_the_document ls Persistence.mounted Hr)
    as (Hload & _ & Hkeep & _).
  split; [exact Hload|].
  exact (Hkeep "tajmir_settings_margins"%string eq_refl).
Defined.

(** X11.  The eight region reads of the load effect are outside its
    [try]: when reading any region key throws, the load effect ends
    with an exception before the collections are looked at, so no
    element is loaded and nothing is logged, whatever the store holds
    for the collections. *)
Theorem region_read_fault_aborts_load :
  forall (ls : LocalStorage.t) (c : Persistence.Component) (key : string)
         (e : Async.Err),
    In key NewPage.region_keys ->
    LocalStorage.read_fault ls key = Some e ->
    (exists e', snd (Persistence.loadEffect ls c) = LocalStorage.Threw e') /\
    Persistence.blocks (fst (Persistence.loadEffect ls c)) = Persistence.blocks c /\
    Persistence.console (fst (Persistence.loadEffect ls c)) = Persistence.console c.
Proof.
  intros ls c key e Hin Hf.
  unfold Persistence.loadEffect, Persistence.bind.
  do 8 (match goal with
        | |- context [Persistence.loadContent ls ?k ?c0] =>
            let E := fresh "E" in
            let Hn := fresh "Hn" in
            let Hb := fresh "Hb" in
            let Hc := fresh "Hc" in
            destruct (loadContent_cases ls k c0)
              as [(? & _ & E)|(Hn & ? & E & Hb & Hc & _)];
            rewrite E; clear E;
            [simpl; split; [eexists; reflexivity|split; congruence]|]
        end).
  exfalso. simpl in Hin.
  repeat (destruct Hin as [<-|Hin]; [congruence|]). exact Hin.
Qed.

Lemma region_read_fault_example :
  let ls := {| LocalStorage.markup := [];
               LocalStorage.draggables_text :=
                 Some (LocalStorage.Serialized
                         [{| TextBlock.id := 1; TextBlock.x := 50; TextBlock.y := 200 |}]);
               LocalStorage.draggables_img := None;
               LocalStorage.read_fault := fun key =>
                 if String.eqb key "tajmir_doc_footer_phone"
                 then Some (Async.Error "SecurityError") else None;
               LocalStorage.write_fault := fun _ => None |} in
  In "tajmir_doc_footer_phone"%string NewPage.region_keys /\
  Persistence.blocks (fst (Persistence.loadEffect ls Persistence.mounted))
    = TajmirTemplate.initialState.
Proof.
  intro ls.
  assert (Hin : In "tajmir_doc_footer_phone"%string NewPage.region_keys).
  { simpl. tauto. }
  split; [exact Hin|].
  destruct (@region_read_fault_aborts_load ls Persistence.mounted
              "tajmir_doc_footer_phone" (Async.Error "SecurityError") Hin eq_refl)
    as (_ & Hb & _).
  exact Hb.
Defined.

(* ----------------------------------------------------------------- *)
(** ** The image element as a state machine *)

Section ImageFrames.
Import DraggableImage.

(** What a pointer move leaves alone. *)
Lemma handleMouseMove_frame (z : Q) (e : DOM.Pointer) (s : State) :
  let s' := handleMouseMove z e s in
  showMagic s' = showMagic s /\ showCrop s' = showCrop s /\
  isDragging s' = isDragging s /\ isResizing s' = isResizing s /\
  isSelected s' = isSelected s /\ startDimRef s' = startDimRef s /\
  threshold s' = threshold s /\ crop s' = crop s /\
  processedSrc s' = processedSrc s /\
  (dragStartRef s' = dragStartRef s \/
   isDragging s = true /\ dragStartRef s' = Some (DOM.at_pointer e)).
Proof.
  unfold handleMouseMove, resize_move, drag_move.
  destruct (isDragging s) eqn:Hd, (dragStartRef s) eqn:Hs,
    (isResizing s) eqn:Hr, (startDimRef s) eqn:Hm; simpl;
    rewrite ?Hd, ?Hs, ?Hr, ?Hm; simpl; rewrite ?Hd, ?Hs, ?Hr, ?Hm;
    repeat split; auto.
Qed.

Lemma click_outside_cases (e : DOM.PointerDown) (s : State) :
  handleClickOutside e s = s \/
  handleClickOutside e s = setShowCrop false (setShowMagic false (setIsSelected false s)).
Proof.
  unfold handleClickOutside.
  destruct (DOM.ref_attached e && negb (DOM.ref_contains_target e)),
    (negb (DOM.closest_control_btn e) && negb (DOM.closest_tool_panel e)); auto.
Qed.

Lemma touch_outside_cases (e : DOM.PointerDown) (s : State) :
  touchstartOutside e s = s \/ touchstartOutside e s = setIsSelected false s.
Proof.
  unfold touchstartOutside.
  destruct (DOM.ref_attached e && negb (DOM.ref_contains_target e)),
    (negb (DOM.closest_control_btn e) && negb (DOM.closest_tool_panel e)); auto.
Qed.

End ImageFrames.

(** X12.  In every state an image element can reach, at most one of
    the two tool panels is open. *)
Theorem tool_panels_never_both_open :
  forall (props : DraggableImage.Props) (s : DraggableImage.State),
    DraggableImage.reachable props s ->
    DraggableImage.showMagic s && DraggableImage.showCrop s = false.
Proof.
  intros props s H. induction H as [|s ev _ IH]; [reflexivity|].
  destruct ev; simpl; try exact IH.
  - destruct (handleMouseMove_frame zoom e s) as (Hm & Hc & _).
    now rewrite Hm, Hc.
  - destruct (click_outside_cases e s) as [->| ->]; [exact IH|reflexivity].
  - destruct (touch_outside_cases e s) as [->| ->]; exact IH.
  - apply andb_false_r.
  - reflexivity.
  - destruct side; exact IH.
Qed.

Lemma tool_panels_example :
  let s := DraggableImage.step TestElements.image_props
             (DraggableImage.step TestElements.image_props
                (DraggableImage.initialState TestElements.image_props)
                DraggableImage.ClickMagic)
             DraggableImage.ClickCrop in
  DraggableImage.reachable TestElements.image_props s /\
  DraggableImage.showCrop s = true /\
  DraggableImage.showMagic s && DraggableImage.showCrop s = false.
Proof.
  intro s.
  assert (Hr : DraggableImage.reachable TestElements.image_props s).
  { repeat constructor. }
  split; [exact Hr|]. split; [reflexivity|].
  exact (tool_panels_never_both_open Hr).
Defined.

(** X13.  In every state an image element can reach, a drag in
    progress has its pointer position recorded, and a resize in
    progress has both its pointer-down point and its size snapshot
    recorded: the null checks of [handleMouseMove] never fail during a
    gesture. *)
Theorem gesture_has_its_refs :
  forall (props : DraggableImage.Props) (s : DraggableImage.State),
    DraggableImage.reachable props s ->
    (DraggableImage.isDragging s = true ->
       DraggableImage.dragStartRef s <> None) /\
    (DraggableImage.isResizing s = true ->
       DraggableImage.dragStartRef s <> None /\
       DraggableImage.startDimRef s <> None).
Proof.
  intros props s H. induction H as [|s ev _ IH].
  - split; discriminate.
  - destruct IH as [IHd IHr]. destruct ev; simpl; try (split; assumption).
    + destruct (handleMouseMove_frame zoom e s)
        as (_ & _ & Hd & Hr & _ & Hm & _ & _ & _ & Hs).
      rewrite Hd, Hr, Hm.
      destruct Hs as [-> |[_ ->]]; [split; assumption|].
      split; [discriminate|]. intro Ht. split; [discriminate|now apply IHr].
    + split; intro; discriminate.
    + destruct (click_outside_cases e s) as [->| ->]; split; assumption.
    + destruct (touch_outside_cases e s) as [->| ->]; split; assumption.
    + split; [discriminate|]. intro Hr. split; [discriminate|].
      now apply IHr.
    + split; intros; [discriminate|split; discriminate].
    + destruct side; split; assumption.
Qed.

Lemma gesture_refs_example :
  let s := DraggableImage.step TestElements.image_props
             (DraggableImage.initialState TestElements.image_props)
             (DraggableImage.MouseDownMove {| DOM.clientX := 3; DOM.clientY := 4 |}) in
  DraggableImage.reachable TestElements.image_props s /\
  DraggableImage.isDragging s = true /\
  DraggableImage.dragStartRef s <> None.
Proof.
  intro s.
  assert (Hr : DraggableImage.reachable TestElements.image_props s).
  { repeat constructor. }
  split; [exact Hr|]. split; [reflexivity|].
  exact (proj1 (gesture_has_its_refs Hr) eq_refl).
Defined.

Section ImageGestureFacts.
Local Open Scope Q_scope.
Import DraggableImage.

(** One move of an image that is dragged and not resized. *)
Lemma image_drag_move (z : Q) (e : DOM.Pointer) (s : State) (start : DOM.Point) :
  isDragging s = true -> isResizing s = false -> dragStartRef s = Some start ->
  handleMouseMove z e s =
  set_dragStartRef (Some (DOM.at_pointer e))
    (setPosition
       {| DOM.x := DOM.x (position s) + (DOM.clientX e - DOM.x start) / z;
          DOM.y := DOM.y (position s) + (DOM.clientY e - DOM.y start) / z |} s).
Proof.
  intros Hd Hr Hs. unfold handleMouseMove, drag_move, resize_move.
  rewrite Hd, Hs. simpl. now rewrite Hr.
Qed.

(** A run of moves of a dragged image changes the position and the
    recorded pointer, and nothing else. *)
Lemma image_drag_moves (z : Q) (es : list DOM.Pointer) :
  forall (s : State) (start : DOM.Point),
    isDragging s = true -> isResizing s = false -> dragStartRef s = Some start ->
    exists p r, moves z es s = set_dragStartRef (Some r) (setPosition p s).
Proof.
  induction es as [|e es IH]; intros s start Hd Hr Hs.
  - exists (position s), start. destruct s; simpl in *. now subst.
  - unfold moves. simpl List.fold_left.
    rewrite (image_drag_move z e s Hd Hr Hs).
    match goal with
    | |- context [List.fold_left _ es ?s1] =>
        destruct (IH s1 (DOM.at_pointer e) Hd Hr eq_refl) as (p & r & Hm)
    end.
    unfold moves in Hm. rewrite Hm. exists p, r. reflexivity.
Qed.

(** No flag is set after a pointer-up, so moves do nothing. *)
Lemma moves_when_idle (z : Q) (es : list DOM.Pointer) (s : State) :
  isDragging s = false -> isResizing s = false -> moves z es s = s.
Proof.
  intros Hd Hr. induction es as [|e es IH]; [reflexivity|].
  unfold moves in *. simpl.
  replace (handleMouseMove z e s) with s; [exact IH|].
  unfold handleMouseMove, drag_move, resize_move. rewrite Hd. now rewrite Hr.
Qed.

End ImageGestureFacts.

(** X14.  A whole drag of an image that is not being resized
    (pointer-down on the Move button, any run of pointer moves at any
    zoom, pointer-up) changes its position and nothing else: it ends
    with no gesture flag set and no pointer recorded, and with the
    size, selection, panels, crop, threshold and processed image it
    had.  Without a move in between, the position is unchanged too. *)
Theorem image_drag_changes_position_only :
  forall (z : Q) (down : DOM.Pointer) (es : list DOM.Pointer)
         (s0 : DraggableImage.State),
    DraggableImage.isResizing s0 = false ->
    (exists p,
       DraggableImage.handleMouseUp
         (DraggableImage.moves z es (DraggableImage.handleMouseDown down s0))
       = DraggableImage.set_startDimRef None
           (DraggableImage.set_dragStartRef None
              (DraggableImage.setIsDragging false
                 (DraggableImage.setPosition p s0)))) /\
    DraggableImage.handleMouseUp
      (DraggableImage.moves z [] (DraggableImage.handleMouseDown down s0))
    = DraggableImage.set_startDimRef None
        (DraggableImage.set_dragStartRef None
           (DraggableImage.setIsDragging false s0)).
Proof.
  intros z down es s0 Hr. split.
  - destruct (image_drag_moves z es
                (DraggableImage.handleMouseDown down s0) (start := DOM.at_pointer down)
                eq_refl Hr eq_refl) as (p & r & Hm).
    exists p. rewrite Hm. destruct s0; simpl in *. subst. reflexivity.
  - destruct s0; simpl in *. subst. reflexivity.
Qed.

Lemma image_drag_example :
  let s0 := DraggableImage.handleContainerClick
              (DraggableImage.initialState TestElements.image_props) in
  let s1 := DraggableImage.handleMouseUp
              (DraggableImage.moves (1 # 2)
                 [{| DOM.clientX := 30; DOM.clientY := 10 |};
                  {| DOM.clientX := 110; DOM.clientY := 60 |}]
                 (DraggableImage.handleMouseDown
                    {| DOM.clientX := 10; DOM.clientY := 10 |} s0)) in
  DraggableImage.isResizing s0 = false /\
  DraggableImage.isSelected s1 = true /\
  DraggableImage.isDragging s1 = false /\
  DraggableImage.size s1 = DraggableImage.size s0.
Proof.
  intros s0 s1.
  split; [reflexivity|].
  destruct (@image_drag_changes_position_only (1 # 2)
              {| DOM.clientX := 10; DOM.clientY := 10 |}
              [{| DOM.clientX := 30; DOM.clientY := 10 |};
               {| DOM.clientX := 110; DOM.clientY := 60 |}] s0 eq_refl)
    as ((p & Hs) & _).
  fold s1 in Hs. rewrite Hs. repeat split.
Defined.

(** X15.  A pointer-up ends whatever gesture is in progress: it clears
    both flags and both refs and changes nothing else, and after it
    pointer moves, at any zoom and in any number, leave the element
    exactly as it is until the next pointer-down. *)
Theorem pointer_up_ends_the_gesture :
  forall (z : Q) (es : list DOM.Pointer) (s : DraggableImage.State),
    let up := DraggableImage.handleMouseUp s in
    DraggableImage.moves z es up = up /\
    DraggableImage.isDragging up = false /\
    DraggableImage.isResizing up = false /\
    DraggableImage.dragStartRef up = None /\
    DraggableImage.startDimRef up = None /\
    DraggableImage.set_startDimRef (DraggableImage.startDimRef s)
      (DraggableImage.set_dragStartRef (DraggableImage.dragStartRef s)
         (DraggableImage.setIsResizing (DraggableImage.isResizing s)
            (DraggableImage.setIsDragging (DraggableImage.isDragging s) up))) = s.
Proof.
  intros z es s up. split; [now apply moves_when_idle|].
  destruct s; repeat split.
Qed.

(* ----------------------------------------------------------------- *)
(** ** More on the background remover *)

Section LoopFacts.
Local Open Scope Z_scope.

Lemma list_ind4 (P : list Z -> Prop) :
  (forall l, (List.length l < 4)%nat -> P l) ->
  (forall r g b a rest, P rest -> P (r :: g :: b :: a :: rest)) ->
  forall l, P l.
Proof.
  intros Hshort Hstep. fix IH 1. intro l.
  destruct l as [|r [|g [|b [|a rest]]]];
    try (apply Hshort; simpl; lia).
  apply Hstep. apply IH.
Qed.

Lemma strip_light_short (th : Binary64.double) (l : list Z) :
  (List.length l < 4)%nat -> Canvas.strip_light th l = l.
Proof.
  destruct l as [|r [|g [|b [|a rest]]]]; simpl; intro H; try reflexivity. lia.
Qed.

(** The test of the loop on three bytes, cleared of denominators. *)
Lemma loop_test_int (t r g b : Z) :
  0 <= t <= 100 ->
  PixelSpec.is_byte r -> PixelSpec.is_byte g -> PixelSpec.is_byte b ->
  Binary64.gt (Canvas.brightness r g b) (Canvas.thresh t)
  = (15300 - 153 * t <? 20 * (r + g + b)).
Proof.
  intros Ht Hr Hg Hb. rewrite brightness_of_sum by assumption.
  unfold PixelSpec.is_byte in *. apply gt_thresh_exact; lia.
Qed.

End LoopFacts.

(** X16.  The processed image is always computed from the source,
    never from the previous result: with the image loaded and a 2D
    context at hand, or at threshold 0, the effect's result does not
    depend on what [processedSrc] held before, so moving the slider
    from one value to another gives what moving it there directly
    gives, and moving it back to 0 gives the source URL itself.  Only
    when the image has not finished loading (or no context is to be
    had) at a non-zero threshold is the previous result kept. *)
Theorem processing_starts_from_the_source :
  forall (context2d : bool) (threshold : Z) (src : string)
         (img : Canvas.HTMLImageElement) (prev prev' : Canvas.ImageSource),
    (Canvas.complete img && context2d = true \/ threshold = 0%Z ->
     Canvas.processImage context2d threshold src img prev
     = Canvas.processImage context2d threshold src img prev') /\
    Canvas.processImage context2d 0 src img prev = Canvas.Url src /\
    (threshold <> 0%Z -> Canvas.complete img && context2d = false ->
     Canvas.processImage context2d threshold src img prev = prev) /\
    (forall (props : DraggableImage.Props) (t1 : Z) (s : DraggableImage.State),
       Canvas.complete img && context2d = true \/ threshold = 0%Z ->
       DraggableImage.processEffect context2d props img
         (DraggableImage.changeThreshold threshold
            (DraggableImage.processEffect context2d props img
               (DraggableImage.changeThreshold t1 s)))
       = DraggableImage.processEffect context2d props img
           (DraggableImage.changeThreshold threshold s)).
Proof.
  intros context2d threshold src img prev prev'.
  assert (Hind : forall s0 p p',
            Canvas.complete img && context2d = true \/ threshold = 0%Z ->
            Canvas.processImage context2d threshold s0 img p
            = Canvas.processImage context2d threshold s0 img p').
  { intros s0 p p' H. unfold Canvas.processImage.
    destruct (Z.eqb_spec threshold 0) as [_|Hne]; [reflexivity|].
    destruct H as [H|H]; [|contradiction].
    apply andb_prop in H as [-> ->]. reflexivity. }
  split; [apply Hind|]. split; [reflexivity|]. split.
  - intros Hne Hc. unfold Canvas.processImage.
    apply Z.eqb_neq in Hne. rewrite Hne.
    destruct (Canvas.complete img); simpl in *; [|reflexivity].
    now rewrite Hc.
  - intros props t1 s H. unfold DraggableImage.processEffect. simpl.
    rewrite (Hind (DraggableImage.src props)
               (Canvas.processImage context2d t1 (DraggableImage.src props) img
                  (DraggableImage.processedSrc s))
               (DraggableImage.processedSrc s) H).
    destruct s; reflexivity.
Qed.

Lemma processing_back_to_zero_example :
  let img := TestImages.loaded 2 1 TestImages.gray_and_white in
  let s := DraggableImage.processEffect true TestElements.image_props img
             (DraggableImage.changeThreshold 50
                (DraggableImage.initialState TestElements.image_props)) in
  (Canvas.complete img && true = true \/ 0%Z = 0%Z) /\
  DraggableImage.processedSrc s <> Canvas.Url "data:image" /\
  DraggableImage.processedSrc
    (DraggableImage.processEffect true TestElements.image_props img
       (DraggableImage.changeThreshold 0 s))
  = Canvas.Url "data:image".
Proof.
  intros img s. split; [now right|]. split.
  - vm_compute. discriminate.
  - destruct (processing_starts_from_the_source true 0 "data:image" img
                (DraggableImage.processedSrc s) (DraggableImage.processedSrc s))
      as (_ & H0 & _).
    exact H0.
Defined.

(** X17.  Whatever the cut-off and whatever the bytes, the loop keeps
    the length of the data, never changes a red, green or blue byte,
    and leaves each alpha byte as it was or sets it to 0; a trailing
    group of fewer than four bytes is kept.  The loop is idempotent. *)
Theorem strip_light_touches_alpha_only :
  forall (th : Binary64.double) (data : list Z),
    List.length (Canvas.strip_light th data) = List.length data /\
    Canvas.strip_light th (Canvas.strip_light th data) = Canvas.strip_light th data /\
    (forall (pixels : list PixelSpec.Pixel) (tail : list Z),
       data = PixelSpec.bytes pixels ++ tail -> (List.length tail < 4)%nat ->
       exists pixels',
         Canvas.strip_light th data = PixelSpec.bytes pixels' ++ tail /\
         Forall2 (fun p q =>
                    PixelSpec.red q = PixelSpec.red p /\
                    PixelSpec.green q = PixelSpec.green p /\
                    PixelSpec.blue q = PixelSpec.blue p /\
                    (PixelSpec.alpha q = PixelSpec.alpha p \/
                     PixelSpec.alpha q = 0%Z))
                 pixels pixels').
Proof.
  intros th data. split; [|split].
  - induction data as [l Hl|r g b a rest IH] using list_ind4.
    + now rewrite strip_light_short.
    + simpl. now rewrite IH.
  - induction data as [l Hl|r g b a rest IH] using list_ind4.
    + rewrite (@strip_light_short th l Hl). now apply strip_light_short.
    + simpl. rewrite IH.
      destruct (Binary64.gt (Canvas.brightness r g b) th); reflexivity.
  - intros pixels. revert data.
    induction pixels as [|p pixels IH]; intros data tail -> Hlen.
    + exists []. simpl. split; [now apply strip_light_short|constructor].
    + destruct (IH (PixelSpec.bytes pixels ++ tail) tail eq_refl Hlen)
        as (qs & Hq & Hrel).
      simpl. rewrite Hq.
      exists ({| PixelSpec.red := PixelSpec.red p;
                 PixelSpec.green := PixelSpec.green p;
                 PixelSpec.blue := PixelSpec.blue p;
                 PixelSpec.alpha :=
                   if Binary64.gt (Canvas.brightness (PixelSpec.red p)
                                     (PixelSpec.green p) (PixelSpec.blue p)) th
                   then 0%Z else PixelSpec.alpha p |} :: qs).
      split; [reflexivity|]. constructor; [|exact Hrel]. simpl.
      repeat split.
      destruct (Binary64.gt _ th); auto.
Qed.

Lemma strip_light_tail_example :
  let data := [255; 255; 255; 200; 9; 9]%Z in
  (data = PixelSpec.bytes [{| PixelSpec.red := 255; PixelSpec.green := 255;
                              PixelSpec.blue := 255; PixelSpec.alpha := 200 |}]
          ++ [9; 9]%Z /\
   (List.length [9; 9]%Z < 4)%nat) /\
  Canvas.strip_light (Canvas.thresh 50) data = [255; 255; 255; 0; 9; 9]%Z /\
  List.length (Canvas.strip_light (Canvas.thresh 50) data) = 6%nat.
Proof.
  intro data. split; [split; [reflexivity|simpl; lia]|].
  split; [vm_compute; reflexivity|].
  exact (proj1 (strip_light_touches_alpha_only (Canvas.thresh 50) data)).
Defined.

(** X18.  On well-formed pixels and thresholds in 0..100 the loop is
    monotone in the threshold: running it at one threshold on the
    output of a run at another gives what a single run at the larger
    of the two gives.  So a pixel made transparent at some threshold is
    transparent at every larger one, and raising the slider never
    brings a pixel back. *)
Theorem higher_threshold_removes_more :
  forall (t1 t2 : Z) (pixels : list PixelSpec.Pixel),
    (0 <= t1 <= 100)%Z -> (0 <= t2 <= 100)%Z ->
    Forall PixelSpec.well_formed pixels ->
    Canvas.strip_light (Canvas.thresh t1)
      (Canvas.strip_light (Canvas.thresh t2) (PixelSpec.bytes pixels))
    = Canvas.strip_light (Canvas.thresh (Z.max t1 t2)) (PixelSpec.bytes pixels).
Proof.
  intros t1 t2 pixels H1 H2 Hwf.
  induction Hwf as [|p rest (Hr & Hg & Hb & _) _ IH]; [reflexivity|].
  simpl. rewrite IH.
  rewrite !loop_test_int by (assumption || lia).
  unfold PixelSpec.is_byte in *.
  destruct (Z.ltb_spec (15300 - 153 * t1)
              (20 * (PixelSpec.red p + PixelSpec.green p + PixelSpec.blue p))),
           (Z.ltb_spec (15300 - 153 * t2)
              (20 * (PixelSpec.red p + PixelSpec.green p + PixelSpec.blue p))),
           (Z.ltb_spec (15300 - 153 * Z.max t1 t2)
              (20 * (PixelSpec.red p + PixelSpec.green p + PixelSpec.blue p)));
    try reflexivity; lia.
Qed.

Lemma higher_threshold_example :
  ((0 <= 80 <= 100)%Z /\ (0 <= 30 <= 100)%Z /\
   Forall PixelSpec.well_formed TestImages.gray_and_white) /\
  Canvas.strip_light (Canvas.thresh 80)
    (Canvas.strip_light (Canvas.thresh 30)
       (PixelSpec.bytes TestImages.gray_and_white))
  = Canvas.strip_light (Canvas.thresh (Z.max 80 30))
      (PixelSpec.bytes TestImages.gray_and_white).
Proof.
  assert (Hwf : Forall PixelSpec.well_formed TestImages.gray_and_white).
  { repeat constructor; unfold PixelSpec.is_byte; simpl; lia. }
  split; [split; [lia|split; [lia|exact Hwf]]|].
  apply higher_threshold_removes_more; [lia|lia|exact Hwf].
Defined.

(** X19.  With the slider at its maximum, 100, the loop makes every
    well-formed pixel transparent except pure black (red, green and
    blue all 0), which it leaves as it is: the cut-off the code
    computes there is a tiny positive number, not a negative one. *)
Theorem full_threshold_spares_only_black :
  forall pixels : list PixelSpec.Pixel,
    Forall PixelSpec.well_formed pixels ->
    Canvas.strip_light (Canvas.thresh 100) (PixelSpec.bytes pixels)
    = PixelSpec.bytes
        (List.map
           (fun p =>
              if (PixelSpec.red p + PixelSpec.green p + PixelSpec.blue p =? 0)%Z
              then p
              else {| PixelSpec.red := PixelSpec.red p;
                      PixelSpec.green := PixelSpec.green p;
                      PixelSpec.blue := PixelSpec.blue p;
                      PixelSpec.alpha := 0 |})
           pixels) /\
    Binary64.gt (Canvas.thresh 100) (Binary64.of_Z 0) = true.
Proof.
  intros pixels Hwf. split; [|vm_compute; reflexivity].
  induction Hwf as [|p rest (Hr & Hg & Hb & _) _ IH]; [reflexivity|].
  simpl. rewrite IH.
  rewrite loop_test_int by (assumption || lia).
  unfold PixelSpec.is_byte in *.
  destruct (Z.ltb_spec (15300 - 153 * 100)
              (20 * (PixelSpec.red p + PixelSpec.green p + PixelSpec.blue p))),
           (Z.eqb_spec (PixelSpec.red p + PixelSpec.green p + PixelSpec.blue p) 0);
    try reflexivity; lia.
Qed.

Lemma full_threshold_example :
  let black := {| PixelSpec.red := 0; PixelSpec.green := 0;
                  PixelSpec.blue := 0; PixelSpec.alpha := 255 |} in
  let dark := {| PixelSpec.red := 1; PixelSpec.green := 0;
                 PixelSpec.blue := 0; PixelSpec.alpha := 255 |} in
  Forall PixelSpec.well_formed [black; dark] /\
  Canvas.strip_light (Canvas.thresh 100) (PixelSpec.bytes [black; dark])
  = [0; 0; 0; 255;  1; 0; 0; 0]%Z.
Proof.
  intros black dark.
  assert (Hwf : Forall PixelSpec.well_formed [black; dark]).
  { repeat constructor; unfold PixelSpec.is_byte; simpl; lia. }
  split; [exact Hwf|].
  exact (proj1 (full_threshold_spares_only_black Hwf)).
Defined.

(* ----------------------------------------------------------------- *)
(** ** The text element *)


(* ----------------------------------------------------------------- *)
(** ** Pinch zoom *)


